(** * AI SEO content assistant: the response normalizer, the transport
    handler, the stage handlers of the UI and the CSV export.

    The development embeds the TypeScript of the repository shallowly:
    - [Js]: strings as lists of UTF-16 code units, JavaScript values,
      truthiness, property lookup, [JSON.parse];
    - [Api]: [api/gemini.ts], the normalizers of the structured stages and
      the serverless [handler];
    - [Service]: [services/geminiService.ts], [callApi];
    - [Ui]: actions on the state of a component, with [await] and
      try/catch/finally;
    - [Creation], [Preparation], [Analysis]: the stage handlers of the three
      step components, as actions that log the requests they issue, and
      [downloadCSV] of [AnalysisStep.tsx].

    The generation service, the engine's TypeError messages and number
    formatting are parameters; [encodeURI] is the function of the language
    standard ([Uri]). *)

From Stdlib Require Import String Ascii.
From Stdlib Require Import List NArith ZArith Bool Lia.
Import ListNotations.

Local Open Scope N_scope.

#[local] Set Warnings "-register-all".

(** ** JavaScript strings and values *)

Module Js.

(** A JavaScript string is a sequence of 16-bit code units. *)
Definition jstring := list N.

(** ASCII literals of the source, as code units. *)
Definition lit (s : string) : jstring :=
  map N_of_ascii (list_ascii_of_string s).

(** The same, with every apostrophe standing for a quotation mark: the way
    JSON texts are written down in the examples. *)
Definition jlit (s : string) : jstring :=
  map (fun c => if c =? 39 then 34 else c) (lit s).

Definition jstring_eqb (a b : jstring) : bool :=
  if list_eq_dec N.eq_dec a b then true else false.

(** [s.startsWith(p)], returning what follows the prefix. *)
Fixpoint strip_prefix (p s : jstring) : option jstring :=
  match p, s with
  | [], _ => Some s
  | a :: p', b :: s' => if a =? b then strip_prefix p' s' else None
  | _ :: _, [] => None
  end.

(** The class [\s] of a regular expression without the [u] flag, which is also
    what [String.prototype.trim] removes: WhiteSpace and LineTerminator. *)
Definition is_js_space (c : N) : bool :=
  ((9 <=? c) && (c <=? 13)) || (c =? 32) || (c =? 160) || (c =? 5760)
  || ((8192 <=? c) && (c <=? 8202)) || (c =? 8232) || (c =? 8233)
  || (c =? 8239) || (c =? 8287) || (c =? 12288) || (c =? 65279).

Fixpoint drop_spaces (s : jstring) : jstring :=
  match s with
  | c :: r => if is_js_space c then drop_spaces r else s
  | [] => []
  end.

(** [s.trim()] *)
Definition trim (s : jstring) : jstring :=
  rev (drop_spaces (rev (drop_spaces s))).

(** A JSON number keeps the decimal it was written as:
    (-1)^neg * mant * 10^exp10. *)
Record number := { neg : bool; mant : N; exp10 : Z }.

(** The binary64 value of a decimal is (plus or minus) zero exactly when the
    decimal is at most 2^-1075, half of the least subnormal, under
    round-to-nearest-even. *)
Definition rounds_to_zero (n : number) : bool :=
  if mant n =? 0 then true
  else if (0 <=? exp10 n)%Z then false
  else mant n * 2 ^ 1075 <=? 10 ^ Z.to_N (- exp10 n).

Inductive value :=
| VUndefined
| VNull
| VBool (b : bool)
| VNum (n : number)
| VStr (s : jstring)
| VArr (items : list value)
| VObj (members : list (jstring * value)).

(** ToBoolean *)
Definition truthy (v : value) : bool :=
  match v with
  | VUndefined | VNull => false
  | VBool b => b
  | VNum n => negb (rounds_to_zero n)
  | VStr s => match s with [] => false | _ :: _ => true end
  | VArr _ | VObj _ => true
  end.

(** A later member of an object literal overrides an earlier one of the same
    name, as [JSON.parse] does. *)
Fixpoint lookup (k : jstring) (ms : list (jstring * value)) : option value :=
  match ms with
  | [] => None
  | (k', v) :: ms' =>
      match lookup k ms' with
      | Some w => Some w
      | None => if jstring_eqb k k' then Some v else None
      end
  end.

(** [v.k] for the property names the program reads (none of them is a
    property of a built-in prototype), on a value other than null or
    undefined. *)
Definition get (v : value) (k : jstring) : value :=
  match v with
  | VObj ms => match lookup k ms with Some w => w | None => VUndefined end
  | _ => VUndefined
  end.

Definition has_field (v : value) (k : jstring) : bool :=
  match v with
  | VObj ms => match lookup k ms with Some _ => true | None => false end
  | _ => false
  end.

(** [Array.isArray(v)] *)
Definition isArray (v : value) : bool :=
  match v with VArr _ => true | _ => false end.

(** [typeof v === 'object'] *)
Definition typeof_is_object (v : value) : bool :=
  match v with VNull | VArr _ | VObj _ => true | _ => false end.

(** [a === b] where [b] is a string. *)
Definition strict_eq_string (a : value) (b : jstring) : bool :=
  match a with VStr s => jstring_eqb s b | _ => false end.

(** *** JSON.parse (ECMA-404 grammar) *)

(** JSON whitespace: tab, line feed, carriage return, space. *)
Definition is_json_ws (c : N) : bool :=
  (c =? 9) || (c =? 10) || (c =? 13) || (c =? 32).

Fixpoint skip_ws (s : jstring) : jstring :=
  match s with
  | c :: r => if is_json_ws c then skip_ws r else s
  | [] => []
  end.

Definition is_digit (c : N) : bool := (48 <=? c) && (c <=? 57).

Definition hex_value (c : N) : option N :=
  if is_digit c then Some (c - 48)
  else if (97 <=? c) && (c <=? 102) then Some (c - 87)
  else if (65 <=? c) && (c <=? 70) then Some (c - 55)
  else None.

Definition hex4 (a b c d : N) : option N :=
  match hex_value a, hex_value b, hex_value c, hex_value d with
  | Some x, Some y, Some z, Some w => Some (((x * 16 + y) * 16 + z) * 16 + w)
  | _, _, _, _ => None
  end.

(** The simple escapes: the code unit that follows the backslash, decoded. *)
Definition simple_escape (e : N) : option N :=
  if e =? 34 then Some 34          (* quotation mark *)
  else if e =? 92 then Some 92     (* reverse solidus *)
  else if e =? 47 then Some 47     (* solidus *)
  else if e =? 98 then Some 8      (* b: backspace *)
  else if e =? 102 then Some 12    (* f: form feed *)
  else if e =? 110 then Some 10    (* n: line feed *)
  else if e =? 114 then Some 13    (* r: carriage return *)
  else if e =? 116 then Some 9     (* t: tab *)
  else None.

(** The characters of a string, after its opening quote, up to and including
    the closing quote. *)
Fixpoint parse_chars (s : jstring) : option (jstring * jstring) :=
  match s with
  | [] => None
  | c :: r =>
      if c =? 34 then Some ([], r)
      else if c =? 92 then
        match r with
        | [] => None
        | e :: r1 =>
            if e =? 117 then
              match r1 with
              | a :: b :: c' :: d :: r2 =>
                  match hex4 a b c' d with
                  | Some u =>
                      match parse_chars r2 with
                      | Some (cs, rest) => Some (u :: cs, rest)
                      | None => None
                      end
                  | None => None
                  end
              | _ => None
              end
            else
              match simple_escape e with
              | Some u =>
                  match parse_chars r1 with
                  | Some (cs, rest) => Some (u :: cs, rest)
                  | None => None
                  end
              | None => None
              end
        end
      else if c <? 32 then None
      else
        match parse_chars r with
        | Some (cs, rest) => Some (c :: cs, rest)
        | None => None
        end
  end.

(** The longest run of digits at the head of [s]. *)
Fixpoint span_digits (s : jstring) : jstring * jstring :=
  match s with
  | c :: r =>
      if is_digit c then let (ds, rest) := span_digits r in (c :: ds, rest)
      else ([], s)
  | [] => ([], [])
  end.

Definition digits_value (ds : jstring) : N :=
  fold_left (fun acc d => acc * 10 + (d - 48)) ds 0.

(** int: a single 0, or a digit 1-9 followed by digits. *)
Definition parse_int (s : jstring) : option (jstring * jstring) :=
  match s with
  | [] => None
  | c :: r =>
      if c =? 48 then Some ([c], r)
      else if is_digit c then let (ds, rest) := span_digits r in Some (c :: ds, rest)
      else None
  end.

(** frac: nothing, or a point followed by at least one digit. *)
Definition parse_frac (s : jstring) : option (jstring * jstring) :=
  match s with
  | c :: r =>
      if c =? 46 then
        match span_digits r with
        | ([], _) => None
        | (ds, rest) => Some (ds, rest)
        end
      else Some ([], s)
  | [] => Some ([], [])
  end.

(** The digits of an exponent: at least one. *)
Definition exp_digits (minus : bool) (s : jstring) : option (Z * jstring) :=
  match span_digits s with
  | ([], _) => None
  | (ds, rest) =>
      let e := Z.of_N (digits_value ds) in
      Some (if minus then (- e)%Z else e, rest)
  end.

(** exp: nothing, or e/E, an optional sign and at least one digit. *)
Definition parse_exp (s : jstring) : option (Z * jstring) :=
  match s with
  | c :: r =>
      if (c =? 101) || (c =? 69) then
        match r with
        | sg :: r' =>
            if sg =? 45 then exp_digits true r'
            else if sg =? 43 then exp_digits false r'
            else exp_digits false r
        | [] => None
        end
      else Some (0%Z, s)
  | [] => Some (0%Z, [])
  end.

(** number without its sign: int frac exp. *)
Definition parse_unsigned (sign : bool) (s : jstring) : option (number * jstring) :=
  match parse_int s with
  | None => None
  | Some (ints, s2) =>
      match parse_frac s2 with
      | None => None
      | Some (fracs, s3) =>
          match parse_exp s3 with
          | None => None
          | Some (e, s4) =>
              Some ({| neg := sign;
                       mant := digits_value (ints ++ fracs);
                       exp10 := (e - Z.of_nat (length fracs))%Z |}, s4)
          end
      end
  end.

Definition parse_number (s : jstring) : option (number * jstring) :=
  match s with
  | c :: r => if c =? 45 then parse_unsigned true r else parse_unsigned false s
  | [] => None
  end.

Definition parse_keyword (kw : string) (v : value) (s : jstring)
  : option (value * jstring) :=
  match strip_prefix (lit kw) s with
  | Some r => Some (v, r)
  | None => None
  end.

(** value, elements (after the opening bracket, up to and including the
    closing one) and members (likewise for braces).  [s] starts at the first
    character of the production; whitespace is skipped by the caller. *)
Fixpoint parse_value (fuel : nat) (s : jstring) {struct fuel}
  : option (value * jstring) :=
  match fuel with
  | O => None
  | S f =>
      match s with
      | [] => None
      | c :: r =>
          if c =? 123 then
            match skip_ws r with
            | c1 :: r1 =>
                if c1 =? 125 then Some (VObj [], r1)
                else
                  match parse_members f (c1 :: r1) with
                  | Some (ms, rest) => Some (VObj ms, rest)
                  | None => None
                  end
            | [] => None
            end
          else if c =? 91 then
            match skip_ws r with
            | c1 :: r1 =>
                if c1 =? 93 then Some (VArr [], r1)
                else
                  match parse_elements f (c1 :: r1) with
                  | Some (vs, rest) => Some (VArr vs, rest)
                  | None => None
                  end
            | [] => None
            end
          else if c =? 34 then
            match parse_chars r with
            | Some (cs, rest) => Some (VStr cs, rest)
            | None => None
            end
          else if c =? 116 then parse_keyword "true" (VBool true) s
          else if c =? 102 then parse_keyword "false" (VBool false) s
          else if c =? 110 then parse_keyword "null" VNull s
          else
            match parse_number s with
            | Some (n, rest) => Some (VNum n, rest)
            | None => None
            end
      end
  end

with parse_elements (fuel : nat) (s : jstring) {struct fuel}
  : option (list value * jstring) :=
  match fuel with
  | O => None
  | S f =>
      match parse_value f s with
      | None => None
      | Some (v, r) =>
          match skip_ws r with
          | c :: r1 =>
              if c =? 93 then Some ([v], r1)
              else if c =? 44 then
                match parse_elements f (skip_ws r1) with
                | Some (vs, rest) => Some (v :: vs, rest)
                | None => None
                end
              else None
          | [] => None
          end
      end
  end

with parse_members (fuel : nat) (s : jstring) {struct fuel}
  : option (list (jstring * value) * jstring) :=
  match fuel with
  | O => None
  | S f =>
      match s with
      | c :: r =>
          if c =? 34 then
            match parse_chars r with
            | None => None
            | Some (k, r1) =>
                match skip_ws r1 with
                | c2 :: r2 =>
                    if c2 =? 58 then
                      match parse_value f (skip_ws r2) with
                      | None => None
                      | Some (v, r3) =>
                          match skip_ws r3 with
                          | c4 :: r4 =>
                              if c4 =? 125 then Some ([(k, v)], r4)
                              else if c4 =? 44 then
                                match parse_members f (skip_ws r4) with
                                | Some (ms, rest) => Some ((k, v) :: ms, rest)
                                | None => None
                                end
                              else None
                          | [] => None
                          end
                      end
                    else None
                | [] => None
                end
            end
          else None
      | [] => None
      end
  end.

(** A whole text: whitespace, one value, whitespace. *)
Definition parse_text (fuel : nat) (s : jstring) : option value :=
  match parse_value fuel (skip_ws s) with
  | Some (v, r) => match skip_ws r with [] => Some v | _ :: _ => None end
  | None => None
  end.

(** Every call of the parser is on a text at least one character shorter than
    two calls before, so twice the length is fuel enough (see
    [parse_text_fuel]).  [None] is a thrown SyntaxError. *)
Definition JSON_parse (s : jstring) : option value :=
  parse_text (2 * length (skip_ws s) + 1) s.

End Js.

(** ** api/gemini.ts: normalizers and the serverless handler *)

Module Api.
Import Js.

(** The global replace of [/^```json\s*|```$/g] by the empty string.  Without
    the [m] flag the first alternative matches at index 0 only and the second
    one only where exactly three backticks remain; the scan goes left to
    right and resumes after a match. *)
Definition fence_open : jstring := lit "```json".
Definition fence_close : jstring := lit "```".

Fixpoint strip_closing_fence (s : jstring) : jstring :=
  match s with
  | [] => []
  | c :: r => if jstring_eqb s fence_close then [] else c :: strip_closing_fence r
  end.

Definition strip_fences (s : jstring) : jstring :=
  match strip_prefix fence_open s with
  | Some r => strip_closing_fence (drop_spaces r)
  | None => strip_closing_fence s
  end.

(** [safeJsonParse]: the parsed value, or null when [JSON.parse] throws. *)
Definition safeJsonParse (jsonString : jstring) : value :=
  match JSON_parse (strip_fences jsonString) with
  | Some v => v
  | None => VNull
  end.

(** What a [throw] carries: an [Error] with its message, or any other
    value. *)
Inductive exn :=
| JsError (message : jstring)
| JsThrown (v : value).

(** The completion of a call: a returned value or a thrown exception (for an
    async function, a resolved or a rejected promise). *)
Inductive completion (A : Type) :=
| Returns (a : A)
| Throws (e : exn).
Arguments Returns {A} a.
Arguments Throws {A} e.

Definition bind {A B : Type} (c : completion A) (k : A -> completion B)
  : completion B :=
  match c with
  | Returns a => k a
  | Throws e => Throws e
  end.

#[local] Notation "x <- c ;; k" := (bind c (fun x => k))
  (at level 61, c at next level, right associativity).

(** One request to the generation service per stage.  The prompt of a stage is
    a function of the arguments of the stage alone, so a request is identified
    by the stage and its arguments. *)
Inductive gen_request :=
| ReqAnalyzeKeywords (userUrl competitorUrls : value)
| ReqFindTopCompetitorArticles (topic : value)
| ReqCreateCompositeArticle (topic articles : value)
| ReqGenerateFullArticle (draft : value)
| ReqGenerateSocialMediaPosts (article : value)
| ReqReviseFullArticle (currentArticle revisionPrompt : value)
| ReqAnalyzePerformanceData (articleUrl socialUrl : value).

Section Stages.

(** The generation service: building the prompt and awaiting
    [ai.models.generateContent] either throws or yields a response, whose
    [text] is a string or undefined. *)
Variable generateContent : gen_request -> completion (option jstring).

(** The engine's message of the TypeError for reading property [k] of
    undefined or null. *)
Variable cannot_read : value -> jstring -> jstring.

(** [response.text || ''] *)
Definition text_or_empty (text : option jstring) : jstring :=
  match text with Some s => s | None => [] end.

(** [response.text || null] *)
Definition text_or_null (text : option jstring) : value :=
  match text with
  | Some (c :: s) => VStr (c :: s)
  | Some [] | None => VNull
  end.

Definition analyzeKeywords (userUrl competitorUrls : value) : completion value :=
  response <- generateContent (ReqAnalyzeKeywords userUrl competitorUrls) ;;
  let result := safeJsonParse (text_or_empty response) in
  Returns (if truthy result && truthy (get result (lit "keywordAnalysis"))
              && truthy (get result (lit "summary"))
           then result else VNull).

Definition findTopCompetitorArticles (topic : value) : completion value :=
  response <- generateContent (ReqFindTopCompetitorArticles topic) ;;
  let result := safeJsonParse (text_or_empty response) in
  Returns (if truthy result && isArray result then result else VNull).

Definition createCompositeArticle (topic articles : value) : completion value :=
  response <- generateContent (ReqCreateCompositeArticle topic articles) ;;
  let result := safeJsonParse (text_or_empty response) in
  Returns (if truthy result && typeof_is_object result && negb (isArray result)
              && truthy (get result (lit "outline"))
           then result else VNull).

Definition generateFullArticle (draft : value) : completion value :=
  response <- generateContent (ReqGenerateFullArticle draft) ;;
  Returns (text_or_null response).

Definition generateSocialMediaPosts (article : value) : completion value :=
  response <- generateContent (ReqGenerateSocialMediaPosts article) ;;
  let result := safeJsonParse (text_or_empty response) in
  Returns (if truthy result && truthy (get result (lit "x"))
              && truthy (get result (lit "facebook"))
              && truthy (get result (lit "linkedin"))
              && truthy (get result (lit "hashtags"))
           then result else VNull).

Definition reviseFullArticle (currentArticle revisionPrompt : value)
  : completion value :=
  response <- generateContent (ReqReviseFullArticle currentArticle revisionPrompt) ;;
  Returns (text_or_null response).

Definition analyzePerformanceData (articleUrl socialUrl : value)
  : completion value :=
  response <- generateContent (ReqAnalyzePerformanceData articleUrl socialUrl) ;;
  let result := safeJsonParse (text_or_empty response) in
  Returns (if truthy result && truthy (get result (lit "summary"))
              && truthy (get result (lit "actionPlan"))
           then result else VNull).

(** *** The handler *)

(** [process.env]: a variable is a string or is not set. *)
Record env := { APP_PASSWORD : option jstring; API_KEY : option jstring }.

(** [!v] for an environment variable. *)
Definition unset (v : option jstring) : bool :=
  match v with
  | Some (_ :: _) => false
  | Some [] | None => true
  end.

Record request := { method : jstring; body : value }.

Inductive payload :=
| ErrorBody (error : jstring)
| DataBody (data : value).

(** What the handler does with a request: it writes a response, or it throws
    outside of every [try] and writes none. *)
Inductive outcome :=
| Response (status : N) (p : payload)
| Unhandled.

(** [params.k]: a TypeError when [params] is undefined or null. *)
Definition member (params : value) (k : jstring) : completion value :=
  match params with
  | VUndefined | VNull => Throws (JsError (cannot_read params k))
  | _ => Returns (get params k)
  end.

Definition op_is (operation : value) (name : string) : bool :=
  strict_eq_string operation (lit name).

(** The [switch]: [None] is the default branch. *)
Definition dispatch (operation params : value) : option (completion value) :=
  if op_is operation "analyzeKeywords" then
    Some (userUrl <- member params (lit "userUrl") ;;
          competitorUrls <- member params (lit "competitorUrls") ;;
          analyzeKeywords userUrl competitorUrls)
  else if op_is operation "findTopCompetitorArticles" then
    Some (topic <- member params (lit "topic") ;;
          findTopCompetitorArticles topic)
  else if op_is operation "createCompositeArticle" then
    Some (topic <- member params (lit "topic") ;;
          articles <- member params (lit "articles") ;;
          createCompositeArticle topic articles)
  else if op_is operation "generateFullArticle" then
    Some (draft <- member params (lit "draft") ;;
          generateFullArticle draft)
  else if op_is operation "generateSocialMediaPosts" then
    Some (article <- member params (lit "article") ;;
          generateSocialMediaPosts article)
  else if op_is operation "reviseFullArticle" then
    Some (currentArticle <- member params (lit "currentArticle") ;;
          revisionPrompt <- member params (lit "revisionPrompt") ;;
          reviseFullArticle currentArticle revisionPrompt)
  else if op_is operation "analyzePerformanceData" then
    Some (articleUrl <- member params (lit "articleUrl") ;;
          socialUrl <- member params (lit "socialUrl") ;;
          analyzePerformanceData articleUrl socialUrl)
  else None.

(** [error instanceof Error ? error.message : 'Unknown error'] *)
Definition message_of (e : exn) : jstring :=
  match e with
  | JsError m => m
  | JsThrown _ => lit "Unknown error"
  end.

Definition success (b : bool) : value := VObj [(lit "success", VBool b)].

Definition verifyPassword (environment : env) (params : value) : outcome :=
  match APP_PASSWORD environment with
  | Some (c :: pw) =>
      match params with
      | VUndefined | VNull =>
          Response 500 (ErrorBody (lit "Internal server error during authentication."))
      | _ =>
          Response 200
            (DataBody (success (strict_eq_string (get params (lit "password")) (c :: pw))))
      end
  | Some [] | None => Response 200 (DataBody (success false))
  end.

Definition handler (environment : env) (req : request) : outcome :=
  if negb (jstring_eqb (method req) (lit "POST")) then
    Response 405 (ErrorBody (lit "Method Not Allowed"))
  else
    match body req with
    | VUndefined | VNull => Unhandled
    | b =>
        let operation := get b (lit "operation") in
        let params := get b (lit "params") in
        if op_is operation "verifyPassword" then verifyPassword environment params
        else if unset (API_KEY environment) then
          Response 500
            (ErrorBody (lit "API_KEY environment variable not set on the server"))
        else
          match dispatch operation params with
          | None => Response 400 (ErrorBody (lit "Invalid operation specified."))
          | Some (Returns data) => Response 200 (DataBody data)
          | Some (Throws e) =>
              Response 500
                (ErrorBody (lit "An internal server error occurred: " ++ message_of e))
          end
    end.

End Stages.

(** The eight operation names of the handler. *)
Definition operations : list string :=
  [ "verifyPassword"; "analyzeKeywords"; "findTopCompetitorArticles";
    "createCompositeArticle"; "generateFullArticle";
    "generateSocialMediaPosts"; "reviseFullArticle";
    "analyzePerformanceData" ]%string.

Definition recognized (operation : value) : bool :=
  existsb (op_is operation) operations.

End Api.

(** ** services/geminiService.ts *)

Module Service.
Import Js Api.

(** The calls the components make, with the arguments they pass. *)
Inductive api_call :=
| CallVerifyPassword (password : jstring)
| CallAnalyzeKeywords (userUrl : jstring) (competitorUrls : list jstring)
| CallFindTopCompetitorArticles (topic : jstring)
| CallCreateCompositeArticle (topic : jstring) (articles : value)
| CallGenerateFullArticle (draft : value)
| CallGenerateSocialMediaPosts (article : value)
| CallReviseFullArticle (currentArticle : value) (revisionPrompt : jstring)
| CallAnalyzePerformanceData (articleUrl socialUrl : jstring).

(** What the components call: a promise that resolves or rejects. *)
Definition backend := api_call -> completion value.

(** [fetch] rejects, or resolves to a response with a status and a body that
    [response.json()] parses ([Some]) or rejects ([None]). *)
Inductive fetched :=
| Rejected
| Fetched (status : N) (json : option value).

(** [response.ok] *)
Definition ok (status : N) : bool := (200 <=? status) && (status <=? 299).

(** [callApi]: whatever goes wrong is caught and becomes null. *)
Definition callApi (fetch : api_call -> fetched) (call : api_call) : value :=
  match fetch call with
  | Rejected => VNull
  | Fetched status json =>
      if negb (ok status) then VNull
      else
        match json with
        | None => VNull
        | Some VUndefined | Some VNull => VNull
        | Some result => get result (lit "data")
        end
  end.

(** The exported functions, one per call, all through [callApi]. *)
Definition service (fetch : api_call -> fetched) : backend :=
  fun call => Returns (callApi fetch call).

End Service.

(** ** Handlers of the components: state, requests, try/catch/finally *)

Module Ui.
Import Js Api Service.

Section Actions.

Context {S : Type}.
Variable api : backend.

(** An action runs from a state of the component to a completion, the state
    it leaves and the requests it issued, in order. *)
Definition action (A : Type) := S -> completion A * S * list api_call.

Definition ret {A : Type} (a : A) : action A := fun s => (Returns a, s, []).

Definition bind {A B : Type} (c : action A) (k : A -> action B) : action B :=
  fun s =>
    match c s with
    | (Returns a, s1, l1) => let '(r, s2, l2) := k a s1 in (r, s2, l1 ++ l2)
    | (Throws e, s1, l1) => (Throws e, s1, l1)
    end.

(** A state setter of [useState]. *)
Definition set (f : S -> S) : action unit := fun s => (Returns tt, f s, []).

(** [await] of a service call. *)
Definition await (call : api_call) : action value :=
  fun s => (api call, s, [call]).

(** [try { c } catch (e) { h }] *)
Definition try_catch {A : Type} (c : action A) (h : exn -> action A) : action A :=
  fun s =>
    match c s with
    | (Returns a, s1, l1) => (Returns a, s1, l1)
    | (Throws e, s1, l1) => let '(r, s2, l2) := h e s1 in (r, s2, l1 ++ l2)
    end.

(** [try { c } finally { f }] *)
Definition try_finally {A : Type} (c : action A) (f : action unit) : action A :=
  fun s =>
    let '(r, s1, l1) := c s in
    match f s1 with
    | (Returns _, s2, l2) => (r, s2, l1 ++ l2)
    | (Throws e, s2, l2) => (Throws e, s2, l1 ++ l2)
    end.

(** The state and the requests of a run. *)
Definition exec {A : Type} (c : action A) (s : S) : S * list api_call :=
  let '(_, s1, l) := c s in (s1, l).

End Actions.

End Ui.

Declare Scope action_scope.
Delimit Scope action_scope with action.
Notation "x <- c ;; k" := (Ui.bind c (fun x => k))
  (at level 61, c at next level, right associativity) : action_scope.
Notation "c ;; k" := (Ui.bind c (fun _ => k))
  (at level 61, right associativity) : action_scope.

(** *** components/steps/CreationStep.tsx *)

Module Creation.
Import Js Api Service Ui.
Local Open Scope action_scope.

(** The four error texts of the component, by where they are set. *)
Inductive message :=
| GenerationReturnedNothing   (* handleGenerateArticle, else branch *)
| GenerationThrew             (* handleGenerateArticle, catch *)
| RevisionReturnedNothing     (* handleReviseArticle, else branch *)
| RevisionThrew.              (* handleReviseArticle, catch *)

Record state := {
  draft : value;
  fullArticle : value;
  socialPosts : value;
  isGenerating : bool;
  isRevising : bool;
  revisionPrompt : jstring;
  error : option message
}.

Definition setDraft (v : value) (s : state) : state :=
  {| draft := v; fullArticle := fullArticle s; socialPosts := socialPosts s;
     isGenerating := isGenerating s; isRevising := isRevising s;
     revisionPrompt := revisionPrompt s; error := error s |}.
Definition setFullArticle (v : value) (s : state) : state :=
  {| draft := draft s; fullArticle := v; socialPosts := socialPosts s;
     isGenerating := isGenerating s; isRevising := isRevising s;
     revisionPrompt := revisionPrompt s; error := error s |}.
Definition setSocialPosts (v : value) (s : state) : state :=
  {| draft := draft s; fullArticle := fullArticle s; socialPosts := v;
     isGenerating := isGenerating s; isRevising := isRevising s;
     revisionPrompt := revisionPrompt s; error := error s |}.
Definition setIsGenerating (b : bool) (s : state) : state :=
  {| draft := draft s; fullArticle := fullArticle s; socialPosts := socialPosts s;
     isGenerating := b; isRevising := isRevising s;
     revisionPrompt := revisionPrompt s; error := error s |}.
Definition setIsRevising (b : bool) (s : state) : state :=
  {| draft := draft s; fullArticle := fullArticle s; socialPosts := socialPosts s;
     isGenerating := isGenerating s; isRevising := b;
     revisionPrompt := revisionPrompt s; error := error s |}.
Definition setRevisionPrompt (p : jstring) (s : state) : state :=
  {| draft := draft s; fullArticle := fullArticle s; socialPosts := socialPosts s;
     isGenerating := isGenerating s; isRevising := isRevising s;
     revisionPrompt := p; error := error s |}.
Definition setError (e : option message) (s : state) : state :=
  {| draft := draft s; fullArticle := fullArticle s; socialPosts := socialPosts s;
     isGenerating := isGenerating s; isRevising := isRevising s;
     revisionPrompt := revisionPrompt s; error := e |}.

(** [useState] of a component mounted with [initialDraft]. *)
Definition initial (initialDraft : value) : state :=
  {| draft := initialDraft; fullArticle := VNull; socialPosts := VNull;
     isGenerating := false; isRevising := false; revisionPrompt := [];
     error := None |}.

Section Handlers.

Variable api : backend.

(** The handlers read the state of the render that created them
    ([captured]) and write through the setters. *)
Definition handleGenerateArticle (captured : state) : action unit :=
  if negb (truthy (draft captured)) then ret tt
  else
    set (setIsGenerating true) ;;
    set (setError None) ;;
    set (setFullArticle VNull) ;;
    set (setSocialPosts VNull) ;;
    set (setRevisionPrompt []) ;;
    try_finally
      (try_catch
         (articleResult <- await api (CallGenerateFullArticle (draft captured)) ;;
          if truthy articleResult then
            set (setFullArticle articleResult) ;;
            socialResult <- await api (CallGenerateSocialMediaPosts articleResult) ;;
            if truthy socialResult then set (setSocialPosts socialResult)
            else ret tt
          else set (setError (Some GenerationReturnedNothing)))
         (fun _ => set (setError (Some GenerationThrew))))
      (set (setIsGenerating false)).

Definition handleReviseArticle (captured : state) : action unit :=
  if negb (truthy (fullArticle captured))
     || negb (truthy (VStr (trim (revisionPrompt captured)))) then ret tt
  else
    set (setIsRevising true) ;;
    set (setError None) ;;
    set (setSocialPosts VNull) ;;
    try_finally
      (try_catch
         (result <- await api (CallReviseFullArticle (fullArticle captured)
                                 (revisionPrompt captured)) ;;
          if truthy result then
            set (setFullArticle result) ;;
            set (setRevisionPrompt [])
          else set (setError (Some RevisionReturnedNothing)))
         (fun _ => set (setError (Some RevisionThrew))))
      (set (setIsRevising false)).

(** The effect on [initialDraft]: a new draft resets the component. *)
Definition onInitialDraft (initialDraft : value) : action unit :=
  set (setDraft initialDraft) ;;
  set (setFullArticle VNull) ;;
  set (setSocialPosts VNull) ;;
  set (setError None) ;;
  set (setIsGenerating false) ;;
  set (setIsRevising false) ;;
  set (setRevisionPrompt []).

(** What can happen to the component ([copiedKey], which only the copy
    buttons read and write, is left out of the state). *)
Inductive event :=
| GenerateClicked
| ReviseClicked
| PromptEdited (text : jstring)
| DraftChanged (initialDraft : value).

Definition step (ev : event) (s : state) : state * list api_call :=
  match ev with
  | GenerateClicked => exec (handleGenerateArticle s) s
  | ReviseClicked => exec (handleReviseArticle s) s
  | PromptEdited text => exec (set (setRevisionPrompt text)) s
  | DraftChanged d => exec (onInitialDraft d) s
  end.

End Handlers.

End Creation.

(** *** App.tsx: the state that [onDraftCreated] writes *)

Module App.
Import Js.

Inductive AppStep := Preparation | Creation | Analysis.

Record state := {
  isAuthenticated : bool;
  currentStep : AppStep;
  creationDraft : value
}.

Definition handleDraftCreated (draft : value) (s : state) : state :=
  {| isAuthenticated := isAuthenticated s;
     currentStep := Creation;
     creationDraft := draft |}.

End App.

(** *** components/steps/PreparationStep.tsx *)

Module Preparation.
Import Js Api Service Ui.
Local Open Scope action_scope.

Inductive Stage := idle | analyzingKeywords | findingArticles | creatingDraft.

Inductive message :=
| UserUrlMissing              (* handleAnalyzeKeywords, guard *)
| KeywordsReturnedNothing     (* handleAnalyzeKeywords, else branch *)
| KeywordsThrew               (* handleAnalyzeKeywords, catch *)
| TopicMissing                (* handleFindArticles, guard *)
| ArticlesReturnedNothing     (* handleFindArticles, else branch *)
| ArticlesThrew               (* handleFindArticles, catch *)
| DraftReturnedNothing        (* handleCreateCompositeArticle, else branch *)
| DraftThrew.                 (* handleCreateCompositeArticle, catch *)

Record state := {
  stage : Stage;
  error : option message;
  userUrl : jstring;
  competitorUrl1 : jstring;
  competitorUrl2 : jstring;
  keywordAnalysis : value;
  topic : jstring;
  competitorArticles : value;
  parent : App.state
}.

Definition setStage (x : Stage) (s : state) : state :=
  {| stage := x; error := error s; userUrl := userUrl s;
     competitorUrl1 := competitorUrl1 s; competitorUrl2 := competitorUrl2 s;
     keywordAnalysis := keywordAnalysis s; topic := topic s;
     competitorArticles := competitorArticles s; parent := parent s |}.
Definition setError (x : option message) (s : state) : state :=
  {| stage := stage s; error := x; userUrl := userUrl s;
     competitorUrl1 := competitorUrl1 s; competitorUrl2 := competitorUrl2 s;
     keywordAnalysis := keywordAnalysis s; topic := topic s;
     competitorArticles := competitorArticles s; parent := parent s |}.
Definition setKeywordAnalysis (x : value) (s : state) : state :=
  {| stage := stage s; error := error s; userUrl := userUrl s;
     competitorUrl1 := competitorUrl1 s; competitorUrl2 := competitorUrl2 s;
     keywordAnalysis := x; topic := topic s;
     competitorArticles := competitorArticles s; parent := parent s |}.
Definition setTopic (x : jstring) (s : state) : state :=
  {| stage := stage s; error := error s; userUrl := userUrl s;
     competitorUrl1 := competitorUrl1 s; competitorUrl2 := competitorUrl2 s;
     keywordAnalysis := keywordAnalysis s; topic := x;
     competitorArticles := competitorArticles s; parent := parent s |}.
Definition setCompetitorArticles (x : value) (s : state) : state :=
  {| stage := stage s; error := error s; userUrl := userUrl s;
     competitorUrl1 := competitorUrl1 s; competitorUrl2 := competitorUrl2 s;
     keywordAnalysis := keywordAnalysis s; topic := topic s;
     competitorArticles := x; parent := parent s |}.

(** The eight [useState] of a step that is mounted under an App in state
    [p]. *)
Definition initial (p : App.state) : state :=
  {| stage := idle; error := None; userUrl := [];
     competitorUrl1 := []; competitorUrl2 := [];
     keywordAnalysis := VNull; topic := [];
     competitorArticles := VNull; parent := p |}.

(** [onDraftCreated] is [handleDraftCreated] of App.  App renders only the
    current step, so with [currentStep] set to Creation this step is
    unmounted: its state is discarded, and the setters that still run (the
    one of the finally block) do nothing.  What is left of the step is the
    state of its next mount. *)
Definition onDraftCreated (draft : value) (s : state) : state :=
  initial (App.handleDraftCreated draft (parent s)).

(** [s.trim() !== ''] *)
Definition nonblank (s : jstring) : bool :=
  match trim s with [] => false | _ :: _ => true end.

Section Handlers.

Variable api : backend.

Definition handleAnalyzeKeywords (captured : state) : action unit :=
  if negb (nonblank (userUrl captured)) then set (setError (Some UserUrlMissing))
  else
    set (setError None) ;;
    set (setStage analyzingKeywords) ;;
    set (setKeywordAnalysis VNull) ;;
    try_finally
      (try_catch
         (let competitorUrls :=
            filter nonblank [competitorUrl1 captured; competitorUrl2 captured] in
          result <- await api (CallAnalyzeKeywords (userUrl captured) competitorUrls) ;;
          if truthy result && truthy (get result (lit "keywordAnalysis"))
          then set (setKeywordAnalysis result)
          else set (setError (Some KeywordsReturnedNothing)))
         (fun _ => set (setError (Some KeywordsThrew))))
      (set (setStage idle)).

Definition handleSelectKeyword (selectedTopic : jstring) : action unit :=
  set (setTopic selectedTopic).

Definition handleFindArticles (captured : state) : action unit :=
  if negb (nonblank (topic captured)) then set (setError (Some TopicMissing))
  else
    set (setError None) ;;
    set (setStage findingArticles) ;;
    set (setCompetitorArticles VNull) ;;
    try_finally
      (try_catch
         (result <- await api (CallFindTopCompetitorArticles (topic captured)) ;;
          if truthy result then set (setCompetitorArticles result)
          else set (setError (Some ArticlesReturnedNothing)))
         (fun _ => set (setError (Some ArticlesThrew))))
      (set (setStage idle)).

Definition handleCreateCompositeArticle (captured : state) : action unit :=
  if negb (truthy (competitorArticles captured))
     || negb (truthy (VStr (topic captured))) then ret tt
  else
    set (setError None) ;;
    set (setStage creatingDraft) ;;
    try_finally
      (try_catch
         (result <- await api (CallCreateCompositeArticle (topic captured)
                                 (competitorArticles captured)) ;;
          if truthy result then set (onDraftCreated result)
          else set (setError (Some DraftReturnedNothing)))
         (fun _ => set (setError (Some DraftThrew))))
      (set (setStage idle)).

End Handlers.

End Preparation.

(** *** components/steps/AnalysisStep.tsx *)

Module Analysis.
Import Js Api Service Ui.
Local Open Scope action_scope.

Inductive message :=
| ArticleUrlInvalid           (* handleGenerateReport, guard *)
| ReportReturnedNothing       (* handleGenerateReport, else branch *)
| ReportThrew.                (* handleGenerateReport, catch *)

Record state := {
  isLoading : bool;
  error : option message;
  articleUrl : jstring;
  socialUrl : jstring;
  analysis : value
}.

Definition setIsLoading (x : bool) (s : state) : state :=
  {| isLoading := x; error := error s; articleUrl := articleUrl s;
     socialUrl := socialUrl s; analysis := analysis s |}.
Definition setError (x : option message) (s : state) : state :=
  {| isLoading := isLoading s; error := x; articleUrl := articleUrl s;
     socialUrl := socialUrl s; analysis := analysis s |}.
Definition setAnalysis (x : value) (s : state) : state :=
  {| isLoading := isLoading s; error := error s; articleUrl := articleUrl s;
     socialUrl := socialUrl s; analysis := x |}.

(** [s.startsWith('http')] *)
Definition startsWith_http (s : jstring) : bool :=
  match strip_prefix (lit "http") s with Some _ => true | None => false end.

Section Handlers.

Variable api : backend.

Definition handleGenerateReport (captured : state) : action unit :=
  if negb (truthy (VStr (trim (articleUrl captured))))
     || negb (startsWith_http (articleUrl captured))
  then set (setError (Some ArticleUrlInvalid))
  else
    set (setError None) ;;
    set (setIsLoading true) ;;
    set (setAnalysis VNull) ;;
    try_finally
      (try_catch
         (result <- await api (CallAnalyzePerformanceData (articleUrl captured)
                                 (socialUrl captured)) ;;
          if truthy result then set (setAnalysis result)
          else set (setError (Some ReportReturnedNothing)))
         (fun _ => set (setError (Some ReportThrew))))
      (set (setIsLoading false)).

End Handlers.

(** *** downloadCSV *)

Record KeyMetrics := {
  monthlyPV : jstring;
  users : jstring;
  cvr : jstring;
  bounceRate : jstring
}.

Record TrafficSource := { source : jstring; percentage : number }.
Record KeywordPerformance := { keyword : jstring; estimatedPV : number }.
Record ActionItem := { action : jstring; justification : jstring }.

Record PerformanceAnalysis := {
  summary : jstring;
  keyMetrics : KeyMetrics;
  trafficSources : list TrafficSource;
  keywordPerformance : list KeywordPerformance;
  actionPlan : list ActionItem
}.

Definition quote : N := 34.
Definition nl : jstring := [10].

(** [s.replace] with the global pattern of one quotation mark and the
    replacement of two. *)
Definition double_quotes (s : jstring) : jstring :=
  flat_map (fun c => if c =? quote then [quote; quote] else [c]) s.

(** The template that wraps an escaped text in quotation marks. *)
Definition quoted (s : jstring) : jstring :=
  [quote] ++ double_quotes s ++ [quote].

(** [parts.join(sep)] *)
Fixpoint join (sep : jstring) (parts : list jstring) : jstring :=
  match parts with
  | [] => []
  | [p] => p
  | p :: rest => p ++ sep ++ join sep rest
  end.

Section Download.

(** Number-to-string conversion of a template literal. *)
Variable toString : number -> jstring.

(** [encodeURI], which throws a URIError on a lone surrogate. *)
Variable encodeURI : jstring -> completion jstring.

(** The text that [downloadCSV] assembles in [csvContent], statement by
    statement, for a record of the declared type (the guard on a missing
    record does not apply to one). *)
Definition csvContent (data : PerformanceAnalysis) : jstring :=
  let csv := lit "data:text/csv;charset=utf-8," in
  (* Summary *)
  let csv := csv ++ (lit "Summary" ++ nl) in
  let csv := csv ++ (quoted (summary data) ++ nl ++ nl) in
  (* Key Metrics *)
  let csv := csv ++ (lit "Key Metrics" ++ nl) in
  let csv := csv ++ (lit "Metric,Value" ++ nl) in
  let csv := csv ++ (lit "Monthly PV," ++ monthlyPV (keyMetrics data) ++ nl) in
  let csv := csv ++ (lit "Users," ++ users (keyMetrics data) ++ nl) in
  let csv := csv ++ (lit "Conversion Rate," ++ cvr (keyMetrics data) ++ nl) in
  let csv := csv ++ (lit "Bounce Rate," ++ bounceRate (keyMetrics data) ++ nl ++ nl) in
  (* Traffic Sources *)
  let csv := csv ++ (lit "Traffic Sources" ++ nl) in
  let csv := csv ++ (lit "Source,Percentage" ++ nl) in
  let csv :=
    fold_left
      (fun csv src =>
         csv ++ (source src ++ lit "," ++ toString (percentage src) ++ lit "%" ++ nl))
      (trafficSources data) csv in
  let csv := csv ++ nl in
  (* Keyword Performance *)
  let csv := csv ++ (lit "Keyword Performance" ++ nl) in
  let csv := csv ++ (lit "Keyword,Estimated PV" ++ nl) in
  let csv :=
    fold_left
      (fun csv kw =>
         csv ++ (quoted (keyword kw) ++ lit "," ++ toString (estimatedPV kw) ++ nl))
      (keywordPerformance data) csv in
  let csv := csv ++ nl in
  (* Action Plan *)
  let headers := [lit "Action"; lit "Justification"] in
  let rows :=
    map (fun item => [quoted (action item); quoted (justification item)])
      (actionPlan data) in
  let csv := csv ++ (lit "Action Plan" ++ nl) in
  let csv := csv ++ (join (lit ",") headers ++ nl
                     ++ join nl (map (join (lit ",")) rows)) in
  csv.

(** The link that is clicked: [href] and [download]. *)
Record link := { href : jstring; download : jstring }.

Definition downloadCSV (data : PerformanceAnalysis) (filename : jstring)
  : completion link :=
  match encodeURI (csvContent data) with
  | Returns encodedUri =>
      Returns {| href := encodedUri; download := filename ++ lit ".csv" |}
  | Throws e => Throws e
  end.

End Download.

End Analysis.

(** *** App.tsx: the session and what is rendered *)

Module Session.
Import Js.

Definition AUTH_KEY : jstring := lit "isAuthenticated".

(** The state of [App] and the item of [sessionStorage] under [AUTH_KEY]
    (no other item is read or written). *)
Record state := {
  app : App.state;
  stored : option jstring
}.

Definition setIsAuthenticated (b : bool) (s : App.state) : App.state :=
  {| App.isAuthenticated := b;
     App.currentStep := App.currentStep s;
     App.creationDraft := App.creationDraft s |}.

Definition setCurrentStep (step : App.AppStep) (s : App.state) : App.state :=
  {| App.isAuthenticated := App.isAuthenticated s;
     App.currentStep := step;
     App.creationDraft := App.creationDraft s |}.

(** The three [useState] of a fresh [App]. *)
Definition fresh : App.state :=
  {| App.isAuthenticated := false;
     App.currentStep := App.Preparation;
     App.creationDraft := VNull |}.

(** [sessionStorage.getItem(AUTH_KEY) === 'true'] *)
Definition remembered (item : option jstring) : bool :=
  match item with
  | Some v => jstring_eqb v (lit "true")
  | None => false
  end.

(** The effect that runs once after mounting. *)
Definition onMount (s : state) : state :=
  if remembered (stored s)
  then {| app := setIsAuthenticated true (app s); stored := stored s |}
  else s.

(** Loading the page in a session: a fresh [App], then the effect. *)
Definition load (item : option jstring) : state :=
  onMount {| app := fresh; stored := item |}.

Definition handleLoginSuccess (s : state) : state :=
  {| app := setIsAuthenticated true (app s); stored := Some (lit "true") |}.

Definition handleDraftCreated (draft : value) (s : state) : state :=
  {| app := App.handleDraftCreated draft (app s); stored := stored s |}.

(** What [App] returns. *)
Inductive screen :=
| ShowPasswordModal
| ShowPreparationStep
| ShowCreationStep (initialDraft : value)
| ShowAnalysisStep.

Definition render (s : state) : screen :=
  if negb (App.isAuthenticated (app s)) then ShowPasswordModal
  else
    match App.currentStep (app s) with
    | App.Preparation => ShowPreparationStep
    | App.Creation => ShowCreationStep (App.creationDraft (app s))
    | App.Analysis => ShowAnalysisStep
    end.

(** What can happen to [App]: the page is loaded again in the same session,
    the modal reports success, the preparation step hands a draft over, a
    step of the header is clicked. *)
Inductive event :=
| Reloaded
| LoginSucceeded
| DraftCreated (draft : value)
| StepClicked (step : App.AppStep).

Definition step (ev : event) (s : state) : state :=
  match ev with
  | Reloaded => load (stored s)
  | LoginSucceeded => handleLoginSuccess s
  | DraftCreated draft => handleDraftCreated draft s
  | StepClicked x => {| app := setCurrentStep x (app s); stored := stored s |}
  end.

Definition run (evs : list event) (s : state) : state :=
  fold_left (fun s ev => step ev s) evs s.

End Session.

(** *** components/PasswordModal.tsx *)

Module PasswordModal.
Import Js Api Service Ui.
Local Open Scope action_scope.

Inductive message :=
| WrongPassword               (* handleSubmit, else branch *)
| VerificationThrew.          (* handleSubmit, catch *)

(** The state of the modal ([None] is the empty error text) and of the
    [App] that [onSuccess] writes. *)
Record state := {
  password : jstring;
  error : option message;
  isLoading : bool;
  parent : Session.state
}.

Definition setPassword (x : jstring) (s : state) : state :=
  {| password := x; error := error s; isLoading := isLoading s; parent := parent s |}.
Definition setError (x : option message) (s : state) : state :=
  {| password := password s; error := x; isLoading := isLoading s; parent := parent s |}.
Definition setIsLoading (x : bool) (s : state) : state :=
  {| password := password s; error := error s; isLoading := x; parent := parent s |}.
Definition onSuccess (s : state) : state :=
  {| password := password s; error := error s; isLoading := isLoading s;
     parent := Session.handleLoginSuccess (parent s) |}.

Section Handlers.

Variable api : backend.

(** [result?.success] is undefined for a result that is undefined or null,
    which is what [get] gives for them. *)
Definition handleSubmit (captured : state) : action unit :=
  if isLoading captured then ret tt
  else
    set (setIsLoading true) ;;
    set (setError None) ;;
    try_finally
      (try_catch
         (result <- await api (CallVerifyPassword (password captured)) ;;
          if truthy (get result (lit "success")) then set onSuccess
          else set (setError (Some WrongPassword)))
         (fun _ => set (setError (Some VerificationThrew))))
      (set (setIsLoading false)).

End Handlers.

End PasswordModal.

(** *** The wire between [callApi] and the handler *)

Module Wire.
Import Js Api Service.

(** The operation name and the params object that each function of the
    service passes to [callApi]. *)
Definition operation_of (call : api_call) : string :=
  match call with
  | CallVerifyPassword _ => "verifyPassword"
  | CallAnalyzeKeywords _ _ => "analyzeKeywords"
  | CallFindTopCompetitorArticles _ => "findTopCompetitorArticles"
  | CallCreateCompositeArticle _ _ => "createCompositeArticle"
  | CallGenerateFullArticle _ => "generateFullArticle"
  | CallGenerateSocialMediaPosts _ => "generateSocialMediaPosts"
  | CallReviseFullArticle _ _ => "reviseFullArticle"
  | CallAnalyzePerformanceData _ _ => "analyzePerformanceData"
  end%string.

Definition params_of (call : api_call) : value :=
  match call with
  | CallVerifyPassword password => VObj [(lit "password", VStr password)]
  | CallAnalyzeKeywords userUrl competitorUrls =>
      VObj [(lit "userUrl", VStr userUrl);
            (lit "competitorUrls", VArr (map VStr competitorUrls))]
  | CallFindTopCompetitorArticles topic => VObj [(lit "topic", VStr topic)]
  | CallCreateCompositeArticle topic articles =>
      VObj [(lit "topic", VStr topic); (lit "articles", articles)]
  | CallGenerateFullArticle draft => VObj [(lit "draft", draft)]
  | CallGenerateSocialMediaPosts article => VObj [(lit "article", article)]
  | CallReviseFullArticle currentArticle revisionPrompt =>
      VObj [(lit "currentArticle", currentArticle);
            (lit "revisionPrompt", VStr revisionPrompt)]
  | CallAnalyzePerformanceData articleUrl socialUrl =>
      VObj [(lit "articleUrl", VStr articleUrl); (lit "socialUrl", VStr socialUrl)]
  end.

(** The binary64 value of a decimal is (plus or minus) Infinity exactly when
    the decimal is at least 2^1024 - 2^970, half a unit in the last place
    above the largest finite value, under round-to-nearest-even. *)
Definition overflows (n : number) : bool :=
  if (0 <=? exp10 n)%Z
  then 2 ^ 1024 - 2 ^ 970 <=? mant n * 10 ^ Z.to_N (exp10 n)
  else (2 ^ 1024 - 2 ^ 970) * 10 ^ Z.to_N (- exp10 n) <=? mant n.

(** What crosses the wire is a JSON text: [JSON.stringify] on one side,
    [JSON.parse] on the other.  [reread v] is the value that arrives for [v].
    A number that is not finite is written as null, and a zero of either
    sign as 0; a finite number is written with digits that read back as
    the same binary64 value, so its decimal stays as the name of that value.
    A member whose value is undefined is left out of an object, and an
    undefined item of an array is written as null.  Strings (lone surrogates
    are escaped), booleans and null arrive as they are.  An object stays
    the list of its members, a later one hiding an earlier one of the same
    name; the order in which members are enumerated is not observed by the
    program.  For a value that is itself undefined nothing is written:
    [reread VUndefined] stands for the member that is left out. *)
Definition reread_number (n : number) : value :=
  if overflows n then VNull
  else if rounds_to_zero n then VNum {| neg := false; mant := 0; exp10 := 0 |}
  else VNum n.

Definition present (ms : list (jstring * value)) : list (jstring * value) :=
  filter (fun kv => match lookup (fst kv) ms with
                    | Some VUndefined => false
                    | _ => true
                    end) ms.

Fixpoint reread (v : value) : value :=
  match v with
  | VNum n => reread_number n
  | VArr items =>
      VArr (map (fun x => match reread x with VUndefined => VNull | y => y end)
              items)
  | VObj members =>
      VObj (present (map (fun kv => let '(k, x) := kv in (k, reread x)) members))
  | VUndefined | VNull | VBool _ | VStr _ => v
  end.

(** The request of [callApi]: a POST whose body is the object of operation
    and params, written by [JSON.stringify] and read back by the platform. *)
Definition request_of (call : api_call) : request :=
  {| method := lit "POST";
     body := reread (VObj [(lit "operation", VStr (lit (operation_of call)));
                           (lit "params", params_of call)]) |}.

(** The object that the handler passes to [res.status(status).json]. *)
Definition body_of (p : payload) : value :=
  match p with
  | ErrorBody e => VObj [(lit "error", VStr e)]
  | DataBody d => VObj [(lit "data", d)]
  end.

(** [fetch] against the handler: [res.json] writes the object of the answer
    and [response.json()] reads it back.  A request that the handler leaves
    unanswered gets the platform's own answer, a 500 without a JSON body
    (the body of a request of [callApi] is never undefined or null). *)
Definition transport (serve : request -> outcome) (call : api_call) : fetched :=
  match serve (request_of call) with
  | Response status p => Fetched status (Some (reread (body_of p)))
  | Unhandled => Fetched 500 None
  end.

End Wire.

(** *** handleDownload of AnalysisStep.tsx *)

Module Download.
Import Js.

(** [domain.replace] with the pattern of www and a dot at the start. *)
Definition strip_www (domain : jstring) : jstring :=
  match strip_prefix (lit "www.") domain with
  | Some rest => rest
  | None => domain
  end.

(** The class of letters, digits, dot and hyphen, without regard to case
    (no code unit outside ASCII has its case folded into ASCII). *)
Definition is_safe (c : N) : bool :=
  ((97 <=? c) && (c <=? 122)) || ((65 <=? c) && (c <=? 90))
  || ((48 <=? c) && (c <=? 57)) || (c =? 46) || (c =? 45).

(** The global replace of every code unit outside the class by an
    underscore. *)
Definition sanitize (domain : jstring) : jstring :=
  map (fun c => if is_safe c then c else 95) domain.

Section Handler.

(** [new URL(articleUrl).hostname]; [None] when the constructor throws. *)
Variable hostname : jstring -> option jstring.

Definition filename (articleUrl : jstring) : jstring :=
  match articleUrl with
  | [] => lit "performance_report"
  | _ :: _ =>
      match hostname articleUrl with
      | Some host => lit "performance_report_" ++ sanitize (strip_www host)
      | None => lit "performance_report"
      end
  end.

(** [handleDownload]: the name given to [downloadCSV], when there is a
    report to download. *)
Definition handleDownload (s : Analysis.state) : option jstring :=
  if truthy (Analysis.analysis s) then Some (filename (Analysis.articleUrl s))
  else None.

End Handler.

End Download.

(** *** CreationStep.tsx between its awaits *)

Module Pending.
Import Js Api Service Ui Creation.

(** A handler that has reached an [await]: the call it waits for, with the
    values it captured. *)
Inductive pending :=
| AwaitArticle (draft : value)          (* handleGenerateArticle, first await *)
| AwaitPosts (articleResult : value)    (* handleGenerateArticle, second await *)
| AwaitRevision (fullArticle : value) (revisionPrompt : jstring).
                                        (* handleReviseArticle *)

Definition call_of (p : pending) : api_call :=
  match p with
  | AwaitArticle draft => CallGenerateFullArticle draft
  | AwaitPosts articleResult => CallGenerateSocialMediaPosts articleResult
  | AwaitRevision fullArticle revisionPrompt =>
      CallReviseFullArticle fullArticle revisionPrompt
  end.

(** [handleGenerateArticle] up to its first await. *)
Definition startGenerate (captured s : state) : state * option pending :=
  if negb (truthy (draft captured)) then (s, None)
  else
    (setRevisionPrompt []
       (setSocialPosts VNull
          (setFullArticle VNull (setError None (setIsGenerating true s)))),
     Some (AwaitArticle (draft captured))).

(** [handleReviseArticle] up to its await. *)
Definition startRevise (captured s : state) : state * option pending :=
  if negb (truthy (fullArticle captured))
     || negb (truthy (VStr (trim (revisionPrompt captured)))) then (s, None)
  else
    (setSocialPosts VNull (setError None (setIsRevising true s)),
     Some (AwaitRevision (fullArticle captured) (revisionPrompt captured))).

(** What runs when the awaited call settles: the try block up to the next
    await or to its end, or the catch block, and then the finally block. *)
Definition resume (p : pending) (c : completion value) (s : state)
  : state * option pending :=
  match p, c with
  | AwaitArticle _, Returns articleResult =>
      if truthy articleResult
      then (setFullArticle articleResult s, Some (AwaitPosts articleResult))
      else (setIsGenerating false
              (setError (Some GenerationReturnedNothing) s), None)
  | AwaitPosts _, Returns socialResult =>
      (setIsGenerating false
         (if truthy socialResult then setSocialPosts socialResult s else s),
       None)
  | AwaitArticle _, Throws _ | AwaitPosts _, Throws _ =>
      (setIsGenerating false (setError (Some GenerationThrew) s), None)
  | AwaitRevision _ _, Returns result =>
      if truthy result
      then (setIsRevising false (setRevisionPrompt [] (setFullArticle result s)),
            None)
      else (setIsRevising false (setError (Some RevisionReturnedNothing) s), None)
  | AwaitRevision _ _, Throws _ =>
      (setIsRevising false (setError (Some RevisionThrew) s), None)
  end.

(** What the component renders decides what can be clicked: without a draft
    nothing; the generate button while there is no article, disabled while
    generating; the revision form once there is an article, its text area
    disabled while revising or generating, its button also while the prompt
    is blank. *)
Definition canGenerate (s : state) : bool :=
  truthy (draft s) && negb (truthy (fullArticle s)) && negb (isGenerating s).

Definition canEdit (s : state) : bool :=
  truthy (draft s) && truthy (fullArticle s)
  && negb (isRevising s || isGenerating s).

Definition canRevise (s : state) : bool :=
  truthy (draft s) && truthy (fullArticle s)
  && negb (isRevising s || isGenerating s
           || negb (truthy (VStr (trim (revisionPrompt s))))).

(** The mounted component: its state and the handlers that are waiting.
    Leaving the step unmounts the component; showing the step again mounts
    a new one, which the handlers of the old one do not reach. *)
Record component := { now : state; awaiting : list pending }.

Definition mounted (initialDraft : value) : component :=
  {| now := initial initialDraft; awaiting := [] |}.

(** What can happen to it: a click on one of the two buttons, typing into
    the prompt, a new [initialDraft] from App, and the settling of the call
    that the waiting handler number [n] awaits. *)
Inductive happening :=
| Generate
| Revise
| Edit (text : jstring)
| Draft (initialDraft : value)
| Settle (n : nat).

Definition waiting (p : option pending) : list pending :=
  match p with Some q => [q] | None => [] end.

Fixpoint without (n : nat) (l : list pending) : list pending :=
  match n, l with
  | _, [] => []
  | O, _ :: r => r
  | S m, q :: r => q :: without m r
  end.

Section Steps.

Variable api : backend.

Definition step (h : happening) (c : component) : component :=
  match h with
  | Generate =>
      if canGenerate (now c) then
        let '(s, p) := startGenerate (now c) (now c) in
        {| now := s; awaiting := awaiting c ++ waiting p |}
      else c
  | Revise =>
      if canRevise (now c) then
        let '(s, p) := startRevise (now c) (now c) in
        {| now := s; awaiting := awaiting c ++ waiting p |}
      else c
  | Edit text =>
      if canEdit (now c)
      then {| now := setRevisionPrompt text (now c); awaiting := awaiting c |}
      else c
  | Draft initialDraft =>
      {| now := fst (exec (onInitialDraft initialDraft) (now c));
         awaiting := awaiting c |}
  | Settle n =>
      match nth_error (awaiting c) n with
      | Some p =>
          let '(s, q) := resume p (api (call_of p)) (now c) in
          {| now := s; awaiting := without n (awaiting c) ++ waiting q |}
      | None => c
      end
  end.

Definition run (hs : list happening) (c : component) : component :=
  fold_left (fun c h => step h c) hs c.

End Steps.

End Pending.

(** *** encodeURI, as the language standard defines it *)

Module Uri.
Import Js Api.

(** The code units that [encodeURI] leaves as they are: letters, digits,
    the reserved characters, the marks and the number sign. *)
Definition unescaped (c : N) : bool :=
  ((97 <=? c) && (c <=? 122)) || ((65 <=? c) && (c <=? 90))
  || ((48 <=? c) && (c <=? 57))
  || existsb (N.eqb c) (lit ";/?:@&=+$,-_.!~*'()#").

(** Leading and trailing surrogates. *)
Definition is_high (c : N) : bool := (55296 <=? c) && (c <=? 56319).
Definition is_low (c : N) : bool := (56320 <=? c) && (c <=? 57343).

(** The octets of a code point in UTF-8. *)
Definition utf8 (cp : N) : list N :=
  if cp <? 128 then [cp]
  else if cp <? 2048 then [192 + cp / 64; 128 + cp mod 64]
  else if cp <? 65536 then
    [224 + cp / 4096; 128 + (cp / 64) mod 64; 128 + cp mod 64]
  else
    [240 + cp / 262144; 128 + (cp / 4096) mod 64; 128 + (cp / 64) mod 64;
     128 + cp mod 64].

(** A percent sign and the two upper-case hexadecimal digits of an octet. *)
Definition hex_digit (d : N) : N := if d <? 10 then 48 + d else 55 + d.
Definition escape (octet : N) : jstring :=
  [37; hex_digit (octet / 16); hex_digit (octet mod 16)].

(** The URIError that [encodeURI] throws (the message is the engine's). *)
Definition URIError : exn := JsError (lit "URI malformed").

(** [encodeURI(s)]: a code unit of the set above is kept; any other code
    point is written as the escapes of its UTF-8 octets; a surrogate
    without its partner throws. *)
Fixpoint encodeURI (s : jstring) : completion jstring :=
  match s with
  | [] => Returns []
  | c :: r =>
      if unescaped c then
        match encodeURI r with
        | Returns t => Returns (c :: t)
        | Throws e => Throws e
        end
      else if is_low c then Throws URIError
      else if is_high c then
        match r with
        | d :: r' =>
            if is_low d then
              match encodeURI r' with
              | Returns t =>
                  Returns (flat_map escape
                             (utf8 ((c - 55296) * 1024 + (d - 56320) + 65536))
                           ++ t)
              | Throws e => Throws e
              end
            else Throws URIError
        | [] => Throws URIError
        end
      else
        match encodeURI r with
        | Returns t => Returns (flat_map escape (utf8 c) ++ t)
        | Throws e => Throws e
        end
  end.

End Uri.

(** * Vocabulary of the statements *)

Section ParserVocabulary.
Import Js.

(** What may follow a complete value: nothing, or whitespace. *)
Definition delimited (t : jstring) : Prop :=
  match t with
  | [] => True
  | c :: _ => is_json_ws c = true
  end.

Definition suffix_of (r s : jstring) : Prop := exists pre, s = pre ++ r.

(** [r] is what is left of [s] after a character other than a backtick. *)
Definition ends_well (r s : jstring) : Prop :=
  exists c, c <> 96 /\ suffix_of (c :: r) s.

Definition after_digit (r s : jstring) : Prop :=
  exists d, is_digit d = true /\ suffix_of (d :: r) s.

(** The three statements that go together by induction on the fuel. *)
Definition appends_value (f : nat) : Prop :=
  forall s t v r, delimited t ->
    parse_value f s = Some (v, r) -> parse_value f (s ++ t) = Some (v, r ++ t).
Definition appends_elements (f : nat) : Prop :=
  forall s t vs r, delimited t ->
    parse_elements f s = Some (vs, r) ->
    parse_elements f (s ++ t) = Some (vs, r ++ t).
Definition appends_members (f : nat) : Prop :=
  forall s t ms r, delimited t ->
    parse_members f s = Some (ms, r) ->
    parse_members f (s ++ t) = Some (ms, r ++ t).

Definition more_fuel {A : Type} (p : nat -> jstring -> option A) (f : nat) : Prop :=
  forall s x, p f s = Some x -> p (S f) s = Some x.

Definition value_ends (f : nat) : Prop :=
  forall s v r, parse_value f s = Some (v, r) -> ends_well r s.
Definition elements_end (f : nat) : Prop :=
  forall s vs r, parse_elements f s = Some (vs, r) -> suffix_of (93 :: r) s.
Definition members_end (f : nat) : Prop :=
  forall s ms r, parse_members f s = Some (ms, r) -> suffix_of (125 :: r) s.

End ParserVocabulary.

Section NormalizerVocabulary.
Import Js Api.

(** A text between an opening fence, with any white space after it, and a
    closing fence, with any JSON whitespace before it. *)
Definition fenced (gap1 gap2 s : jstring) : jstring :=
  fence_open ++ gap1 ++ s ++ gap2 ++ fence_close.

(** The generation service that answers every request with [text]. *)
Definition respond (text : jstring) : gen_request -> completion (option jstring) :=
  fun _ => Returns (Some text).

(** The request that [callApi] sends for [verifyPassword(password)]. *)
Definition login (password : jstring) : request :=
  {| method := lit "POST";
     body := VObj [(lit "operation", VStr (lit "verifyPassword"));
                   (lit "params", VObj [(lit "password", VStr password)])] |}.

(** A generation service that answers with the empty text, and an engine
    whose TypeErrors have no message. *)
Definition silent : gen_request -> completion (option jstring) := respond [].
Definition terse : value -> jstring -> jstring := fun _ _ => [].

(** What a structured stage parses out of a response. *)
Definition parsed (response : option jstring) : value :=
  safeJsonParse (text_or_empty response).

(** The invariant that the data model states for an ArticleDraft: the
    sections are a non-empty list and so are the points of every section. *)
Definition nonempty_list (v : value) : bool :=
  match v with VArr (_ :: _) => true | _ => false end.

Definition sections_and_points_nonempty (draft : value) : bool :=
  match get (get draft (lit "outline")) (lit "sections") with
  | VArr (sec :: secs) =>
      forallb (fun x => nonempty_list (get x (lit "points"))) (sec :: secs)
  | _ => false
  end.

End NormalizerVocabulary.

Section StageVocabulary.
Import Js Api Service.

(** A call fails when it throws or returns a falsy value, null above all. *)
Definition failed (c : completion value) : Prop :=
  match c with
  | Returns v => truthy v = false
  | Throws _ => True
  end.

End StageVocabulary.

Section CreationVocabulary.
Import Js Api Service Creation.

(** A component that holds a draft, an article, posts and a revision
    prompt. *)
Definition holding : state :=
  {| draft := VObj [(lit "outline", VObj [])];
     fullArticle := VStr (lit "article");
     socialPosts := VObj [(lit "x", VStr (lit "post"))];
     isGenerating := false; isRevising := false;
     revisionPrompt := lit "shorter";
     error := None |}.

(** A backend all of whose calls return null, and one that returns an
    article but no posts. *)
Definition nothing : backend := fun _ => Returns VNull.

Definition article_only : backend :=
  fun call =>
    match call with
    | CallGenerateFullArticle _ => Returns (VStr (lit "text"))
    | _ => Returns VNull
    end.

End CreationVocabulary.

Section CsvVocabulary.
Import Js Analysis.

Variable toString : number -> jstring.

(** The export as the specification describes it: a prefix and five
    sections, each a label on a line of its own and a body. *)
Definition summary_body (data : PerformanceAnalysis) : jstring :=
  quoted (summary data) ++ nl ++ nl.

Definition metrics_body (data : PerformanceAnalysis) : jstring :=
  lit "Metric,Value" ++ nl
  ++ lit "Monthly PV," ++ monthlyPV (keyMetrics data) ++ nl
  ++ lit "Users," ++ users (keyMetrics data) ++ nl
  ++ lit "Conversion Rate," ++ cvr (keyMetrics data) ++ nl
  ++ lit "Bounce Rate," ++ bounceRate (keyMetrics data) ++ nl ++ nl.

Definition source_row (src : TrafficSource) : jstring :=
  source src ++ lit "," ++ toString (percentage src) ++ lit "%" ++ nl.

Definition sources_body (data : PerformanceAnalysis) : jstring :=
  lit "Source,Percentage" ++ nl
  ++ concat (map source_row (trafficSources data)) ++ nl.

Definition keyword_row (kw : KeywordPerformance) : jstring :=
  quoted (keyword kw) ++ lit "," ++ toString (estimatedPV kw) ++ nl.

Definition keywords_body (data : PerformanceAnalysis) : jstring :=
  lit "Keyword,Estimated PV" ++ nl
  ++ concat (map keyword_row (keywordPerformance data)) ++ nl.

Definition plan_row (item : ActionItem) : jstring :=
  quoted (action item) ++ lit "," ++ quoted (justification item).

Definition plan_body (data : PerformanceAnalysis) : jstring :=
  lit "Action,Justification" ++ nl
  ++ join nl (map plan_row (actionPlan data)).

Definition sections (data : PerformanceAnalysis) : list (jstring * jstring) :=
  [ (lit "Summary", summary_body data);
    (lit "Key Metrics", metrics_body data);
    (lit "Traffic Sources", sources_body data);
    (lit "Keyword Performance", keywords_body data);
    (lit "Action Plan", plan_body data) ].

Definition render (section : jstring * jstring) : jstring :=
  fst section ++ nl ++ snd section.

(** [t] is a part of [s]. *)
Definition occurs_in (t s : jstring) : Prop :=
  exists before after, s = before ++ t ++ after.

(** Reading an escaped text back: two quotation marks are one. *)
Fixpoint undouble (s : jstring) : jstring :=
  match s with
  | [] => []
  | c :: r =>
      match r with
      | c' :: r' =>
          if (c =? quote) && (c' =? quote) then quote :: undouble r'
          else c :: undouble r
      | [] => [c]
      end
  end.

(** Every quotation mark of the text has a partner next to it. *)
Inductive quotes_paired : jstring -> Prop :=
| paired_nil : quotes_paired []
| paired_other c s : c <> quote -> quotes_paired s -> quotes_paired (c :: s)
| paired_quotes s : quotes_paired s -> quotes_paired (quote :: quote :: s).

(** A text without a lone surrogate: every leading surrogate is followed by
    a trailing one, and no trailing one stands without its leading one. *)
Fixpoint well_formed (s : jstring) : bool :=
  match s with
  | [] => true
  | c :: r =>
      if Uri.is_low c then false
      else if Uri.is_high c then
        match r with
        | d :: r' => Uri.is_low d && well_formed r'
        | [] => false
        end
      else well_formed r
  end.

(** The test for [occurs_in]. *)
Fixpoint occurs (t s : jstring) : bool :=
  match strip_prefix t s with
  | Some _ => true
  | None => match s with [] => false | _ :: r => occurs t r end
  end.

(** The prefix of the link. *)
Definition data_url : jstring := lit "data:text/csv;charset=utf-8,".

(** A report whose summary ends in half of a surrogate pair, and a report
    with a traffic source whose name holds a quotation mark. *)
Definition torn : PerformanceAnalysis :=
  {| summary := lit "up " ++ [55357];
     keyMetrics := {| monthlyPV := lit "1"; users := lit "2";
                      cvr := lit "3"; bounceRate := lit "4" |};
     trafficSources := []; keywordPerformance := []; actionPlan := [] |}.

Definition quoting : PerformanceAnalysis :=
  {| summary := lit "fine";
     keyMetrics := {| monthlyPV := lit "1"; users := lit "2";
                      cvr := lit "3"; bounceRate := lit "4" |};
     trafficSources :=
       [{| source := jlit "a'b";
           percentage := {| neg := false; mant := 40; exp10 := 0 |} |}];
     keywordPerformance := []; actionPlan := [] |}.

End CsvVocabulary.

Section DispatchVocabulary.
Import Js Api.

(** The request that the stage of an operation sends to the generation
    service, read off the [switch] of the handler and the stage functions:
    which stage, and which properties of [params] it is given. *)
Definition request_for (operation params : value) : option gen_request :=
  if op_is operation "analyzeKeywords" then
    Some (ReqAnalyzeKeywords (get params (lit "userUrl"))
            (get params (lit "competitorUrls")))
  else if op_is operation "findTopCompetitorArticles" then
    Some (ReqFindTopCompetitorArticles (get params (lit "topic")))
  else if op_is operation "createCompositeArticle" then
    Some (ReqCreateCompositeArticle (get params (lit "topic"))
            (get params (lit "articles")))
  else if op_is operation "generateFullArticle" then
    Some (ReqGenerateFullArticle (get params (lit "draft")))
  else if op_is operation "generateSocialMediaPosts" then
    Some (ReqGenerateSocialMediaPosts (get params (lit "article")))
  else if op_is operation "reviseFullArticle" then
    Some (ReqReviseFullArticle (get params (lit "currentArticle"))
            (get params (lit "revisionPrompt")))
  else if op_is operation "analyzePerformanceData" then
    Some (ReqAnalyzePerformanceData (get params (lit "articleUrl"))
            (get params (lit "socialUrl")))
  else None.

(** The stage function that a request belongs to. *)
Definition stage_of (g : gen_request -> completion (option jstring))
  (r : gen_request) : completion value :=
  match r with
  | ReqAnalyzeKeywords a b => analyzeKeywords g a b
  | ReqFindTopCompetitorArticles a => findTopCompetitorArticles g a
  | ReqCreateCompositeArticle a b => createCompositeArticle g a b
  | ReqGenerateFullArticle a => generateFullArticle g a
  | ReqGenerateSocialMediaPosts a => generateSocialMediaPosts g a
  | ReqReviseFullArticle a b => reviseFullArticle g a b
  | ReqAnalyzePerformanceData a b => analyzePerformanceData g a b
  end.

(** undefined or null: what a property cannot be read of. *)
Definition nullish (v : value) : bool :=
  match v with VUndefined | VNull => true | _ => false end.

(** The status codes that the handler writes. *)
Definition handler_statuses : list N := [200; 400; 405; 500].

(** A response text that yields nothing: no text, or a text that is null
    after the fences are removed and it is parsed. *)
Definition unusable (response : option jstring) : Prop :=
  response = None \/ response = Some [] \/
  exists text, response = Some text /\ JSON_parse (strip_fences text) = None.

End DispatchVocabulary.

Section WireVocabulary.
Import Js Api Service.

(** The request to the generation service that a call of the service ends
    in: the arguments as they arrive in params, that is, as the JSON text of
    the request carries them (texts and lists of texts arrive as they
    are). *)
Definition gen_request_of (call : api_call) : option gen_request :=
  match call with
  | CallVerifyPassword _ => None
  | CallAnalyzeKeywords userUrl competitorUrls =>
      Some (ReqAnalyzeKeywords (VStr userUrl) (VArr (map VStr competitorUrls)))
  | CallFindTopCompetitorArticles topic =>
      Some (ReqFindTopCompetitorArticles (VStr topic))
  | CallCreateCompositeArticle topic articles =>
      Some (ReqCreateCompositeArticle (VStr topic) (Wire.reread articles))
  | CallGenerateFullArticle draft =>
      Some (ReqGenerateFullArticle (Wire.reread draft))
  | CallGenerateSocialMediaPosts article =>
      Some (ReqGenerateSocialMediaPosts (Wire.reread article))
  | CallReviseFullArticle currentArticle revisionPrompt =>
      Some (ReqReviseFullArticle (Wire.reread currentArticle) (VStr revisionPrompt))
  | CallAnalyzePerformanceData articleUrl socialUrl =>
      Some (ReqAnalyzePerformanceData (VStr articleUrl) (VStr socialUrl))
  end.

(** The backend of the components when the handler is at the other end of
    the wire. *)
Definition deployed (g : gen_request -> completion (option jstring))
  (cannot_read : value -> jstring -> jstring) (environment : env) : backend :=
  service (Wire.transport (handler g cannot_read environment)).

(** A null for an exception. *)
Definition or_null (c : completion value) : value :=
  match c with
  | Returns v => v
  | Throws _ => VNull
  end.

(** The secret is configured and the password is the secret. *)
Definition opens (environment : env) (password : jstring) : bool :=
  match APP_PASSWORD environment with
  | Some (c :: secret) => jstring_eqb password (c :: secret)
  | Some [] | None => false
  end.

End WireVocabulary.

Section TraceVocabulary.
Import Js Api Service.

(** A handler started and run through its awaits with nothing happening
    in between. *)
Fixpoint through (api : backend) (n : nat)
  (sp : Creation.state * option Pending.pending) : Creation.state :=
  match n, snd sp with
  | S m, Some q =>
      through api m (Pending.resume q (api (Pending.call_of q)) (fst sp))
  | _, _ => fst sp
  end.

(** No new draft arrives while a handler is waiting. *)
Fixpoint calm (api : backend) (hs : list Pending.happening)
  (c : Pending.component) : bool :=
  match hs with
  | [] => true
  | h :: hs' =>
      match h, Pending.awaiting c with
      | Pending.Draft _, _ :: _ => false
      | _, _ => calm api hs' (Pending.step api h c)
      end
  end.

(** White space only, the empty text included. *)
Definition blank (s : jstring) : bool := forallb is_js_space s.

(** Posts only with an article, an article only with a draft. *)
Definition layered (s : Creation.state) : Prop :=
  (truthy (Creation.socialPosts s) = true -> truthy (Creation.fullArticle s) = true) /\
  (truthy (Creation.fullArticle s) = true -> truthy (Creation.draft s) = true).

(** What holds of the component while draft changes keep out of the way of
    a waiting handler: at most one handler waits, and the state is the one
    that handler left at its await. *)
Definition steady (c : Pending.component) : Prop :=
  let s := Pending.now c in
  match Pending.awaiting c with
  | [] =>
      Creation.isGenerating s = false /\ Creation.isRevising s = false /\
      layered s
  | [Pending.AwaitArticle _] =>
      Creation.isGenerating s = true /\ Creation.isRevising s = false /\
      truthy (Creation.draft s) = true /\
      Creation.fullArticle s = VNull /\ Creation.socialPosts s = VNull
  | [Pending.AwaitPosts _] =>
      Creation.isGenerating s = true /\ Creation.isRevising s = false /\
      truthy (Creation.draft s) = true /\
      truthy (Creation.fullArticle s) = true /\ Creation.socialPosts s = VNull
  | [Pending.AwaitRevision _ _] =>
      Creation.isRevising s = true /\ Creation.isGenerating s = false /\
      truthy (Creation.draft s) = true /\
      truthy (Creation.fullArticle s) = true /\ Creation.socialPosts s = VNull
  | _ => False
  end.

(** The characters of a download name: letters, digits, dot, hyphen and
    underscore. *)
Definition name_character (c : N) : bool := Download.is_safe c || (c =? 95).

(** A backend that answers every call with an empty object. *)
Definition obliging : backend := fun _ => Returns (VObj []).

(** The preparation step of a logged-in user: spaces in the URL field, a
    topic, and the articles found for it. *)
Definition prepared : Preparation.state :=
  {| Preparation.stage := Preparation.idle;
     Preparation.error := None;
     Preparation.userUrl := lit "  ";
     Preparation.competitorUrl1 := [];
     Preparation.competitorUrl2 := lit "https://b.example";
     Preparation.keywordAnalysis := VNull;
     Preparation.topic := lit "shoes";
     Preparation.competitorArticles := VArr [];
     Preparation.parent :=
       {| App.isAuthenticated := true;
          App.currentStep := App.Preparation;
          App.creationDraft := VNull |} |}.

(** An analysis step that holds a report, its URL typed with a space in
    front. *)
Definition reported : Analysis.state :=
  {| Analysis.isLoading := false;
     Analysis.error := None;
     Analysis.articleUrl := lit " https://www.a b.example/x";
     Analysis.socialUrl := [];
     Analysis.analysis := VObj [] |}.

(** A report with a summary only. *)
Definition brief : Analysis.PerformanceAnalysis :=
  {| Analysis.summary := lit "fine";
     Analysis.keyMetrics :=
       {| Analysis.monthlyPV := lit "1"; Analysis.users := lit "2";
          Analysis.cvr := lit "3"; Analysis.bounceRate := lit "4" |};
     Analysis.trafficSources := [];
     Analysis.keywordPerformance := [];
     Analysis.actionPlan := [] |}.

End TraceVocabulary.

(** Tactics: the cases of a whitespace character, the run of an action,
    and the run of a handler behind the service, branch by branch. *)
Ltac ws_cases H :=
  unfold Js.is_json_ws in H;
  repeat (apply orb_true_iff in H; destruct H as [H|H]);
  apply N.eqb_eq in H; subst; try reflexivity.

Ltac run_action :=
  cbv [Ui.exec Ui.bind Ui.try_finally Ui.try_catch Ui.set Ui.await Ui.ret].

Ltac settle_handler :=
  cbv [Service.service Ui.exec Ui.bind Ui.try_finally Ui.try_catch Ui.set Ui.await
       Ui.ret];
  repeat match goal with
         | |- context [if ?b then _ else _] => destruct b
         end;
  cbn; auto.

(** * Facts *)

(** ** The JSON parser *)

Section ParserFacts.
Import Js.

Example parse_nested :
  JSON_parse (jlit " {'a': [1, -2.5e3, true, null, 'x\u0041'], 'b': {}} ")
  = Some (VObj [(lit "a",
                 VArr [VNum {| neg := false; mant := 1; exp10 := 0 |};
                       VNum {| neg := true; mant := 25; exp10 := 2 |};
                       VBool true; VNull; VStr (lit "xA")]);
                (lit "b", VObj [])]).
Proof. reflexivity. Qed.

Example parse_rejects :
  JSON_parse [] = None /\
  JSON_parse (lit "01") = None /\
  JSON_parse (jlit "{'a': 1,}") = None /\
  JSON_parse (jlit "['a' 'b']") = None /\
  JSON_parse (lit "tru") = None /\
  JSON_parse (lit "1.") = None /\
  JSON_parse (lit "{} {}") = None.
Proof. repeat split. Qed.

Example later_member_wins :
  option_map (fun v => get v (lit "a")) (JSON_parse (jlit "{'a': 1, 'a': 'z'}"))
  = Some (VStr (lit "z")).
Proof. reflexivity. Qed.

Example falsy_values :
  map truthy [VUndefined; VNull; VBool false; VStr [];
              VNum {| neg := true; mant := 0; exp10 := 0 |};
              VNum {| neg := false; mant := 1; exp10 := -400 |}]
  = [false; false; false; false; false; false] /\
  map truthy [VArr []; VObj []; VStr (lit "0");
              VNum {| neg := false; mant := 5; exp10 := -324 |}]
  = [true; true; true; true].
Proof. split; vm_compute; reflexivity. Qed.

Lemma suffix_of_refl s : suffix_of s s.
Proof. exists []. reflexivity. Qed.

Lemma suffix_of_cons c r s : suffix_of (c :: r) s -> suffix_of r s.
Proof.
  intros [pre ->]. exists (pre ++ [c]). now rewrite <- app_assoc.
Qed.

Lemma suffix_of_tail c s : suffix_of s (c :: s).
Proof. exists [c]. reflexivity. Qed.

Lemma suffix_of_trans a b c : suffix_of a b -> suffix_of b c -> suffix_of a c.
Proof.
  intros [p ->] [q ->]. exists (q ++ p). now rewrite app_assoc.
Qed.

Lemma skip_ws_suffix s : suffix_of (skip_ws s) s.
Proof.
  induction s as [|c s IH]; simpl.
  - apply suffix_of_refl.
  - destruct (is_json_ws c).
    + eapply suffix_of_trans; [exact IH | apply suffix_of_tail].
    + apply suffix_of_refl.
Qed.

Lemma skip_ws_head s c r : skip_ws s = c :: r -> is_json_ws c = false.
Proof.
  induction s as [|a s IH]; simpl; [discriminate|].
  destruct (is_json_ws a) eqn:E; [exact IH|].
  intros [= -> ->]. exact E.
Qed.

Lemma skip_ws_app s t c r :
  skip_ws s = c :: r -> skip_ws (s ++ t) = c :: r ++ t.
Proof.
  induction s as [|a s IH]; simpl; [discriminate|].
  destruct (is_json_ws a); [exact IH|].
  intros [= -> ->]. reflexivity.
Qed.

Lemma skip_ws_app_nil s t : skip_ws s = [] -> skip_ws (s ++ t) = skip_ws t.
Proof.
  induction s as [|a s IH]; simpl; [reflexivity|].
  destruct (is_json_ws a); [exact IH|discriminate].
Qed.

Lemma skip_ws_fixed c r : is_json_ws c = false -> skip_ws (c :: r) = c :: r.
Proof. intros H. simpl. now rewrite H. Qed.

Lemma json_ws_is_space c : is_json_ws c = true -> is_js_space c = true.
Proof.
  unfold is_json_ws, is_js_space. intros H.
  repeat (apply orb_true_iff in H; destruct H as [H|H]);
    apply N.eqb_eq in H; subst c; reflexivity.
Qed.

(** On a text whose first character after JSON whitespace is no space at
    all, [\s*] and JSON whitespace remove the same. *)
Lemma drop_spaces_skip_ws s c r :
  skip_ws s = c :: r -> is_js_space c = false -> drop_spaces s = c :: r.
Proof.
  induction s as [|a s IH]; simpl; [discriminate|].
  destruct (is_json_ws a) eqn:E.
  - rewrite (json_ws_is_space _ E). exact IH.
  - intros [= -> ->] H. now rewrite H.
Qed.

Lemma strip_prefix_app p s t r :
  strip_prefix p s = Some r -> strip_prefix p (s ++ t) = Some (r ++ t).
Proof.
  revert s. induction p as [|a p IH]; intros s; simpl.
  - now intros [= ->].
  - destruct s as [|b s]; [discriminate|]. simpl.
    destruct (a =? b); [apply IH|discriminate].
Qed.

Lemma strip_prefix_split p s r : strip_prefix p s = Some r -> s = p ++ r.
Proof.
  revert s. induction p as [|a p IH]; intros s; simpl.
  - now intros [= ->].
  - destruct s as [|b s]; [discriminate|].
    destruct (N.eqb_spec a b); [|discriminate].
    intros H. subst b. f_equal. now apply IH.
Qed.

(** *** Appending to the input *)

Lemma parse_chars_app s t cs r :
  parse_chars s = Some (cs, r) -> parse_chars (s ++ t) = Some (cs, r ++ t).
Proof.
  remember (length s) as n eqn:Hn.
  revert s Hn cs r. induction n as [n IH] using lt_wf_ind. intros s Hn cs r.
  destruct s as [|c s]; [discriminate|]. cbn [parse_chars app].
  destruct (c =? 34); [now intros [= <- <-]|].
  destruct (c =? 92).
  - destruct s as [|e s]; [discriminate|]. cbn [app].
    destruct (e =? 117).
    + destruct s as [|a [|b [|c' [|d s]]]]; try discriminate. cbn [app].
      destruct (hex4 a b c' d); [|discriminate].
      destruct (parse_chars s) as [[cs' r']|] eqn:E; [|discriminate].
      intros [= <- <-].
      erewrite (IH (length s)); [reflexivity| |reflexivity|exact E].
      subst n. simpl. lia.
    + destruct (simple_escape e); [|discriminate].
      destruct (parse_chars s) as [[cs' r']|] eqn:E; [|discriminate].
      intros [= <- <-].
      erewrite (IH (length s)); [reflexivity| |reflexivity|exact E].
      subst n. simpl. lia.
  - destruct (c <? 32); [discriminate|].
    destruct (parse_chars s) as [[cs' r']|] eqn:E; [|discriminate].
    intros [= <- <-].
    erewrite (IH (length s)); [reflexivity| |reflexivity|exact E].
    subst n. simpl. lia.
Qed.

Lemma delimited_not_digit t c r : delimited t -> t = c :: r -> is_digit c = false.
Proof.
  intros H ->. simpl in H. unfold is_json_ws in H. unfold is_digit.
  repeat (apply orb_true_iff in H; destruct H as [H|H]);
    apply N.eqb_eq in H; subst c; reflexivity.
Qed.

Lemma span_digits_app s t ds r :
  delimited t -> span_digits s = (ds, r) -> span_digits (s ++ t) = (ds, r ++ t).
Proof.
  intros Ht. revert ds r. induction s as [|c s IH]; intros ds r; simpl.
  - intros [= <- <-]. simpl. destruct t as [|c t]; [reflexivity|].
    simpl. now rewrite (delimited_not_digit _ c t Ht eq_refl).
  - destruct (is_digit c).
    + destruct (span_digits s) as [ds' r'] eqn:E. intros [= <- <-].
      now rewrite (IH _ _ eq_refl).
    + now intros [= <- <-].
Qed.

Lemma parse_int_app s t ds r :
  delimited t -> parse_int s = Some (ds, r) ->
  parse_int (s ++ t) = Some (ds, r ++ t).
Proof.
  intros Ht. destruct s as [|c s]; [discriminate|]. cbn [parse_int app].
  destruct (c =? 48); [now intros [= <- <-]|].
  destruct (is_digit c); [|discriminate].
  destruct (span_digits s) as [ds' r'] eqn:E. intros [= <- <-].
  now rewrite (span_digits_app _ _ _ _ Ht E).
Qed.

Lemma parse_frac_app s t ds r :
  delimited t -> parse_frac s = Some (ds, r) ->
  parse_frac (s ++ t) = Some (ds, r ++ t).
Proof.
  intros Ht. destruct s as [|c s].
  - simpl. intros [= <- <-]. destruct t as [|c t]; [reflexivity|].
    simpl in Ht |- *.
    assert ((c =? 46) = false) as -> by (ws_cases Ht). reflexivity.
  - cbn [parse_frac app]. destruct (c =? 46); [|now intros [= <- <-]].
    destruct (span_digits s) as [ds' r'] eqn:E.
    rewrite (span_digits_app _ _ _ _ Ht E).
    destruct ds'; [discriminate|]. now intros [= <- <-].
Qed.

Lemma exp_digits_app minus s t e r :
  delimited t -> exp_digits minus s = Some (e, r) ->
  exp_digits minus (s ++ t) = Some (e, r ++ t).
Proof.
  intros Ht. unfold exp_digits.
  destruct (span_digits s) as [ds' r'] eqn:E.
  rewrite (span_digits_app _ _ _ _ Ht E).
  destruct ds'; [discriminate|]. now intros [= <- <-].
Qed.

Lemma parse_exp_app s t e r :
  delimited t -> parse_exp s = Some (e, r) ->
  parse_exp (s ++ t) = Some (e, r ++ t).
Proof.
  intros Ht. destruct s as [|c s].
  - simpl. intros [= <- <-]. destruct t as [|c t]; [reflexivity|].
    simpl in Ht |- *.
    assert (((c =? 101) || (c =? 69)) = false) as -> by (ws_cases Ht).
    reflexivity.
  - cbn [parse_exp app]. destruct ((c =? 101) || (c =? 69)); [|now intros [= <- <-]].
    destruct s as [|sg s']; [discriminate|]. cbn [app].
    destruct (sg =? 45); [now apply exp_digits_app|].
    destruct (sg =? 43); [now apply exp_digits_app|].
    apply (exp_digits_app false (sg :: s')); assumption.
Qed.

Lemma parse_unsigned_app sign s t n r :
  delimited t -> parse_unsigned sign s = Some (n, r) ->
  parse_unsigned sign (s ++ t) = Some (n, r ++ t).
Proof.
  intros Ht. unfold parse_unsigned.
  destruct (parse_int s) as [[ints s2]|] eqn:E1; [|discriminate].
  rewrite (parse_int_app _ _ _ _ Ht E1).
  destruct (parse_frac s2) as [[fracs s3]|] eqn:E2; [|discriminate].
  rewrite (parse_frac_app _ _ _ _ Ht E2).
  destruct (parse_exp s3) as [[e s4]|] eqn:E3; [|discriminate].
  rewrite (parse_exp_app _ _ _ _ Ht E3).
  now intros [= <- <-].
Qed.

Lemma parse_number_app s t n r :
  delimited t -> parse_number s = Some (n, r) ->
  parse_number (s ++ t) = Some (n, r ++ t).
Proof.
  intros Ht. destruct s as [|c s]; [discriminate|]. cbn [parse_number app].
  destruct (c =? 45).
  - now apply parse_unsigned_app.
  - apply (parse_unsigned_app false (c :: s)); assumption.
Qed.

Lemma parse_keyword_app kw v s t w r :
  parse_keyword kw v s = Some (w, r) ->
  parse_keyword kw v (s ++ t) = Some (w, r ++ t).
Proof.
  unfold parse_keyword.
  destruct (strip_prefix (lit kw) s) as [r'|] eqn:E; [|discriminate].
  rewrite (strip_prefix_app _ _ t _ E). now intros [= <- <-].
Qed.

Lemma parse_value_nil f : parse_value f [] = None.
Proof. destruct f; reflexivity. Qed.

Lemma parse_elements_nil f : parse_elements f [] = None.
Proof. destruct f; [reflexivity|]. cbn [parse_elements]. now rewrite parse_value_nil. Qed.

Lemma parse_members_nil f : parse_members f [] = None.
Proof. destruct f; reflexivity. Qed.

Lemma parse_app_all f : appends_value f /\ appends_elements f /\ appends_members f.
Proof.
  induction f as [|f (IHv & IHe & IHm)].
  { repeat split; intros s t x r _; discriminate. }
  repeat split.
  - (* value *)
    intros s t v r Ht. destruct s as [|c s]; [discriminate|].
    cbn [parse_value app].
    destruct (c =? 123).
    { destruct (skip_ws s) as [|c1 r1] eqn:E; [discriminate|].
      rewrite (skip_ws_app _ t _ _ E).
      destruct (c1 =? 125); [now intros [= <- <-]|].
      destruct (parse_members f (c1 :: r1)) as [[ms rest]|] eqn:E1; [|discriminate].
      change (c1 :: r1 ++ t) with ((c1 :: r1) ++ t).
      rewrite (IHm _ _ _ _ Ht E1). now intros [= <- <-]. }
    destruct (c =? 91).
    { destruct (skip_ws s) as [|c1 r1] eqn:E; [discriminate|].
      rewrite (skip_ws_app _ t _ _ E).
      destruct (c1 =? 93); [now intros [= <- <-]|].
      destruct (parse_elements f (c1 :: r1)) as [[vs rest]|] eqn:E1; [|discriminate].
      change (c1 :: r1 ++ t) with ((c1 :: r1) ++ t).
      rewrite (IHe _ _ _ _ Ht E1). now intros [= <- <-]. }
    destruct (c =? 34).
    { destruct (parse_chars s) as [[cs rest]|] eqn:E; [|discriminate].
      rewrite (parse_chars_app _ t _ _ E). now intros [= <- <-]. }
    change (c :: s ++ t) with ((c :: s) ++ t).
    destruct (c =? 116); [apply parse_keyword_app|].
    destruct (c =? 102); [apply parse_keyword_app|].
    destruct (c =? 110); [apply parse_keyword_app|].
    destruct (parse_number (c :: s)) as [[n rest]|] eqn:E; [|discriminate].
    rewrite (parse_number_app _ _ _ _ Ht E). now intros [= <- <-].
  - (* elements *)
    intros s t vs r Ht. cbn [parse_elements].
    destruct (parse_value f s) as [[v r0]|] eqn:E; [|discriminate].
    rewrite (IHv _ _ _ _ Ht E).
    destruct (skip_ws r0) as [|c r1] eqn:E1; [discriminate|].
    rewrite (skip_ws_app _ t _ _ E1).
    destruct (c =? 93); [now intros [= <- <-]|].
    destruct (c =? 44); [|discriminate].
    destruct (parse_elements f (skip_ws r1)) as [[vs' rest]|] eqn:E2; [|discriminate].
    intros [= <- <-].
    destruct (skip_ws r1) as [|c2 r2] eqn:E3.
    { now rewrite parse_elements_nil in E2. }
    rewrite (skip_ws_app _ t _ _ E3).
    change (c2 :: r2 ++ t) with ((c2 :: r2) ++ t).
    now rewrite (IHe _ _ _ _ Ht E2).
  - (* members *)
    intros s t ms r Ht. destruct s as [|c s]; [discriminate|].
    cbn [parse_members app].
    destruct (c =? 34); [|discriminate].
    destruct (parse_chars s) as [[k r1]|] eqn:E; [|discriminate].
    rewrite (parse_chars_app _ t _ _ E).
    destruct (skip_ws r1) as [|c2 r2] eqn:E1; [discriminate|].
    rewrite (skip_ws_app _ t _ _ E1).
    destruct (c2 =? 58); [|discriminate].
    destruct (parse_value f (skip_ws r2)) as [[v r3]|] eqn:E2; [|discriminate].
    destruct (skip_ws r2) as [|c3 r3'] eqn:E3.
    { now rewrite parse_value_nil in E2. }
    rewrite (skip_ws_app _ t _ _ E3).
    change (c3 :: r3' ++ t) with ((c3 :: r3') ++ t).
    rewrite (IHv _ _ _ _ Ht E2).
    destruct (skip_ws r3) as [|c4 r4] eqn:E4; [discriminate|].
    rewrite (skip_ws_app _ t _ _ E4).
    destruct (c4 =? 125); [now intros [= <- <-]|].
    destruct (c4 =? 44); [|discriminate].
    destruct (parse_members f (skip_ws r4)) as [[ms' rest]|] eqn:E5; [|discriminate].
    intros [= <- <-].
    destruct (skip_ws r4) as [|c5 r5] eqn:E6.
    { now rewrite parse_members_nil in E5. }
    rewrite (skip_ws_app _ t _ _ E6).
    change (c5 :: r5 ++ t) with ((c5 :: r5) ++ t).
    now rewrite (IHm _ _ _ _ Ht E5).
Qed.

Lemma parse_value_app f s t v r :
  delimited t -> parse_value f s = Some (v, r) ->
  parse_value f (s ++ t) = Some (v, r ++ t).
Proof. apply parse_app_all. Qed.

(** *** More fuel changes nothing *)

Lemma parse_elements_S f s :
  parse_elements (S f) s =
  match parse_value f s with
  | None => None
  | Some (v, r) =>
      match skip_ws r with
      | c :: r1 =>
          if c =? 93 then Some ([v], r1)
          else if c =? 44 then
            match parse_elements f (skip_ws r1) with
            | Some (vs, rest) => Some (v :: vs, rest)
            | None => None
            end
          else None
      | [] => None
      end
  end.
Proof. reflexivity. Qed.

Lemma parse_members_S f c s :
  parse_members (S f) (c :: s) =
  if c =? 34 then
    match parse_chars s with
    | None => None
    | Some (k, r1) =>
        match skip_ws r1 with
        | c2 :: r2 =>
            if c2 =? 58 then
              match parse_value f (skip_ws r2) with
              | None => None
              | Some (v, r3) =>
                  match skip_ws r3 with
                  | c4 :: r4 =>
                      if c4 =? 125 then Some ([(k, v)], r4)
                      else if c4 =? 44 then
                        match parse_members f (skip_ws r4) with
                        | Some (ms, rest) => Some ((k, v) :: ms, rest)
                        | None => None
                        end
                      else None
                  | [] => None
                  end
              end
            else None
        | [] => None
        end
    end
  else None.
Proof. reflexivity. Qed.

Lemma parse_fuel_all f :
  more_fuel parse_value f /\ more_fuel parse_elements f /\ more_fuel parse_members f.
Proof.
  induction f as [|f (IHv & IHe & IHm)].
  { repeat split; intros s x; discriminate. }
  repeat split.
  - intros s x. destruct s as [|c s]; [discriminate|].
    cbn [parse_value].
    destruct (c =? 123).
    { destruct (skip_ws s) as [|c1 r1]; [discriminate|].
      destruct (c1 =? 125); [trivial|].
      destruct (parse_members f (c1 :: r1)) as [[ms rest]|] eqn:E; [|discriminate].
      now rewrite (IHm _ _ E). }
    destruct (c =? 91).
    { destruct (skip_ws s) as [|c1 r1]; [discriminate|].
      destruct (c1 =? 93); [trivial|].
      destruct (parse_elements f (c1 :: r1)) as [[vs rest]|] eqn:E; [|discriminate].
      now rewrite (IHe _ _ E). }
    trivial.
  - intros s x. rewrite (parse_elements_S f s), (parse_elements_S (S f) s).
    destruct (parse_value f s) as [[v r0]|] eqn:E; [|discriminate].
    rewrite (IHv _ _ E).
    destruct (skip_ws r0) as [|c r1]; [discriminate|].
    destruct (c =? 93); [trivial|].
    destruct (c =? 44); [|discriminate].
    destruct (parse_elements f (skip_ws r1)) as [[vs rest]|] eqn:E1; [|discriminate].
    now rewrite (IHe _ _ E1).
  - intros s x. destruct s as [|c s]; [discriminate|].
    rewrite (parse_members_S f c s), (parse_members_S (S f) c s).
    destruct (c =? 34); [|discriminate].
    destruct (parse_chars s) as [[k r1]|]; [|discriminate].
    destruct (skip_ws r1) as [|c2 r2]; [discriminate|].
    destruct (c2 =? 58); [|discriminate].
    destruct (parse_value f (skip_ws r2)) as [[v r3]|] eqn:E; [|discriminate].
    rewrite (IHv _ _ E).
    destruct (skip_ws r3) as [|c4 r4]; [discriminate|].
    destruct (c4 =? 125); [trivial|].
    destruct (c4 =? 44); [|discriminate].
    destruct (parse_members f (skip_ws r4)) as [[ms rest]|] eqn:E1; [|discriminate].
    now rewrite (IHm _ _ E1).
Qed.

Lemma parse_value_fuel (f g : nat) s x :
  (f <= g)%nat -> parse_value f s = Some x -> parse_value g s = Some x.
Proof.
  induction 1 as [|g _ IH]; [trivial|].
  intros H. apply parse_fuel_all. auto.
Qed.

(** *** Where a value starts and where it ends *)

Lemma digit_not_space c : is_digit c = true -> is_js_space c = false /\ c <> 96.
Proof.
  unfold is_digit. intros H. apply andb_true_iff in H as [H1 H2].
  apply N.leb_le in H1, H2. split; [|lia].
  unfold is_js_space. apply not_true_is_false. intros H.
  repeat (apply orb_true_iff in H; destruct H as [H|H]);
    first [ apply N.eqb_eq in H; lia
          | apply andb_true_iff in H as [H3 H4]; apply N.leb_le in H3, H4; lia ].
Qed.

Lemma parse_int_head s ds r :
  parse_int s = Some (ds, r) -> exists c s', s = c :: s' /\ is_digit c = true.
Proof.
  destruct s as [|c s]; [discriminate|]. cbn [parse_int].
  destruct (N.eqb_spec c 48) as [->|_].
  - intros _. now exists 48, s.
  - destruct (is_digit c) eqn:E; [|discriminate]. intros _. now exists c, s.
Qed.

Lemma parse_value_head f s v r :
  parse_value f s = Some (v, r) ->
  exists c s', s = c :: s' /\ is_js_space c = false /\ c <> 96.
Proof.
  destruct f; [discriminate|]. destruct s as [|c s]; [discriminate|].
  cbn [parse_value]. intros H. exists c, s. split; [reflexivity|].
  destruct (N.eqb_spec c 123) as [->|_]; [now split|].
  destruct (N.eqb_spec c 91) as [->|_]; [now split|].
  destruct (N.eqb_spec c 34) as [->|_]; [now split|].
  destruct (N.eqb_spec c 116) as [->|_]; [now split|].
  destruct (N.eqb_spec c 102) as [->|_]; [now split|].
  destruct (N.eqb_spec c 110) as [->|_]; [now split|].
  destruct (parse_number (c :: s)) as [[n rest]|] eqn:E; [|discriminate].
  cbn [parse_number] in E.
  destruct (N.eqb_spec c 45) as [->|_]; [now split|].
  unfold parse_unsigned in E.
  destruct (parse_int (c :: s)) as [[ints s2]|] eqn:E1; [|discriminate].
  apply parse_int_head in E1 as (c' & s' & [= <- <-] & Hd).
  now apply digit_not_space.
Qed.

Lemma ends_well_trans r s s' : ends_well r s -> suffix_of s s' -> ends_well r s'.
Proof.
  intros (c & Hc & H) H'. exists c. split; [exact Hc|].
  eapply suffix_of_trans; eauto.
Qed.

Lemma parse_chars_end s cs r : parse_chars s = Some (cs, r) -> suffix_of (34 :: r) s.
Proof.
  remember (length s) as n eqn:Hn.
  revert s Hn cs r. induction n as [n IH] using lt_wf_ind. intros s Hn cs r.
  destruct s as [|c s]; [discriminate|]. cbn [parse_chars].
  destruct (N.eqb_spec c 34) as [->|_]; [intros [= <- <-]; apply suffix_of_refl|].
  assert (step : forall s', suffix_of s' s -> (length s' < n)%nat ->
            forall cs' r', parse_chars s' = Some (cs', r') -> suffix_of (34 :: r') (c :: s)).
  { intros s' Hs Hl cs' r' E.
    eapply suffix_of_trans; [exact (IH _ Hl s' eq_refl _ _ E)|].
    eapply suffix_of_trans; [exact Hs | apply suffix_of_tail]. }
  destruct (c =? 92).
  - destruct s as [|e s]; [discriminate|].
    destruct (e =? 117).
    + destruct s as [|a [|b [|c' [|d s]]]]; try discriminate.
      destruct (hex4 a b c' d); [|discriminate].
      destruct (parse_chars s) as [[cs' r']|] eqn:E; [|discriminate].
      intros [= <- <-]. apply (step s) with (cs' := cs'); [|subst n; simpl; lia|exact E].
      exists [e; a; b; c'; d]. reflexivity.
    + destruct (simple_escape e); [|discriminate].
      destruct (parse_chars s) as [[cs' r']|] eqn:E; [|discriminate].
      intros [= <- <-]. apply (step s) with (cs' := cs'); [|subst n; simpl; lia|exact E].
      exists [e]. reflexivity.
  - destruct (c <? 32); [discriminate|].
    destruct (parse_chars s) as [[cs' r']|] eqn:E; [|discriminate].
    intros [= <- <-]. apply (step s) with (cs' := cs'); [|subst n; simpl; lia|exact E].
    apply suffix_of_refl.
Qed.

(** A run of digits, when it is not empty, ends in a digit. *)
Lemma span_digits_end s ds r :
  span_digits s = (ds, r) ->
  (ds = [] /\ r = s) \/ (exists d, is_digit d = true /\ suffix_of (d :: r) s).
Proof.
  revert ds r. induction s as [|c s IH]; intros ds r; simpl.
  - intros [= <- <-]. now left.
  - destruct (is_digit c) eqn:Ec; [|intros [= <- <-]; now left].
    destruct (span_digits s) as [ds' r'] eqn:E. intros [= <- <-]. right.
    destruct (IH _ _ eq_refl) as [[-> ->]|(d & Hd & Hs)].
    + exists c. split; [exact Ec | apply suffix_of_refl].
    + exists d. split; [exact Hd|].
      eapply suffix_of_trans; [exact Hs | apply suffix_of_tail].
Qed.

Lemma after_digit_trans r s s' : after_digit r s -> suffix_of s s' -> after_digit r s'.
Proof.
  intros (d & Hd & H) H'. exists d. split; [exact Hd|].
  eapply suffix_of_trans; eauto.
Qed.

Lemma span_digits_nonempty s d ds r :
  span_digits s = (d :: ds, r) -> after_digit r s.
Proof.
  intros H. destruct (span_digits_end _ _ _ H) as [[? _]|H']; [discriminate|exact H'].
Qed.

Lemma parse_int_end s ds r : parse_int s = Some (ds, r) -> after_digit r s.
Proof.
  destruct s as [|c s]; [discriminate|]. cbn [parse_int].
  destruct (N.eqb_spec c 48) as [->|_].
  - intros [= <- <-]. exists 48. split; [reflexivity | apply suffix_of_refl].
  - destruct (is_digit c) eqn:Ec; [|discriminate].
    destruct (span_digits s) as [ds' r'] eqn:E. intros [= <- <-].
    destruct (span_digits_end _ _ _ E) as [[-> ->]|H].
    + exists c. split; [exact Ec | apply suffix_of_refl].
    + eapply after_digit_trans; [exact H | apply suffix_of_tail].
Qed.

Lemma parse_frac_end s ds r :
  parse_frac s = Some (ds, r) -> r = s \/ after_digit r s.
Proof.
  destruct s as [|c s]; [intros [= <- <-]; now left|]. cbn [parse_frac].
  destruct (c =? 46); [|intros [= <- <-]; now left].
  destruct (span_digits s) as [[|d ds'] r'] eqn:E; [discriminate|].
  intros [= <- <-]. right.
  eapply after_digit_trans; [exact (span_digits_nonempty _ _ _ _ E) | apply suffix_of_tail].
Qed.

Lemma exp_digits_end minus s e r :
  exp_digits minus s = Some (e, r) -> after_digit r s.
Proof.
  unfold exp_digits.
  destruct (span_digits s) as [[|d ds'] r'] eqn:E; [discriminate|].
  intros [= <- <-]. exact (span_digits_nonempty _ _ _ _ E).
Qed.

Lemma parse_exp_end s e r :
  parse_exp s = Some (e, r) -> r = s \/ after_digit r s.
Proof.
  destruct s as [|c s]; [intros [= <- <-]; now left|]. cbn [parse_exp].
  destruct ((c =? 101) || (c =? 69)); [|intros [= <- <-]; now left].
  destruct s as [|sg s']; [discriminate|]. intros H. right.
  destruct (sg =? 45); [|destruct (sg =? 43)]; apply exp_digits_end in H.
  - eapply after_digit_trans; [exact H|]. exists [c; sg]. reflexivity.
  - eapply after_digit_trans; [exact H|]. exists [c; sg]. reflexivity.
  - eapply after_digit_trans; [exact H|]. apply suffix_of_tail.
Qed.

Lemma parse_unsigned_end sign s n r :
  parse_unsigned sign s = Some (n, r) -> after_digit r s.
Proof.
  unfold parse_unsigned.
  destruct (parse_int s) as [[ints s2]|] eqn:E1; [|discriminate].
  destruct (parse_frac s2) as [[fracs s3]|] eqn:E2; [|discriminate].
  destruct (parse_exp s3) as [[e s4]|] eqn:E3; [|discriminate].
  intros [= <- <-].
  apply parse_int_end in E1. apply parse_frac_end in E2. apply parse_exp_end in E3.
  destruct E1 as (d1 & Hd1 & Hs1).
  assert (H2 : after_digit s3 s).
  { destruct E2 as [->|H]; [now exists d1|].
    eapply after_digit_trans; [exact H|]. eapply suffix_of_cons; exact Hs1. }
  destruct E3 as [->|H]; [exact H2|].
  eapply after_digit_trans; [exact H|].
  destruct H2 as (d & _ & Hs). eapply suffix_of_cons; exact Hs.
Qed.

Lemma after_digit_ends_well r s : after_digit r s -> ends_well r s.
Proof.
  intros (d & Hd & Hs). exists d. split; [|exact Hs].
  now apply digit_not_space.
Qed.

Lemma parse_keyword_end kw v s w r c pre :
  lit kw = pre ++ [c] -> c <> 96 ->
  parse_keyword kw v s = Some (w, r) -> ends_well r s.
Proof.
  intros Hk Hc. unfold parse_keyword.
  destruct (strip_prefix (lit kw) s) as [r'|] eqn:E; [|discriminate].
  intros [= <- <-]. apply strip_prefix_split in E.
  exists c. split; [exact Hc|]. exists pre.
  rewrite E, Hk, <- app_assoc. reflexivity.
Qed.

Lemma parse_end_all f : value_ends f /\ elements_end f /\ members_end f.
Proof.
  induction f as [|f (IHv & IHe & IHm)].
  { repeat split; intros s x r; discriminate. }
  repeat split.
  - intros s v r. destruct s as [|c s]; [discriminate|].
    cbn [parse_value].
    destruct (c =? 123).
    { pose proof (skip_ws_suffix s) as Hs.
      destruct (skip_ws s) as [|c1 r1]; [discriminate|].
      destruct (N.eqb_spec c1 125) as [->|_].
      - intros [= <- <-]. exists 125. split; [lia|].
        eapply suffix_of_trans; [exact Hs | apply suffix_of_tail].
      - destruct (parse_members f (c1 :: r1)) as [[ms rest]|] eqn:E; [|discriminate].
        intros [= <- <-]. exists 125. split; [lia|].
        eapply suffix_of_trans; [exact (IHm _ _ _ E)|].
        eapply suffix_of_trans; [exact Hs | apply suffix_of_tail]. }
    destruct (c =? 91).
    { pose proof (skip_ws_suffix s) as Hs.
      destruct (skip_ws s) as [|c1 r1]; [discriminate|].
      destruct (N.eqb_spec c1 93) as [->|_].
      - intros [= <- <-]. exists 93. split; [lia|].
        eapply suffix_of_trans; [exact Hs | apply suffix_of_tail].
      - destruct (parse_elements f (c1 :: r1)) as [[vs rest]|] eqn:E; [|discriminate].
        intros [= <- <-]. exists 93. split; [lia|].
        eapply suffix_of_trans; [exact (IHe _ _ _ E)|].
        eapply suffix_of_trans; [exact Hs | apply suffix_of_tail]. }
    destruct (c =? 34).
    { destruct (parse_chars s) as [[cs rest]|] eqn:E; [|discriminate].
      intros [= <- <-]. exists 34. split; [lia|].
      eapply suffix_of_trans; [exact (parse_chars_end _ _ _ E) | apply suffix_of_tail]. }
    destruct (c =? 116).
    { apply (parse_keyword_end _ _ _ _ _ 101 (lit "tru")); [reflexivity|lia]. }
    destruct (c =? 102).
    { apply (parse_keyword_end _ _ _ _ _ 101 (lit "fals")); [reflexivity|lia]. }
    destruct (c =? 110).
    { apply (parse_keyword_end _ _ _ _ _ 108 (lit "nul")); [reflexivity|lia]. }
    destruct (parse_number (c :: s)) as [[n rest]|] eqn:E; [|discriminate].
    intros [= <- <-]. apply after_digit_ends_well.
    cbn [parse_number] in E. destruct (c =? 45).
    + eapply after_digit_trans; [exact (parse_unsigned_end _ _ _ _ E) | apply suffix_of_tail].
    + exact (parse_unsigned_end _ _ _ _ E).
  - intros s vs r. rewrite parse_elements_S.
    destruct (parse_value f s) as [[v r0]|] eqn:E; [|discriminate].
    destruct (IHv _ _ _ E) as (c0 & _ & H0). apply suffix_of_cons in H0.
    pose proof (skip_ws_suffix r0) as Hs.
    destruct (skip_ws r0) as [|c r1]; [discriminate|].
    destruct (N.eqb_spec c 93) as [->|_].
    { intros [= <- <-]. eapply suffix_of_trans; eauto. }
    destruct (c =? 44); [|discriminate].
    destruct (parse_elements f (skip_ws r1)) as [[vs' rest]|] eqn:E1; [|discriminate].
    intros [= <- <-].
    eapply suffix_of_trans; [exact (IHe _ _ _ E1)|].
    eapply suffix_of_trans; [apply skip_ws_suffix|].
    eapply suffix_of_trans; [apply suffix_of_tail|].
    eapply suffix_of_trans; eauto.
  - intros s ms r. destruct s as [|c s]; [discriminate|].
    rewrite parse_members_S.
    destruct (c =? 34); [|discriminate].
    destruct (parse_chars s) as [[k r1]|] eqn:E; [|discriminate].
    apply parse_chars_end in E. apply suffix_of_cons in E.
    pose proof (skip_ws_suffix r1) as Hs1.
    destruct (skip_ws r1) as [|c2 r2]; [discriminate|].
    apply suffix_of_cons in Hs1.
    destruct (c2 =? 58); [|discriminate].
    destruct (parse_value f (skip_ws r2)) as [[v r3]|] eqn:E2; [|discriminate].
    destruct (IHv _ _ _ E2) as (c0 & _ & H0). apply suffix_of_cons in H0.
    assert (H3 : suffix_of r3 (c :: s)).
    { eapply suffix_of_trans; [exact H0|].
      eapply suffix_of_trans; [apply skip_ws_suffix|].
      eapply suffix_of_trans; [exact Hs1|].
      eapply suffix_of_trans; [exact E | apply suffix_of_tail]. }
    pose proof (skip_ws_suffix r3) as Hs3.
    destruct (skip_ws r3) as [|c4 r4]; [discriminate|].
    destruct (N.eqb_spec c4 125) as [->|_].
    { intros [= <- <-]. eapply suffix_of_trans; eauto. }
    destruct (c4 =? 44); [|discriminate].
    destruct (parse_members f (skip_ws r4)) as [[ms' rest]|] eqn:E5; [|discriminate].
    intros [= <- <-].
    eapply suffix_of_trans; [exact (IHm _ _ _ E5)|].
    eapply suffix_of_trans; [apply skip_ws_suffix|].
    eapply suffix_of_trans; [apply suffix_of_tail|].
    eapply suffix_of_trans; eauto.
Qed.

Lemma parse_value_end f s v r : parse_value f s = Some (v, r) -> ends_well r s.
Proof. apply parse_end_all. Qed.

(** *** Twice the length is fuel enough *)

Lemma suffix_of_length r s : suffix_of r s -> (length r <= length s)%nat.
Proof. intros [pre ->]. rewrite length_app. lia. Qed.

Lemma skip_ws_length s : (length (skip_ws s) <= length s)%nat.
Proof. apply suffix_of_length, skip_ws_suffix. Qed.

Lemma skip_ws_cons_length s c r :
  skip_ws s = c :: r -> (S (length r) <= length s)%nat.
Proof.
  intros H. pose proof (skip_ws_length s) as L. now rewrite H in L.
Qed.

Lemma parse_value_shorter f s v r :
  parse_value f s = Some (v, r) -> (S (length r) <= length s)%nat.
Proof.
  intros H. destruct (parse_value_end _ _ _ _ H) as (c & _ & Hs).
  exact (suffix_of_length _ _ Hs).
Qed.

Lemma parse_chars_shorter s cs r :
  parse_chars s = Some (cs, r) -> (S (length r) <= length s)%nat.
Proof. intros H. exact (suffix_of_length _ _ (parse_chars_end _ _ _ H)). Qed.

Lemma parse_fuel_enough f :
  (forall s x g, parse_value f s = Some x ->
     (2 * length s + 1 <= g)%nat -> parse_value g s = Some x) /\
  (forall s x g, parse_elements f s = Some x ->
     (2 * length s + 2 <= g)%nat -> parse_elements g s = Some x) /\
  (forall s x g, parse_members f s = Some x ->
     (2 * length s + 2 <= g)%nat -> parse_members g s = Some x).
Proof.
  induction f as [|f (IHv & IHe & IHm)].
  { repeat split; intros s x g; discriminate. }
  repeat split.
  - intros s x g H Hg. destruct s as [|c s]; [discriminate|].
    destruct g as [|g]; [simpl in Hg; lia|].
    cbn [length] in Hg. revert H. cbn [parse_value].
    destruct (c =? 123).
    { destruct (skip_ws s) as [|c1 r1] eqn:Es; [discriminate|].
      destruct (c1 =? 125); [trivial|].
      destruct (parse_members f (c1 :: r1)) as [[ms rest]|] eqn:E; [|discriminate].
      pose proof (skip_ws_length s) as L. rewrite Es in L.
      rewrite (IHm _ _ g E); [trivial|lia]. }
    destruct (c =? 91).
    { destruct (skip_ws s) as [|c1 r1] eqn:Es; [discriminate|].
      destruct (c1 =? 93); [trivial|].
      destruct (parse_elements f (c1 :: r1)) as [[vs rest]|] eqn:E; [|discriminate].
      pose proof (skip_ws_length s) as L. rewrite Es in L.
      rewrite (IHe _ _ g E); [trivial|lia]. }
    trivial.
  - intros s x g H Hg. destruct g as [|g]; [lia|].
    revert H. rewrite (parse_elements_S f s), (parse_elements_S g s).
    destruct (parse_value f s) as [[v r0]|] eqn:E; [|discriminate].
    rewrite (IHv _ _ g E) by lia.
    destruct (skip_ws r0) as [|c r1] eqn:Es; [discriminate|].
    destruct (c =? 93); [trivial|].
    destruct (c =? 44); [|discriminate].
    destruct (parse_elements f (skip_ws r1)) as [[vs rest]|] eqn:E1; [|discriminate].
    pose proof (parse_value_shorter _ _ _ _ E).
    pose proof (skip_ws_cons_length _ _ _ Es).
    pose proof (skip_ws_length r1).
    rewrite (IHe _ _ g E1); [trivial|lia].
  - intros s x g H Hg. destruct s as [|c s]; [discriminate|].
    destruct g as [|g]; [lia|]. cbn [length] in Hg.
    revert H. rewrite (parse_members_S f c s), (parse_members_S g c s).
    destruct (c =? 34); [|discriminate].
    destruct (parse_chars s) as [[k r1]|] eqn:Ec; [|discriminate].
    destruct (skip_ws r1) as [|c2 r2] eqn:Es1; [discriminate|].
    destruct (c2 =? 58); [|discriminate].
    destruct (parse_value f (skip_ws r2)) as [[v r3]|] eqn:E; [|discriminate].
    pose proof (parse_chars_shorter _ _ _ Ec).
    pose proof (skip_ws_cons_length _ _ _ Es1).
    pose proof (skip_ws_length r2).
    rewrite (IHv _ _ g E) by lia.
    destruct (skip_ws r3) as [|c4 r4] eqn:Es3; [discriminate|].
    destruct (c4 =? 125); [trivial|].
    destruct (c4 =? 44); [|discriminate].
    destruct (parse_members f (skip_ws r4)) as [[ms rest]|] eqn:E1; [|discriminate].
    pose proof (parse_value_shorter _ _ _ _ E).
    pose proof (skip_ws_cons_length _ _ _ Es3).
    pose proof (skip_ws_length r4).
    rewrite (IHm _ _ g E1); [trivial|lia].
Qed.

(** [JSON_parse] does not depend on its fuel: it accepts a text with the
    value that the parser gives with any fuel, and rejects a text that the
    parser rejects with every fuel. *)
Lemma parse_text_fuel s v :
  (exists f, parse_text f s = Some v) <-> JSON_parse s = Some v.
Proof.
  split; [|intros H; exists (2 * length (skip_ws s) + 1)%nat; exact H].
  intros [f H]. unfold JSON_parse. unfold parse_text in *.
  destruct (parse_value f (skip_ws s)) as [[w r]|] eqn:E; [|discriminate].
  rewrite (proj1 (parse_fuel_enough f) _ _ (2 * length (skip_ws s) + 1)%nat E);
    [exact H|lia].
Qed.

Lemma JSON_parse_rejects s :
  JSON_parse s = None <-> forall f, parse_text f s = None.
Proof.
  split.
  - intros H f. destruct (parse_text f s) as [v|] eqn:E; [|reflexivity].
    rewrite (proj1 (parse_text_fuel s v)) in H by now exists f. discriminate.
  - intros H. apply H.
Qed.

End ParserFacts.

(** ** Code fences *)

Section FenceFacts.
Import Js Api.

Lemma strip_prefix_self p x : strip_prefix p (p ++ x) = Some x.
Proof.
  induction p as [|a p IH]; simpl; [reflexivity|]. now rewrite N.eqb_refl.
Qed.

Lemma drop_spaces_gap g y :
  forallb is_js_space g = true -> drop_spaces (g ++ y) = drop_spaces y.
Proof.
  induction g as [|a g IH]; simpl; [reflexivity|].
  intros H. apply andb_true_iff in H as [-> H]. now apply IH.
Qed.

Lemma drop_spaces_app s t c r :
  drop_spaces s = c :: r -> drop_spaces (s ++ t) = c :: r ++ t.
Proof.
  induction s as [|a s IH]; simpl; [discriminate|].
  destruct (is_js_space a); [exact IH|].
  intros [= -> ->]. reflexivity.
Qed.

Lemma skip_ws_gap g : forallb is_json_ws g = true -> skip_ws g = [].
Proof.
  induction g as [|a g IH]; simpl; [reflexivity|].
  intros H. apply andb_true_iff in H as [-> H]. now apply IH.
Qed.

Lemma skip_ws_all s : skip_ws s = [] -> forallb is_json_ws s = true.
Proof.
  induction s as [|a s IH]; simpl; [reflexivity|].
  destruct (is_json_ws a); [exact IH|discriminate].
Qed.

Lemma gap_delimited g : forallb is_json_ws g = true -> delimited g.
Proof.
  destruct g as [|a g]; simpl; [trivial|].
  intros H. now apply andb_true_iff in H as [H _].
Qed.

Lemma jstring_eqb_eq a b : jstring_eqb a b = true <-> a = b.
Proof.
  unfold jstring_eqb. destruct (list_eq_dec N.eq_dec a b); split; congruence.
Qed.

Lemma jstring_eqb_refl a : jstring_eqb a a = true.
Proof. now apply jstring_eqb_eq. Qed.

Lemma jstring_eqb_neq a b : a <> b -> jstring_eqb a b = false.
Proof.
  intros H. apply not_true_is_false. intros E. now apply jstring_eqb_eq in E.
Qed.

(** The closing fence is removed where it ends the text... *)
Lemma strip_closing_fence_app a : strip_closing_fence (a ++ fence_close) = a.
Proof.
  induction a as [|c a IH]; [reflexivity|].
  cbn [app strip_closing_fence]. rewrite jstring_eqb_neq.
  - now rewrite IH.
  - intros E. apply (f_equal (@length N)) in E.
    simpl in E. rewrite length_app in E. simpl in E. lia.
Qed.

(** ... and nothing is removed where the text does not end in one. *)
Lemma strip_closing_fence_id s :
  (forall pre, s <> pre ++ fence_close) -> strip_closing_fence s = s.
Proof.
  induction s as [|c s IH]; [reflexivity|].
  intros H. cbn [strip_closing_fence]. rewrite jstring_eqb_neq.
  - f_equal. apply IH. intros pre E. apply (H (c :: pre)). now rewrite E.
  - intros E. now apply (H []).
Qed.

Lemma not_fenced_end pre c rest p :
  c <> 96 -> forallb is_json_ws rest = true ->
  pre ++ c :: rest <> p ++ fence_close.
Proof.
  intros Hc Hr E. apply (f_equal (@rev N)) in E.
  rewrite !rev_app_distr in E. simpl in E.
  destruct (rev rest) as [|z zs] eqn:Er.
  - simpl in E. injection E as E _. now subst c.
  - simpl in E. injection E as E _.
    assert (Hz : In z rest) by (apply in_rev; rewrite Er; now left).
    rewrite forallb_forall in Hr. specialize (Hr _ Hz). now subst z.
Qed.

(** What a successful [JSON.parse] says about its text. *)
Lemma JSON_parse_inv s v :
  JSON_parse s = Some v ->
  exists c body rest,
    skip_ws s = c :: body /\ is_js_space c = false /\ c <> 96 /\
    parse_value (2 * length (c :: body) + 1) (c :: body) = Some (v, rest) /\
    skip_ws rest = [].
Proof.
  unfold JSON_parse, parse_text.
  destruct (parse_value _ (skip_ws s)) as [[w rest]|] eqn:E; [|discriminate].
  destruct (skip_ws rest) eqn:Er; [|discriminate]. intros [= ->].
  destruct (parse_value_head _ _ _ _ E) as (c & body & Hs & Hc & Hb).
  exists c, body, rest. rewrite Hs in E. repeat split; assumption.
Qed.

(** A text that parses carries no fence that [strip_fences] would remove. *)
Lemma strip_fences_valid s v : JSON_parse s = Some v -> strip_fences s = s.
Proof.
  intros H. pose proof H as H0.
  apply JSON_parse_inv in H as (c & body & rest & Hs & Hc & Hb & Hp & Hr).
  unfold strip_fences.
  assert (strip_prefix fence_open s = None) as ->.
  { destruct s as [|a s]; [reflexivity|].
    unfold fence_open. change (lit "```json") with (96 :: lit "``json").
    cbn [strip_prefix].
    destruct (N.eqb_spec 96 a) as [<-|]; [|reflexivity].
    rewrite skip_ws_fixed in Hs by reflexivity.
    injection Hs as <- _. contradiction. }
  apply strip_closing_fence_id. intros p.
  destruct (parse_value_end _ _ _ _ Hp) as (x & Hx & [pre E]).
  destruct (skip_ws_suffix s) as [w Hw]. rewrite Hs, E in Hw. rewrite Hw.
  rewrite !app_assoc. apply not_fenced_end; [exact Hx | now apply skip_ws_all].
Qed.

(** Whitespace after a text that parses changes nothing. *)
Lemma JSON_parse_trailing c body gap v :
  forallb is_json_ws gap = true ->
  is_json_ws c = false ->
  JSON_parse (c :: body) = Some v ->
  JSON_parse ((c :: body) ++ gap) = Some v.
Proof.
  intros Hg Hc. unfold JSON_parse, parse_text.
  change ((c :: body) ++ gap) with (c :: body ++ gap).
  rewrite !(skip_ws_fixed c) by exact Hc.
  destruct (parse_value _ (c :: body)) as [[w rest]|] eqn:E; [|discriminate].
  destruct (skip_ws rest) eqn:Er; [|discriminate]. intros [= ->].
  change (c :: body ++ gap) with ((c :: body) ++ gap).
  erewrite parse_value_app; [| now apply gap_delimited |].
  2:{ eapply parse_value_fuel; [|exact E]. rewrite length_app. lia. }
  rewrite (skip_ws_app_nil _ _ Er), (skip_ws_gap _ Hg). reflexivity.
Qed.

Lemma JSON_parse_leading s v :
  JSON_parse s = Some v -> JSON_parse (skip_ws s) = Some v.
Proof.
  unfold JSON_parse, parse_text.
  assert (skip_ws (skip_ws s) = skip_ws s) as ->; [|trivial].
  induction s as [|a s IH]; simpl; [reflexivity|].
  destruct (is_json_ws a) eqn:E; [exact IH|]. simpl. now rewrite E.
Qed.

End FenceFacts.

Section NormalizerFacts.
Import Js Api.

(** The regular expression has no [m] flag and asks for the json tag: a
    fence that is followed by a line break, or that has no tag, stays, and
    the text does not parse. *)
Example fences_that_stay :
  safeJsonParse (fenced [10] [10] (lit "[1]") ++ [10]) = VNull /\
  safeJsonParse (fence_close ++ [10] ++ lit "[1]" ++ [10] ++ fence_close) = VNull.
Proof. split; reflexivity. Qed.

Example half_fences :
  strip_fences (fence_open ++ [10] ++ lit "[1]") = lit "[1]" /\
  strip_fences (lit "[1]" ++ fence_close) = lit "[1]".
Proof. split; reflexivity. Qed.

Lemma safeJsonParse_valid s v : JSON_parse s = Some v -> safeJsonParse s = v.
Proof.
  intros H. unfold safeJsonParse. now rewrite (strip_fences_valid _ _ H), H.
Qed.

Lemma safeJsonParse_fenced gap1 gap2 s v :
  JSON_parse s = Some v ->
  forallb is_js_space gap1 = true ->
  forallb is_json_ws gap2 = true ->
  safeJsonParse (fenced gap1 gap2 s) = v.
Proof.
  intros H H1 H2.
  destruct (JSON_parse_inv _ _ H) as (c & body & rest & Hs & Hc & _).
  unfold safeJsonParse, fenced, strip_fences.
  rewrite strip_prefix_self, (drop_spaces_gap _ _ H1).
  rewrite (drop_spaces_app _ _ _ _ (drop_spaces_skip_ws _ _ _ Hs Hc)).
  change (c :: body ++ gap2 ++ fence_close) with ((c :: body) ++ gap2 ++ fence_close).
  rewrite app_assoc, strip_closing_fence_app.
  rewrite (JSON_parse_trailing c body gap2 v H2 (skip_ws_head _ _ _ Hs)); [reflexivity|].
  rewrite <- Hs. now apply JSON_parse_leading.
Qed.

(** C7: for every text [s] that [JSON.parse] accepts, [safeJsonParse] of [s]
    between the fence markers (three backticks and json, then any white
    space; at the end any JSON whitespace, then three backticks) is the value
    of [s], which is also what [safeJsonParse] gives without the fence; so
    every structured stage returns the same for a fenced response as for the
    bare one. *)
Theorem fence_round_trip (s gap1 gap2 : jstring) (v : value) :
  JSON_parse s = Some v ->
  forallb is_js_space gap1 = true ->
  forallb is_json_ws gap2 = true ->
  safeJsonParse (fenced gap1 gap2 s) = safeJsonParse s /\
  safeJsonParse s = v /\
  (forall a b, analyzeKeywords (respond (fenced gap1 gap2 s)) a b
               = analyzeKeywords (respond s) a b) /\
  (forall a, findTopCompetitorArticles (respond (fenced gap1 gap2 s)) a
             = findTopCompetitorArticles (respond s) a) /\
  (forall a b, createCompositeArticle (respond (fenced gap1 gap2 s)) a b
               = createCompositeArticle (respond s) a b) /\
  (forall a, generateSocialMediaPosts (respond (fenced gap1 gap2 s)) a
             = generateSocialMediaPosts (respond s) a) /\
  (forall a b, analyzePerformanceData (respond (fenced gap1 gap2 s)) a b
               = analyzePerformanceData (respond s) a b).
Proof.
  intros H H1 H2.
  pose proof (safeJsonParse_fenced _ _ _ _ H H1 H2) as Hf.
  pose proof (safeJsonParse_valid _ _ H) as Hv.
  split; [congruence|]. split; [exact Hv|].
  unfold analyzeKeywords, findTopCompetitorArticles, createCompositeArticle,
    generateSocialMediaPosts, analyzePerformanceData, respond.
  cbn [bind text_or_empty]. rewrite Hf, Hv. repeat split.
Qed.

Lemma fence_round_trip_witness :
  JSON_parse (jlit "{'x': [1, 'a']}")
  = Some (VObj [([120], VArr [VNum {| neg := false; mant := 1; exp10 := 0 |};
                              VStr [97]])]) /\
  safeJsonParse (fenced [10] [10] (jlit "{'x': [1, 'a']}"))
  = safeJsonParse (jlit "{'x': [1, 'a']}").
Proof.
  split; [reflexivity|].
  apply (fence_round_trip (jlit "{'x': [1, 'a']}") [10] [10]
           (VObj [([120], VArr [VNum {| neg := false; mant := 1; exp10 := 0 |};
                                VStr [97]])]));
    reflexivity.
Defined.

Lemma truthy_get_has v k : truthy (get v k) = true -> has_field v k = true.
Proof.
  destruct v; try discriminate. simpl.
  now destruct (lookup k members).
Qed.

Lemma absent_not_truthy v k : has_field v k = false -> truthy (get v k) = false.
Proof.
  intros H. apply not_true_is_false. intros E.
  apply truthy_get_has in E. congruence.
Qed.

(** The two stages whose check names every required field of the schema. *)
Lemma analyzeKeywords_requires g a b response k :
  g (ReqAnalyzeKeywords a b) = Returns response ->
  In k [lit "keywordAnalysis"; lit "summary"] ->
  has_field (parsed response) k = false ->
  analyzeKeywords g a b = Returns VNull.
Proof.
  intros Hg Hk Ha. unfold analyzeKeywords. rewrite Hg. cbn [bind].
  fold (parsed response). apply absent_not_truthy in Ha.
  destruct Hk as [<-|[<-|[]]]; rewrite Ha;
    rewrite ?andb_false_r; reflexivity.
Qed.

Lemma generateSocialMediaPosts_requires g a response k :
  g (ReqGenerateSocialMediaPosts a) = Returns response ->
  In k [lit "x"; lit "facebook"; lit "linkedin"; lit "hashtags"] ->
  has_field (parsed response) k = false ->
  generateSocialMediaPosts g a = Returns VNull.
Proof.
  intros Hg Hk Ha. unfold generateSocialMediaPosts. rewrite Hg. cbn [bind].
  fold (parsed response). apply absent_not_truthy in Ha.
  destruct Hk as [<-|[<-|[<-|[<-|[]]]]]; rewrite Ha;
    rewrite ?andb_false_r; reflexivity.
Qed.

(** C1: the check of createCompositeArticle names outline alone and that of
    analyzePerformanceData names summary and actionPlan alone, so a response
    that lacks another required top-level field of the schema (introduction;
    keyMetrics, trafficSources, keywordPerformance) is returned as it is,
    not as null. *)
Theorem required_fields_unchecked :
  let draft := jlit "{'outline': {'title': 't', 'sections': []}}" in
  let report := jlit "{'summary': 's', 'actionPlan': []}" in
  (has_field (safeJsonParse draft) (lit "introduction") = false /\
   forall topic articles,
     createCompositeArticle (respond draft) topic articles
     = Returns (VObj [(lit "outline",
                       VObj [(lit "title", VStr (lit "t"));
                             (lit "sections", VArr [])])])) /\
  (has_field (safeJsonParse report) (lit "keyMetrics") = false /\
   has_field (safeJsonParse report) (lit "trafficSources") = false /\
   has_field (safeJsonParse report) (lit "keywordPerformance") = false /\
   forall articleUrl socialUrl,
     analyzePerformanceData (respond report) articleUrl socialUrl
     = Returns (VObj [(lit "summary", VStr (lit "s"));
                      (lit "actionPlan", VArr [])])).
Proof. vm_compute. repeat split. Qed.

(** C9, as stated, fails: a draft with no section at all is returned. *)
Lemma draft_invariant_counterexample :
  ~ (forall g topic articles d,
       createCompositeArticle g topic articles = Returns d -> d <> VNull ->
       sections_and_points_nonempty d = true).
Proof.
  intros H.
  specialize (H (respond (jlit "{'outline': {'title': 't', 'sections': []}, 'introduction': 'i'}"))
                VNull VNull _ eq_refl).
  vm_compute in H. assert (E : false = true) by (apply H; discriminate).
  discriminate.
Qed.

(** C9, amended: what createCompositeArticle returns, when it is not null, is
    an object that is no array and whose outline is truthy; nothing is
    checked below the outline. *)
Theorem draft_has_outline g topic articles d :
  createCompositeArticle g topic articles = Returns d -> d <> VNull ->
  (exists members, d = VObj members) /\
  truthy (get d (lit "outline")) = true /\
  has_field d (lit "outline") = true.
Proof.
  unfold createCompositeArticle.
  destruct (g (ReqCreateCompositeArticle topic articles)) as [response|e];
    [|discriminate].
  cbn [bind]. fold (parsed response).
  destruct (truthy (parsed response) && typeof_is_object (parsed response)
            && negb (isArray (parsed response))
            && truthy (get (parsed response) (lit "outline"))) eqn:E;
    intros [= <-] Hn; [|contradiction].
  apply andb_true_iff in E as [E E4]. apply andb_true_iff in E as [E E3].
  apply andb_true_iff in E as [E1 E2].
  repeat split; [|exact E4|now apply truthy_get_has].
  destruct (parsed response); try discriminate. now eexists.
Qed.

Lemma draft_has_outline_witness :
  truthy (get (VObj [(lit "outline", VObj [(lit "title", VStr (lit "t"))])])
            (lit "outline")) = true.
Proof.
  apply (draft_has_outline (respond (jlit "{'outline': {'title': 't'}}")) VNull VNull
           (VObj [(lit "outline", VObj [(lit "title", VStr (lit "t"))])])).
  - reflexivity.
  - discriminate.
Defined.

(** C10: an empty string where a validated field is expected, or as the whole
    free text of generateFullArticle, makes the stage return null. *)
Theorem empty_string_is_failure (g : gen_request -> completion (option jstring)) :
  (forall a b response,
     g (ReqAnalyzeKeywords a b) = Returns response ->
     get (parsed response) (lit "summary") = VStr [] ->
     analyzeKeywords g a b = Returns VNull) /\
  (forall a response k,
     g (ReqGenerateSocialMediaPosts a) = Returns response ->
     In k [lit "x"; lit "facebook"; lit "linkedin"] ->
     get (parsed response) k = VStr [] ->
     generateSocialMediaPosts g a = Returns VNull) /\
  (forall a b response,
     g (ReqAnalyzePerformanceData a b) = Returns response ->
     get (parsed response) (lit "summary") = VStr [] ->
     analyzePerformanceData g a b = Returns VNull) /\
  (forall draft,
     g (ReqGenerateFullArticle draft) = Returns (Some []) ->
     generateFullArticle g draft = Returns VNull).
Proof.
  split; [|split; [|split]].
  - intros a b response Hg He. unfold analyzeKeywords. rewrite Hg. cbn [bind].
    fold (parsed response). rewrite He. cbn [truthy].
    now rewrite andb_false_r.
  - intros a response k Hg Hk He. unfold generateSocialMediaPosts.
    rewrite Hg. cbn [bind]. fold (parsed response).
    destruct Hk as [<-|[<-|[<-|[]]]]; rewrite He; cbn [truthy];
      rewrite ?andb_false_r; reflexivity.
  - intros a b response Hg He. unfold analyzePerformanceData. rewrite Hg.
    cbn [bind]. fold (parsed response). rewrite He. cbn [truthy].
    now rewrite andb_false_r.
  - intros draft Hg. unfold generateFullArticle. now rewrite Hg.
Qed.

Lemma empty_string_is_failure_witness :
  analyzeKeywords (respond (jlit "{'keywordAnalysis': [], 'summary': ''}")) VNull VNull
  = Returns VNull /\
  generateSocialMediaPosts
    (respond (jlit "{'x': 'a', 'facebook': '', 'linkedin': 'c', 'hashtags': []}")) VNull
  = Returns VNull /\
  analyzePerformanceData (respond (jlit "{'summary': '', 'actionPlan': []}")) VNull VNull
  = Returns VNull /\
  generateFullArticle (respond []) VNull = Returns VNull.
Proof.
  split; [|split; [|split]].
  - apply (proj1 (empty_string_is_failure (respond (jlit "{'keywordAnalysis': [], 'summary': ''}")))
             VNull VNull (Some (jlit "{'keywordAnalysis': [], 'summary': ''}")));
      reflexivity.
  - apply (proj1 (proj2 (empty_string_is_failure
             (respond (jlit "{'x': 'a', 'facebook': '', 'linkedin': 'c', 'hashtags': []}"))))
             VNull
             (Some (jlit "{'x': 'a', 'facebook': '', 'linkedin': 'c', 'hashtags': []}"))
             (lit "facebook")).
    + reflexivity.
    + right. left. reflexivity.
    + reflexivity.
  - apply (proj1 (proj2 (proj2 (empty_string_is_failure
             (respond (jlit "{'summary': '', 'actionPlan': []}")))))
             VNull VNull (Some (jlit "{'summary': '', 'actionPlan': []}")));
      reflexivity.
  - apply (proj2 (proj2 (proj2 (empty_string_is_failure (respond [])))) VNull).
    reflexivity.
Defined.

End NormalizerFacts.

(** ** The handler *)

Section HandlerFacts.
Import Js Api.

Variable generateContent : gen_request -> completion (option jstring).
Variable cannot_read : value -> jstring -> jstring.

#[local] Abbreviation handle := (handler generateContent cannot_read).
#[local] Abbreviation route := (dispatch generateContent cannot_read).

(** An operation name is a string: a body without one has none. *)
Lemma op_is_object b name :
  op_is (get b (lit "operation")) name = true -> exists members, b = VObj members.
Proof. destruct b; try discriminate. now eexists. Qed.

(** C3: with APP_PASSWORD not set (or set to the empty string), a
    verifyPassword request gets success = false, whatever password it
    supplies, the empty string included, and whatever else it carries. *)
Theorem verifyPassword_fails_closed (environment : env) (req : request) :
  unset (APP_PASSWORD environment) = true ->
  method req = lit "POST" ->
  op_is (get (body req) (lit "operation")) "verifyPassword" = true ->
  handle environment req = Response 200 (DataBody (success false)).
Proof.
  intros Hu Hm Ho. unfold handler. rewrite Hm, jstring_eqb_refl.
  cbn [negb]. destruct (op_is_object _ _ Ho) as [members Hb].
  rewrite Hb in Ho |- *. rewrite Ho.
  unfold verifyPassword. destruct (APP_PASSWORD environment) as [[|c pw]|];
    [reflexivity|discriminate|reflexivity].
Qed.

Lemma unrecognized_routes operation params :
  recognized operation = false ->
  op_is operation "verifyPassword" = false /\ route operation params = None.
Proof.
  unfold recognized, operations. cbn [existsb]. intros H.
  repeat (apply orb_false_iff in H; destruct H as [? H]).
  split; [assumption|]. unfold dispatch.
  repeat match goal with E : op_is operation _ = false |- _ => rewrite E; clear E end.
  reflexivity.
Qed.

(** C4, amended.  A method other than POST gets 405.  A POST whose body is
    neither undefined nor null is answered by the first of these that
    applies: verifyPassword is answered on its own, with 200 and the verdict
    or with 500 when it throws; without the generation credential every other
    operation, recognized or not, gets 500; with it, an operation that is not
    recognized gets 400, an exception thrown by the stage gets 500 with its
    message appended, and a stage that returns gets 200 with its result as
    data. *)
Theorem handler_responses (environment : env) (req : request) :
  (method req <> lit "POST" ->
   handle environment req = Response 405 (ErrorBody (lit "Method Not Allowed"))) /\
  (forall operation params,
     method req = lit "POST" ->
     body req <> VUndefined -> body req <> VNull ->
     operation = get (body req) (lit "operation") ->
     params = get (body req) (lit "params") ->
     (op_is operation "verifyPassword" = true ->
      (exists verdict,
         handle environment req = Response 200 (DataBody (success verdict))) \/
      handle environment req
      = Response 500 (ErrorBody (lit "Internal server error during authentication."))) /\
     (op_is operation "verifyPassword" = false ->
      unset (API_KEY environment) = true ->
      handle environment req
      = Response 500
          (ErrorBody (lit "API_KEY environment variable not set on the server"))) /\
     (op_is operation "verifyPassword" = false ->
      unset (API_KEY environment) = false ->
      (recognized operation = false ->
       handle environment req
       = Response 400 (ErrorBody (lit "Invalid operation specified."))) /\
      (forall e, route operation params = Some (Throws e) ->
       handle environment req
       = Response 500
           (ErrorBody (lit "An internal server error occurred: " ++ message_of e))) /\
      (forall data, route operation params = Some (Returns data) ->
       handle environment req = Response 200 (DataBody data)))).
Proof.
  split.
  - intros Hm. unfold handler.
    now rewrite (jstring_eqb_neq _ _ Hm).
  - intros operation params Hm Hu Hn -> ->.
    assert (E : handle environment req
                = if op_is (get (body req) (lit "operation")) "verifyPassword"
                  then verifyPassword environment (get (body req) (lit "params"))
                  else if unset (API_KEY environment) then
                    Response 500
                      (ErrorBody (lit "API_KEY environment variable not set on the server"))
                  else
                    match route (get (body req) (lit "operation"))
                            (get (body req) (lit "params")) with
                    | None => Response 400 (ErrorBody (lit "Invalid operation specified."))
                    | Some (Returns data) => Response 200 (DataBody data)
                    | Some (Throws e) =>
                        Response 500
                          (ErrorBody (lit "An internal server error occurred: "
                                      ++ message_of e))
                    end).
    { unfold handler. rewrite Hm, jstring_eqb_refl. cbn [negb].
      destruct (body req); try reflexivity; contradiction. }
    rewrite E. split; [|split].
    + intros ->. unfold verifyPassword.
      destruct (APP_PASSWORD environment) as [[|c pw]|];
        [left; now eexists| |left; now eexists].
      destruct (get (body req) (lit "params")); first [now right | left; now eexists].
    + intros -> ->. reflexivity.
    + intros -> ->. split; [|split].
      * intros Hr. now rewrite (proj2 (unrecognized_routes _ _ Hr)).
      * intros e ->. reflexivity.
      * intros data ->. reflexivity.
Qed.

End HandlerFacts.

Section HandlerExamples.
Import Js Api.

Example login_with_the_secret :
  handler silent terse {| APP_PASSWORD := Some (lit "secret"); API_KEY := None |}
    (login (lit "secret"))
  = Response 200 (DataBody (success true)) /\
  handler silent terse {| APP_PASSWORD := Some (lit "secret"); API_KEY := None |}
    (login (lit "guess"))
  = Response 200 (DataBody (success false)).
Proof. split; reflexivity. Qed.

Lemma verifyPassword_fails_closed_witness :
  unset None = true /\
  handler silent terse {| APP_PASSWORD := None; API_KEY := Some (lit "key") |} (login [])
  = Response 200 (DataBody (success false)).
Proof.
  split; [reflexivity|].
  apply (verifyPassword_fails_closed silent terse
           {| APP_PASSWORD := None; API_KEY := Some (lit "key") |} (login []));
    reflexivity.
Defined.

(** C4, as stated, fails: an operation that is not recognized gets 500, not
    400, when the generation credential is not set. *)
Lemma unknown_operation_counterexample :
  ~ (forall g cannot_read environment req,
       method req = lit "POST" ->
       recognized (get (body req) (lit "operation")) = false ->
       exists e, handler g cannot_read environment req = Response 400 (ErrorBody e)).
Proof.
  intros H.
  destruct (H silent terse {| APP_PASSWORD := None; API_KEY := None |}
              {| method := lit "POST";
                 body := VObj [(lit "operation", VStr (lit "summarize"))] |}
              eq_refl eq_refl) as [e He].
  vm_compute in He. discriminate.
Qed.

Lemma handler_responses_witness :
  handler silent terse {| APP_PASSWORD := None; API_KEY := Some (lit "key") |}
    {| method := lit "GET"; body := VUndefined |}
  = Response 405 (ErrorBody (lit "Method Not Allowed")) /\
  handler silent terse {| APP_PASSWORD := None; API_KEY := Some (lit "key") |}
    {| method := lit "POST";
       body := VObj [(lit "operation", VStr (lit "summarize"))] |}
  = Response 400 (ErrorBody (lit "Invalid operation specified.")).
Proof.
  split.
  - apply (proj1 (handler_responses silent terse
                    {| APP_PASSWORD := None; API_KEY := Some (lit "key") |}
                    {| method := lit "GET"; body := VUndefined |})).
    discriminate.
  - refine (proj1 (proj2 (proj2 (proj2 (handler_responses silent terse
                    {| APP_PASSWORD := None; API_KEY := Some (lit "key") |}
                    {| method := lit "POST";
                       body := VObj [(lit "operation", VStr (lit "summarize"))] |})
                    (VStr (lit "summarize")) VUndefined
                    eq_refl _ _ eq_refl eq_refl)) eq_refl eq_refl) eq_refl);
      discriminate.
Defined.

End HandlerExamples.

(** ** The stage handlers *)

Section ServiceFacts.
Import Js Api Service.

(** The functions of the service never reject: [callApi] catches. *)
Lemma service_returns fetch call : exists v, service fetch call = Returns v.
Proof. now eexists. Qed.

(** Anything but a 2xx answer with a body that parses is null. *)
Lemma callApi_null fetch call :
  (fetch call = Rejected \/
   (exists status json, fetch call = Fetched status json /\ ok status = false) \/
   (exists status, fetch call = Fetched status None)) ->
  callApi fetch call = VNull.
Proof.
  unfold callApi. intros [->|[(status & json & -> & ->)|[status ->]]];
    try reflexivity.
  now destruct (negb (ok status)).
Qed.

End ServiceFacts.

Section CreationFacts.
Import Js Api Service Ui Creation.

Variable api : backend.

(** The requests of a revision: none when the guard stops it, else one. *)
Lemma revise_requests s :
  snd (exec (handleReviseArticle api s) s) = [] \/
  snd (exec (handleReviseArticle api s) s)
  = [CallReviseFullArticle (fullArticle s) (revisionPrompt s)].
Proof.
  unfold handleReviseArticle.
  destruct (negb (truthy (fullArticle s))
            || negb (truthy (VStr (trim (revisionPrompt s))))).
  - left. reflexivity.
  - right. run_action.
    destruct (api (CallReviseFullArticle (fullArticle s) (revisionPrompt s)))
      as [result|e]; [destruct (truthy result)|]; reflexivity.
Qed.

Lemma revise_clears_posts s :
  snd (exec (handleReviseArticle api s) s) <> [] ->
  socialPosts (fst (exec (handleReviseArticle api s) s)) = VNull.
Proof.
  unfold handleReviseArticle.
  destruct (negb (truthy (fullArticle s))
            || negb (truthy (VStr (trim (revisionPrompt s))))).
  - intros H. now contradiction H.
  - intros _. run_action.
    destruct (api (CallReviseFullArticle (fullArticle s) (revisionPrompt s)))
      as [result|e]; [destruct (truthy result)|]; reflexivity.
Qed.

(** What handleGenerateArticle does, case by case. *)
Lemma generate_without_draft s :
  truthy (draft s) = false -> exec (handleGenerateArticle api s) s = (s, []).
Proof. intros H. unfold handleGenerateArticle. now rewrite H. Qed.

Lemma generate_article_failed s :
  truthy (draft s) = true ->
  failed (api (CallGenerateFullArticle (draft s))) ->
  exec (handleGenerateArticle api s) s
  = ({| draft := draft s; fullArticle := VNull; socialPosts := VNull;
        isGenerating := false; isRevising := isRevising s;
        revisionPrompt := [];
        error := Some (match api (CallGenerateFullArticle (draft s)) with
                       | Returns _ => GenerationReturnedNothing
                       | Throws _ => GenerationThrew
                       end) |},
     [CallGenerateFullArticle (draft s)]).
Proof.
  intros Hd Hf. unfold handleGenerateArticle. rewrite Hd. run_action.
  destruct (api (CallGenerateFullArticle (draft s))) as [article|e].
  - simpl in Hf. rewrite Hf. reflexivity.
  - reflexivity.
Qed.

Lemma generate_article_done s article :
  truthy (draft s) = true ->
  api (CallGenerateFullArticle (draft s)) = Returns article ->
  truthy article = true ->
  exec (handleGenerateArticle api s) s
  = ({| draft := draft s; fullArticle := article;
        socialPosts :=
          match api (CallGenerateSocialMediaPosts article) with
          | Returns posts => if truthy posts then posts else VNull
          | Throws _ => VNull
          end;
        isGenerating := false; isRevising := isRevising s;
        revisionPrompt := [];
        error :=
          match api (CallGenerateSocialMediaPosts article) with
          | Returns _ => None
          | Throws _ => Some GenerationThrew
          end |},
     [CallGenerateFullArticle (draft s); CallGenerateSocialMediaPosts article]).
Proof.
  intros Hd Ha Ht. unfold handleGenerateArticle. rewrite Hd. run_action.
  rewrite Ha, Ht.
  destruct (api (CallGenerateSocialMediaPosts article)) as [posts|e];
    [destruct (truthy posts)|]; reflexivity.
Qed.

Lemma generate_cases s :
  (truthy (draft s) = false) \/
  (truthy (draft s) = true /\ failed (api (CallGenerateFullArticle (draft s)))) \/
  (truthy (draft s) = true /\
   exists article, api (CallGenerateFullArticle (draft s)) = Returns article /\
                   truthy article = true).
Proof.
  destruct (truthy (draft s)); [right|now left].
  destruct (api (CallGenerateFullArticle (draft s))) as [article|e] eqn:E.
  - destruct (truthy article) eqn:Et.
    + right. split; [reflexivity|]. now exists article.
    + left. now split.
  - left. now split.
Qed.

End CreationFacts.

Section CreationTheorems.
Import Js Api Service Ui Creation.

Variable api : backend.

Lemma revise_blocked s :
  truthy (fullArticle s) && truthy (VStr (trim (revisionPrompt s))) = false ->
  exec (handleReviseArticle api s) s = (s, []).
Proof.
  intros H. unfold handleReviseArticle. rewrite <- negb_andb, H. reflexivity.
Qed.

Lemma revise_failed s :
  truthy (fullArticle s) = true ->
  truthy (VStr (trim (revisionPrompt s))) = true ->
  failed (api (CallReviseFullArticle (fullArticle s) (revisionPrompt s))) ->
  exec (handleReviseArticle api s) s
  = ({| draft := draft s; fullArticle := fullArticle s; socialPosts := VNull;
        isGenerating := isGenerating s; isRevising := false;
        revisionPrompt := revisionPrompt s;
        error := Some (match api (CallReviseFullArticle (fullArticle s)
                                    (revisionPrompt s)) with
                       | Returns _ => RevisionReturnedNothing
                       | Throws _ => RevisionThrew
                       end) |},
     [CallReviseFullArticle (fullArticle s) (revisionPrompt s)]).
Proof.
  intros Ha Hp Hf. unfold handleReviseArticle. rewrite Ha, Hp. run_action.
  destruct (api (CallReviseFullArticle (fullArticle s) (revisionPrompt s)))
    as [result|e].
  - simpl in Hf. rewrite Hf. reflexivity.
  - reflexivity.
Qed.

Lemma revise_issued s :
  truthy (fullArticle s) && truthy (VStr (trim (revisionPrompt s))) = true ->
  snd (exec (handleReviseArticle api s) s)
  = [CallReviseFullArticle (fullArticle s) (revisionPrompt s)] /\
  socialPosts (fst (exec (handleReviseArticle api s) s)) = VNull.
Proof.
  intros H. unfold handleReviseArticle. rewrite <- negb_andb, H. run_action.
  destruct (api (CallReviseFullArticle (fullArticle s) (revisionPrompt s)))
    as [result|e]; [destruct (truthy result)|]; split; reflexivity.
Qed.

(** C6: in handleGenerateArticle a request for social posts is in the log
    only as the second request, after the request for the article, and only
    for an article that this request returned and that is truthy; whatever the
    second request then yields, that article is the one held afterwards, and
    when it fails no posts are held. *)
Theorem social_posts_after_article (s : state) (article : value) :
  In (CallGenerateSocialMediaPosts article)
     (snd (exec (handleGenerateArticle api s) s)) ->
  snd (exec (handleGenerateArticle api s) s)
  = [CallGenerateFullArticle (draft s); CallGenerateSocialMediaPosts article] /\
  api (CallGenerateFullArticle (draft s)) = Returns article /\
  truthy article = true /\
  fullArticle (fst (exec (handleGenerateArticle api s) s)) = article /\
  (failed (api (CallGenerateSocialMediaPosts article)) ->
   socialPosts (fst (exec (handleGenerateArticle api s) s)) = VNull).
Proof.
  destruct (generate_cases api s) as [H|[[Hd Hf]|(Hd & a & Ha & Ht)]].
  - rewrite (generate_without_draft api s H). intros [].
  - rewrite (generate_article_failed api s Hd Hf).
    intros [E|[]]. discriminate.
  - rewrite (generate_article_done api s a Hd Ha Ht). cbn [fst snd].
    intros [E|[E|[]]]; [discriminate|]. injection E as ->.
    repeat split; try assumption.
    destruct (api (CallGenerateSocialMediaPosts article)) as [posts|e];
      [|reflexivity].
    simpl. now intros ->.
Qed.

(** C5: a revision that issues its request leaves no social posts, whether
    the request succeeds or not; and after any event of the component the
    posts are null, or the ones held before, or what a request for social
    posts, issued by handleGenerateArticle in that event, returned. *)
Theorem revision_discards_posts :
  (forall s,
     snd (exec (handleReviseArticle api s) s) <> [] ->
     snd (exec (handleReviseArticle api s) s)
     = [CallReviseFullArticle (fullArticle s) (revisionPrompt s)] /\
     socialPosts (fst (exec (handleReviseArticle api s) s)) = VNull) /\
  (forall ev s,
     socialPosts (fst (step api ev s)) = VNull \/
     socialPosts (fst (step api ev s)) = socialPosts s \/
     (ev = GenerateClicked /\
      exists article,
        In (CallGenerateSocialMediaPosts article) (snd (step api ev s)) /\
        api (CallGenerateSocialMediaPosts article)
        = Returns (socialPosts (fst (step api ev s))))).
Proof.
  split.
  - intros s H. split; [|now apply revise_clears_posts].
    destruct (revise_requests api s) as [E|E]; [contradiction|exact E].
  - intros [| |text|d] s; cbn [step].
    + destruct (generate_cases api s) as [H|[[Hd Hf]|(Hd & a & Ha & Ht)]].
      * rewrite (generate_without_draft api s H). now right; left.
      * rewrite (generate_article_failed api s Hd Hf). now left.
      * rewrite (generate_article_done api s a Hd Ha Ht). cbn [fst snd socialPosts].
        destruct (api (CallGenerateSocialMediaPosts a)) as [posts|e] eqn:E;
          [|now left].
        destruct (truthy posts); [|now left].
        right; right. split; [reflexivity|]. exists a.
        split; [right; now left|exact E].
    + destruct (truthy (fullArticle s) && truthy (VStr (trim (revisionPrompt s))))
        eqn:E.
      * left. now apply revise_issued.
      * rewrite (revise_blocked s E). now right; left.
    + now right; left.
    + now left.
Qed.

End CreationTheorems.

Section PreparationFacts.
Import Js Api Service Ui.

Variable api : backend.

Lemma keywords_failed (s : Preparation.state) :
  let call := CallAnalyzeKeywords (Preparation.userUrl s)
                (filter Preparation.nonblank
                   [Preparation.competitorUrl1 s; Preparation.competitorUrl2 s]) in
  Preparation.nonblank (Preparation.userUrl s) = true ->
  match api call with
  | Returns result =>
      truthy result && truthy (get result (lit "keywordAnalysis")) = false
  | Throws _ => True
  end ->
  exec (Preparation.handleAnalyzeKeywords api s) s
  = ({| Preparation.stage := Preparation.idle;
        Preparation.error :=
          Some (match api call with
                | Returns _ => Preparation.KeywordsReturnedNothing
                | Throws _ => Preparation.KeywordsThrew
                end);
        Preparation.userUrl := Preparation.userUrl s;
        Preparation.competitorUrl1 := Preparation.competitorUrl1 s;
        Preparation.competitorUrl2 := Preparation.competitorUrl2 s;
        Preparation.keywordAnalysis := VNull;
        Preparation.topic := Preparation.topic s;
        Preparation.competitorArticles := Preparation.competitorArticles s;
        Preparation.parent := Preparation.parent s |},
     [call]).
Proof.
  intros call Hu Hf. unfold Preparation.handleAnalyzeKeywords. rewrite Hu.
  run_action. fold call. destruct (api call) as [result|e].
  - rewrite Hf. reflexivity.
  - reflexivity.
Qed.

Lemma articles_failed (s : Preparation.state) :
  let call := CallFindTopCompetitorArticles (Preparation.topic s) in
  Preparation.nonblank (Preparation.topic s) = true ->
  failed (api call) ->
  exec (Preparation.handleFindArticles api s) s
  = ({| Preparation.stage := Preparation.idle;
        Preparation.error :=
          Some (match api call with
                | Returns _ => Preparation.ArticlesReturnedNothing
                | Throws _ => Preparation.ArticlesThrew
                end);
        Preparation.userUrl := Preparation.userUrl s;
        Preparation.competitorUrl1 := Preparation.competitorUrl1 s;
        Preparation.competitorUrl2 := Preparation.competitorUrl2 s;
        Preparation.keywordAnalysis := Preparation.keywordAnalysis s;
        Preparation.topic := Preparation.topic s;
        Preparation.competitorArticles := VNull;
        Preparation.parent := Preparation.parent s |},
     [call]).
Proof.
  intros call Hu Hf. unfold Preparation.handleFindArticles. rewrite Hu.
  run_action. fold call. destruct (api call) as [result|e].
  - simpl in Hf. rewrite Hf. reflexivity.
  - reflexivity.
Qed.

Lemma composite_failed (s : Preparation.state) :
  let call := CallCreateCompositeArticle (Preparation.topic s)
                (Preparation.competitorArticles s) in
  truthy (Preparation.competitorArticles s) = true ->
  truthy (VStr (Preparation.topic s)) = true ->
  failed (api call) ->
  exec (Preparation.handleCreateCompositeArticle api s) s
  = ({| Preparation.stage := Preparation.idle;
        Preparation.error :=
          Some (match api call with
                | Returns _ => Preparation.DraftReturnedNothing
                | Throws _ => Preparation.DraftThrew
                end);
        Preparation.userUrl := Preparation.userUrl s;
        Preparation.competitorUrl1 := Preparation.competitorUrl1 s;
        Preparation.competitorUrl2 := Preparation.competitorUrl2 s;
        Preparation.keywordAnalysis := Preparation.keywordAnalysis s;
        Preparation.topic := Preparation.topic s;
        Preparation.competitorArticles := Preparation.competitorArticles s;
        Preparation.parent := Preparation.parent s |},
     [call]).
Proof.
  intros call Ha Ht Hf. unfold Preparation.handleCreateCompositeArticle.
  rewrite Ha, Ht. run_action. fold call. destruct (api call) as [result|e].
  - simpl in Hf. rewrite Hf. reflexivity.
  - reflexivity.
Qed.

Lemma report_failed (s : Analysis.state) :
  let call := CallAnalyzePerformanceData (Analysis.articleUrl s) (Analysis.socialUrl s) in
  truthy (VStr (trim (Analysis.articleUrl s))) = true ->
  Analysis.startsWith_http (Analysis.articleUrl s) = true ->
  failed (api call) ->
  exec (Analysis.handleGenerateReport api s) s
  = ({| Analysis.isLoading := false;
        Analysis.error :=
          Some (match api call with
                | Returns _ => Analysis.ReportReturnedNothing
                | Throws _ => Analysis.ReportThrew
                end);
        Analysis.articleUrl := Analysis.articleUrl s;
        Analysis.socialUrl := Analysis.socialUrl s;
        Analysis.analysis := VNull |},
     [call]).
Proof.
  intros call Ha Ht Hf. unfold Analysis.handleGenerateReport.
  rewrite Ha, Ht. run_action. fold call. destruct (api call) as [result|e].
  - simpl in Hf. rewrite Hf. reflexivity.
  - reflexivity.
Qed.

End PreparationFacts.

Section FailureTheorems.
Import Js Api Service Ui.

(** C2, amended: when the call of a stage throws or returns a falsy value,
    the handler leaves the state it was started in except for three things:
    what it reset before the call stays reset (the article, the posts and
    the revision prompt in handleGenerateArticle; the posts in
    handleReviseArticle; the keyword analysis, the competitor articles and
    the report in their handlers), its busy flag is off, and the error
    message of the stage is set.  Social posts are the exception to the
    last: when their request returns nothing the article just stored stays
    and no message is set. *)
Theorem failure_leaves_reset_state (api : backend) :
  (forall s : Creation.state,
     truthy (Creation.draft s) = true ->
     failed (api (CallGenerateFullArticle (Creation.draft s))) ->
     exists m,
       fst (exec (Creation.handleGenerateArticle api s) s)
       = {| Creation.draft := Creation.draft s;
            Creation.fullArticle := VNull;
            Creation.socialPosts := VNull;
            Creation.isGenerating := false;
            Creation.isRevising := Creation.isRevising s;
            Creation.revisionPrompt := [];
            Creation.error := Some m |}) /\
  (forall (s : Creation.state) article,
     truthy (Creation.draft s) = true ->
     api (CallGenerateFullArticle (Creation.draft s)) = Returns article ->
     truthy article = true ->
     failed (api (CallGenerateSocialMediaPosts article)) ->
     fst (exec (Creation.handleGenerateArticle api s) s)
     = {| Creation.draft := Creation.draft s;
          Creation.fullArticle := article;
          Creation.socialPosts := VNull;
          Creation.isGenerating := false;
          Creation.isRevising := Creation.isRevising s;
          Creation.revisionPrompt := [];
          Creation.error :=
            match api (CallGenerateSocialMediaPosts article) with
            | Returns _ => None
            | Throws _ => Some Creation.GenerationThrew
            end |}) /\
  (forall s : Creation.state,
     truthy (Creation.fullArticle s) = true ->
     truthy (VStr (trim (Creation.revisionPrompt s))) = true ->
     failed (api (CallReviseFullArticle (Creation.fullArticle s)
                    (Creation.revisionPrompt s))) ->
     exists m,
       fst (exec (Creation.handleReviseArticle api s) s)
       = {| Creation.draft := Creation.draft s;
            Creation.fullArticle := Creation.fullArticle s;
            Creation.socialPosts := VNull;
            Creation.isGenerating := Creation.isGenerating s;
            Creation.isRevising := false;
            Creation.revisionPrompt := Creation.revisionPrompt s;
            Creation.error := Some m |}) /\
  (forall s : Preparation.state,
     Preparation.nonblank (Preparation.userUrl s) = true ->
     match api (CallAnalyzeKeywords (Preparation.userUrl s)
                  (filter Preparation.nonblank
                     [Preparation.competitorUrl1 s; Preparation.competitorUrl2 s])) with
     | Returns result =>
         truthy result && truthy (get result (lit "keywordAnalysis")) = false
     | Throws _ => True
     end ->
     exists m,
       fst (exec (Preparation.handleAnalyzeKeywords api s) s)
       = Preparation.setStage Preparation.idle
           (Preparation.setError (Some m)
              (Preparation.setKeywordAnalysis VNull s))) /\
  (forall s : Preparation.state,
     Preparation.nonblank (Preparation.topic s) = true ->
     failed (api (CallFindTopCompetitorArticles (Preparation.topic s))) ->
     exists m,
       fst (exec (Preparation.handleFindArticles api s) s)
       = Preparation.setStage Preparation.idle
           (Preparation.setError (Some m)
              (Preparation.setCompetitorArticles VNull s))) /\
  (forall s : Preparation.state,
     truthy (Preparation.competitorArticles s) = true ->
     truthy (VStr (Preparation.topic s)) = true ->
     failed (api (CallCreateCompositeArticle (Preparation.topic s)
                    (Preparation.competitorArticles s))) ->
     exists m,
       fst (exec (Preparation.handleCreateCompositeArticle api s) s)
       = Preparation.setStage Preparation.idle
           (Preparation.setError (Some m) s)) /\
  (forall s : Analysis.state,
     truthy (VStr (trim (Analysis.articleUrl s))) = true ->
     Analysis.startsWith_http (Analysis.articleUrl s) = true ->
     failed (api (CallAnalyzePerformanceData (Analysis.articleUrl s)
                    (Analysis.socialUrl s))) ->
     exists m,
       fst (exec (Analysis.handleGenerateReport api s) s)
       = Analysis.setIsLoading false
           (Analysis.setError (Some m) (Analysis.setAnalysis VNull s))).
Proof.
  repeat apply conj.
  - intros s Hd Hf. rewrite (generate_article_failed api s Hd Hf). now eexists.
  - intros s article Hd Ha Ht Hf.
    rewrite (generate_article_done api s article Hd Ha Ht). cbn [fst]. f_equal.
    destruct (api (CallGenerateSocialMediaPosts article)) as [posts|e];
      [|reflexivity].
    simpl in Hf. now rewrite Hf.
  - intros s Ha Hp Hf. rewrite (revise_failed api s Ha Hp Hf). now eexists.
  - intros s Hu Hf. rewrite (keywords_failed api s Hu Hf). now eexists.
  - intros s Hu Hf. rewrite (articles_failed api s Hu Hf). now eexists.
  - intros s Ha Ht Hf. rewrite (composite_failed api s Ha Ht Hf). now eexists.
  - intros s Ha Ht Hf. rewrite (report_failed api s Ha Ht Hf). now eexists.
Qed.

End FailureTheorems.

Section UiExamples.
Import Js Api Service Ui Creation.

(** C2, as stated, fails: a revision whose request returns null does not
    leave the state it was started in with an error message added; the posts
    that were held are gone. *)
Lemma failed_revision_counterexample :
  ~ (forall (api : backend) (s : state),
       truthy (fullArticle s) = true ->
       truthy (VStr (trim (revisionPrompt s))) = true ->
       failed (api (CallReviseFullArticle (fullArticle s) (revisionPrompt s))) ->
       exists m, fst (exec (handleReviseArticle api s) s) = setError m s).
Proof.
  intros H.
  destruct (H nothing holding eq_refl eq_refl eq_refl) as [m Hm].
  vm_compute in Hm. discriminate.
Qed.

Lemma failure_leaves_reset_state_witness :
  failed (nothing (CallReviseFullArticle (fullArticle holding) (revisionPrompt holding))) /\
  exists m,
    fst (exec (handleReviseArticle nothing holding) holding)
    = {| draft := draft holding; fullArticle := fullArticle holding;
         socialPosts := VNull; isGenerating := isGenerating holding;
         isRevising := false; revisionPrompt := revisionPrompt holding;
         error := Some m |}.
Proof.
  split; [reflexivity|].
  apply (proj1 (proj2 (proj2 (failure_leaves_reset_state nothing))) holding);
    reflexivity.
Defined.

Lemma social_posts_after_article_witness :
  In (CallGenerateSocialMediaPosts (VStr (lit "text")))
     (snd (exec (handleGenerateArticle article_only holding) holding)) /\
  fullArticle (fst (exec (handleGenerateArticle article_only holding) holding))
  = VStr (lit "text").
Proof.
  split; [right; left; reflexivity|].
  apply (social_posts_after_article article_only holding (VStr (lit "text"))).
  right; left; reflexivity.
Defined.

Lemma revision_discards_posts_witness :
  snd (exec (handleReviseArticle nothing holding) holding) <> [] /\
  socialPosts (fst (exec (handleReviseArticle nothing holding) holding)) = VNull.
Proof.
  split; [discriminate|].
  apply (proj1 (revision_discards_posts nothing) holding). discriminate.
Defined.

End UiExamples.

(** ** The CSV export *)

Section CsvFacts.
Import Js Api Analysis.

Variable toString : number -> jstring.

Lemma fold_left_append {A : Type} (f : A -> jstring) (l : list A) (acc : jstring) :
  fold_left (fun csv x => csv ++ f x) l acc = acc ++ concat (map f l).
Proof.
  revert acc. induction l as [|x l IH]; intros acc; simpl.
  - now rewrite app_nil_r.
  - now rewrite IH, <- app_assoc.
Qed.

Lemma csvContent_sections data :
  csvContent toString data
  = lit "data:text/csv;charset=utf-8,"
    ++ concat (map render (sections toString data)).
Proof.
  unfold csvContent. rewrite !fold_left_append.
  unfold sections, render, summary_body, metrics_body, sources_body,
    keywords_body, plan_body. cbn [map concat fst snd join].
  rewrite map_map.
  replace (map (fun x => join (lit ",") [quoted (action x); quoted (justification x)])
             (actionPlan data))
    with (map plan_row (actionPlan data)) by reflexivity.
  fold (source_row toString). fold (keyword_row toString).
  rewrite <- !app_assoc. rewrite app_nil_r. reflexivity.
Qed.

Lemma double_quotes_paired s : quotes_paired (double_quotes s).
Proof.
  induction s as [|c s IH]; cbn [double_quotes flat_map]; [constructor|].
  fold (double_quotes s).
  destruct (N.eqb_spec c quote) as [->|Hc]; cbn [app].
  - now apply paired_quotes.
  - now apply paired_other.
Qed.

Lemma undouble_double_quotes s : undouble (double_quotes s) = s.
Proof.
  induction s as [|c s IH]; [reflexivity|].
  cbn [double_quotes flat_map]. fold (double_quotes s).
  destruct (N.eqb_spec c quote) as [->|Hc]; cbn [app].
  - cbn [undouble]. rewrite N.eqb_refl. cbn [andb]. now rewrite IH.
  - cbn [undouble]. destruct (double_quotes s) as [|c' r'] eqn:E.
    + rewrite <- IH. reflexivity.
    + rewrite (proj2 (N.eqb_neq c quote) Hc). cbn [andb]. now rewrite IH.
Qed.

Lemma count_double_quotes s :
  count_occ N.eq_dec (double_quotes s) quote
  = (2 * count_occ N.eq_dec s quote)%nat.
Proof.
  induction s as [|c s IH]; [reflexivity|].
  cbn [double_quotes flat_map]. fold (double_quotes s).
  destruct (N.eqb_spec c quote) as [->|Hc]; cbn [app].
  - rewrite !count_occ_cons_eq by reflexivity. rewrite IH. lia.
  - rewrite !count_occ_cons_neq by exact Hc. exact IH.
Qed.

Lemma occurs_here t a : occurs_in t (t ++ a).
Proof. exists [], a. reflexivity. Qed.

Lemma occurs_refl t : occurs_in t t.
Proof. exists [], []. now rewrite app_nil_r. Qed.

Lemma occurs_app_l t x s : occurs_in t s -> occurs_in t (x ++ s).
Proof.
  intros (a & b & ->). exists (x ++ a), b. now rewrite <- app_assoc.
Qed.

Lemma occurs_app_r t s y : occurs_in t s -> occurs_in t (s ++ y).
Proof.
  intros (a & b & ->). exists a, (b ++ y). now rewrite <- !app_assoc.
Qed.

Lemma occurs_concat {A : Type} (f : A -> jstring) (l : list A) x t :
  In x l -> occurs_in t (f x) -> occurs_in t (concat (map f l)).
Proof.
  intros Hx Ht. apply in_split in Hx as (l1 & l2 & ->).
  rewrite map_app, concat_app. cbn [map concat].
  apply occurs_app_l, occurs_app_r, Ht.
Qed.

Lemma occurs_join {A : Type} (f : A -> jstring) (sep : jstring) (l : list A) x t :
  In x l -> occurs_in t (f x) -> occurs_in t (join sep (map f l)).
Proof.
  induction l as [|y l IH]; [intros []|].
  intros [->|Hx] Ht.
  - destruct l as [|z l]; [exact Ht|].
    cbn [map join]. now apply occurs_app_r.
  - destruct l as [|z l]; [destruct Hx|].
    specialize (IH Hx Ht). cbn [map join] in IH |- *.
    now apply occurs_app_l, occurs_app_l.
Qed.

Lemma occurs_in_section data label body t :
  In (label, body) (sections toString data) -> occurs_in t body ->
  occurs_in t (csvContent toString data).
Proof.
  intros Hs Ht. rewrite csvContent_sections. apply occurs_app_l.
  apply (occurs_concat render _ (label, body)); [exact Hs|].
  unfold render. cbn [fst snd]. now apply occurs_app_l, occurs_app_l.
Qed.

Lemma occurs_complete t s : occurs_in t s -> occurs t s = true.
Proof.
  intros (before & after & ->).
  induction before as [|c before IH].
  - cbn [app]. destruct (t ++ after) eqn:E; cbn [occurs];
      rewrite <- E, strip_prefix_self; reflexivity.
  - cbn [app occurs]. rewrite IH. now destruct (strip_prefix t _).
Qed.

Lemma unescaped_ascii c : Uri.unescaped c = true -> c < 128.
Proof.
  unfold Uri.unescaped. intros H.
  apply orb_true_iff in H as [H|H].
  { repeat (apply orb_true_iff in H; destruct H as [H|H]);
      apply andb_true_iff in H as [_ H]; apply N.leb_le in H; lia. }
  apply existsb_exists in H as (x & Hx & E). apply N.eqb_eq in E. subst x.
  assert (F : forallb (fun x => x <? 128) (lit ";/?:@&=+$,-_.!~*'()#") = true)
    by reflexivity.
  rewrite forallb_forall in F. apply F in Hx. now apply N.ltb_lt.
Qed.

Lemma unescaped_no_surrogate c :
  Uri.unescaped c = true -> Uri.is_low c = false /\ Uri.is_high c = false.
Proof.
  intros H. apply unescaped_ascii in H. unfold Uri.is_low, Uri.is_high.
  split; apply andb_false_iff; left; apply N.leb_gt; lia.
Qed.

Lemma low_not_high c : Uri.is_low c = true -> Uri.is_high c = false.
Proof.
  unfold Uri.is_low, Uri.is_high. intros H.
  apply andb_true_iff in H as [H _]. apply N.leb_le in H.
  apply andb_false_iff. right. apply N.leb_gt. lia.
Qed.

(** [encodeURI] returns for the texts without a lone surrogate and throws
    its URIError for the others. *)
Lemma encodeURI_returns s :
  match Uri.encodeURI s with
  | Returns _ => well_formed s = true
  | Throws e => well_formed s = false /\ e = Uri.URIError
  end.
Proof.
  remember (length s) as n eqn:Hn.
  assert (Hle : (length s <= n)%nat) by lia. clear Hn. revert s Hle.
  induction n as [|n IH]; intros s Hle.
  { destruct s; [reflexivity|cbn in Hle; lia]. }
  destruct s as [|c r]; [reflexivity|]. cbn [length] in Hle.
  assert (Hr : (length r <= n)%nat) by lia.
  cbn [Uri.encodeURI well_formed].
  destruct (Uri.unescaped c) eqn:U.
  { destruct (unescaped_no_surrogate c U) as [-> ->].
    specialize (IH r Hr). now destruct (Uri.encodeURI r). }
  destruct (Uri.is_low c) eqn:L; [now split|].
  destruct (Uri.is_high c) eqn:H.
  - destruct r as [|d r']; [now split|].
    destruct (Uri.is_low d) eqn:Ld; [|now split]. cbn [andb].
    assert (Hr' : (length r' <= n)%nat) by (cbn [length] in Hr; lia).
    specialize (IH r' Hr'). now destruct (Uri.encodeURI r').
  - specialize (IH r Hr). now destruct (Uri.encodeURI r).
Qed.

(** A prefix of kept code units is kept. *)
Lemma encodeURI_kept p s :
  forallb Uri.unescaped p = true ->
  Uri.encodeURI (p ++ s)
  = match Uri.encodeURI s with
    | Returns t => Returns (p ++ t)
    | Throws e => Throws e
    end /\
  well_formed (p ++ s) = well_formed s.
Proof.
  induction p as [|c p IH]; intros H.
  - cbn [app]. split; [now destruct (Uri.encodeURI s)|reflexivity].
  - cbn [forallb] in H. apply andb_true_iff in H as [U H].
    destruct (IH H) as [E W]. cbn [app Uri.encodeURI well_formed].
    destruct (unescaped_no_surrogate c U) as [-> ->].
    rewrite U, E, W. split; [|reflexivity].
    now destruct (Uri.encodeURI s).
Qed.

(** C8: the export of a report.  The text that downloadCSV assembles is the
    prefix of its link followed by exactly five sections, labeled Summary,
    Key Metrics, Traffic Sources, Keyword Performance and Action Plan in
    this order.  Four kinds of text (summary, keyword, action,
    justification) are in it between quotation marks with every quotation
    mark of theirs doubled: paired, twice as many, and read back as the text
    they came from; the name of a traffic source and the four key metrics
    are in it as they are, with nothing doubled and no quotation marks
    around them.  When the text holds no lone surrogate the link is made:
    its address is the prefix, as it is, followed by what [encodeURI] makes
    of the five sections, and its download name is the name given with .csv
    at the end.  When the text holds a lone surrogate [encodeURI] throws and
    there is no link. *)
Theorem csv_five_sections (data : PerformanceAnalysis) (filename : jstring) :
  csvContent toString data
  = data_url ++ concat (map render (sections toString data)) /\
  map fst (sections toString data)
  = [lit "Summary"; lit "Key Metrics"; lit "Traffic Sources";
     lit "Keyword Performance"; lit "Action Plan"] /\
  (forall text,
     In text (summary data
              :: map keyword (keywordPerformance data)
              ++ map action (actionPlan data)
              ++ map justification (actionPlan data)) ->
     occurs_in ([quote] ++ double_quotes text ++ [quote])
       (csvContent toString data) /\
     quotes_paired (double_quotes text) /\
     count_occ N.eq_dec (double_quotes text) quote
     = (2 * count_occ N.eq_dec text quote)%nat /\
     undouble (double_quotes text) = text) /\
  (forall src,
     In src (trafficSources data) ->
     occurs_in (source src ++ lit "," ++ toString (percentage src) ++ lit "%" ++ nl)
       (csvContent toString data)) /\
  occurs_in (lit "Monthly PV," ++ monthlyPV (keyMetrics data) ++ nl
             ++ lit "Users," ++ users (keyMetrics data) ++ nl
             ++ lit "Conversion Rate," ++ cvr (keyMetrics data) ++ nl
             ++ lit "Bounce Rate," ++ bounceRate (keyMetrics data) ++ nl)
    (csvContent toString data) /\
  (well_formed (csvContent toString data) = true ->
   exists rest,
     Uri.encodeURI (concat (map render (sections toString data))) = Returns rest /\
     downloadCSV toString Uri.encodeURI data filename
     = Returns {| href := data_url ++ rest; download := filename ++ lit ".csv" |}) /\
  (well_formed (csvContent toString data) = false ->
   downloadCSV toString Uri.encodeURI data filename = Throws Uri.URIError).
Proof.
  split; [apply csvContent_sections|]. split; [reflexivity|].
  split; [|split; [|split]].
  - intros text Hin.
    split; [|auto using double_quotes_paired, count_double_quotes,
               undouble_double_quotes].
    fold (quoted text).
    destruct Hin as [<-|Hin].
    { apply (occurs_in_section data (lit "Summary") (summary_body data));
        [now left | apply occurs_here]. }
    apply in_app_or in Hin as [Hin|Hin].
    { apply in_map_iff in Hin as (kw & <- & Hkw).
      apply (occurs_in_section data (lit "Keyword Performance")
               (keywords_body toString data)); [simpl; tauto|].
      unfold keywords_body. apply occurs_app_l, occurs_app_l, occurs_app_r.
      apply (occurs_concat _ _ kw); [exact Hkw | apply occurs_here]. }
    apply (occurs_in_section data (lit "Action Plan") (plan_body data));
      [simpl; tauto|].
    unfold plan_body. apply occurs_app_l, occurs_app_l.
    apply in_app_or in Hin as [Hin|Hin];
      apply in_map_iff in Hin as (item & <- & Hitem);
      apply (occurs_join _ _ _ item); try exact Hitem; unfold plan_row.
    + apply occurs_here.
    + apply occurs_app_l, occurs_app_l, occurs_refl.
  - intros src Hsrc.
    apply (occurs_in_section data (lit "Traffic Sources")
             (sources_body toString data)); [simpl; tauto|].
    unfold sources_body. apply occurs_app_l, occurs_app_l, occurs_app_r.
    apply (occurs_concat _ _ src); [exact Hsrc | apply occurs_refl].
  - apply (occurs_in_section data (lit "Key Metrics") (metrics_body data));
      [simpl; tauto|].
    unfold metrics_body. apply occurs_app_l, occurs_app_l.
    exists [], nl. rewrite <- !app_assoc. reflexivity.
  - unfold downloadCSV. rewrite csvContent_sections.
    change (lit "data:text/csv;charset=utf-8,") with data_url.
    destruct (encodeURI_kept data_url
                (concat (map render (sections toString data))) eq_refl) as [E W].
    rewrite E, W.
    pose proof (encodeURI_returns
                  (concat (map render (sections toString data)))) as R.
    destruct (Uri.encodeURI (concat (map render (sections toString data))))
      as [rest|e].
    + split; [|congruence]. intros _. now exists rest.
    + destruct R as [R ->]. split; [congruence|reflexivity].
Qed.

End CsvFacts.

Section CsvExamples.
Import Js Api Analysis.

Lemma csv_five_sections_witness :
  well_formed (csvContent (fun _ => lit "40") quoting) = true /\
  exists rest,
    Uri.encodeURI (concat (map render (sections (fun _ => lit "40") quoting)))
    = Returns rest /\
    downloadCSV (fun _ => lit "40") Uri.encodeURI quoting (lit "performance_report")
    = Returns {| href := data_url ++ rest;
                 download := lit "performance_report.csv" |}.
Proof.
  split; [reflexivity|].
  apply (proj1 (proj2 (proj2 (proj2 (proj2 (proj2
           (csv_five_sections (fun _ => lit "40") quoting
              (lit "performance_report")))))))).
  reflexivity.
Defined.

(** C8, as stated, fails: not every report is exported, since [encodeURI]
    throws on a report whose text holds a lone surrogate and no link is
    made; and not every free text has its quotation marks doubled, since the
    name of a traffic source is written as it is. *)
Lemma csv_export_counterexample :
  ~ (forall (toString : number -> jstring) (data : PerformanceAnalysis)
            (filename : jstring),
       exists l, downloadCSV toString Uri.encodeURI data filename = Returns l) /\
  ~ (forall (toString : number -> jstring) (data : PerformanceAnalysis)
            (src : TrafficSource),
       In src (trafficSources data) ->
       occurs_in (double_quotes (source src)) (csvContent toString data)).
Proof.
  split.
  - intros H. destruct (H (fun _ => lit "40") torn (lit "performance_report"))
      as [l Hl].
    vm_compute in Hl. discriminate.
  - intros H.
    specialize (H (fun _ => lit "40") quoting
                  {| source := jlit "a'b";
                     percentage := {| neg := false; mant := 40; exp10 := 0 |} |}
                  (or_introl eq_refl)).
    apply occurs_complete in H. vm_compute in H. discriminate.
Qed.

End CsvExamples.

(** * Further facts *)

(** ** The stages and the handler, beyond the frozen statements *)

Section StageFacts.
Import Js Api.

Variable generateContent : gen_request -> completion (option jstring).

Lemma unusable_parsed response : unusable response -> parsed response = VNull.
Proof.
  intros [->|[->|(text & -> & H)]]; try reflexivity.
  unfold parsed, safeJsonParse. cbn [text_or_empty]. now rewrite H.
Qed.

(** X1: a response without text, with the empty text or with a text that
    JSON.parse rejects makes every structured stage return null (it does not
    throw), and a response without text or with the empty text makes the two
    free-text stages return null. *)
Theorem unusable_response_is_null (response : option jstring) :
  unusable response ->
  (forall a b, generateContent (ReqAnalyzeKeywords a b) = Returns response ->
     analyzeKeywords generateContent a b = Returns VNull) /\
  (forall a, generateContent (ReqFindTopCompetitorArticles a) = Returns response ->
     findTopCompetitorArticles generateContent a = Returns VNull) /\
  (forall a b, generateContent (ReqCreateCompositeArticle a b) = Returns response ->
     createCompositeArticle generateContent a b = Returns VNull) /\
  (forall a, generateContent (ReqGenerateSocialMediaPosts a) = Returns response ->
     generateSocialMediaPosts generateContent a = Returns VNull) /\
  (forall a b, generateContent (ReqAnalyzePerformanceData a b) = Returns response ->
     analyzePerformanceData generateContent a b = Returns VNull) /\
  (response = None \/ response = Some [] ->
   (forall a, generateContent (ReqGenerateFullArticle a) = Returns response ->
      generateFullArticle generateContent a = Returns VNull) /\
   (forall a b, generateContent (ReqReviseFullArticle a b) = Returns response ->
      reviseFullArticle generateContent a b = Returns VNull)).
Proof.
  intros H. pose proof (unusable_parsed _ H) as Hp. unfold parsed in Hp.
  unfold analyzeKeywords, findTopCompetitorArticles, createCompositeArticle,
    generateSocialMediaPosts, analyzePerformanceData, generateFullArticle,
    reviseFullArticle.
  repeat apply conj; try (intros a b ->; cbn [bind]; now rewrite Hp);
    try (intros a ->; cbn [bind]; now rewrite Hp).
  intros [->| ->]; split; try (intros a b ->); try (intros a ->); reflexivity.
Qed.

(** X2: what a stage returns, when it is not null, has the shape its caller
    reads: an object in which every field that the stage checks is present
    and truthy (analyzeKeywords, generateSocialMediaPosts,
    analyzePerformanceData), an array (findTopCompetitorArticles), or a
    string that is not empty (generateFullArticle, reviseFullArticle); a
    string, a number or a boolean that the service answers with is never
    passed on by a structured stage. *)
Theorem accepted_results_shape (d : value) :
  d <> VNull ->
  (forall a b, analyzeKeywords generateContent a b = Returns d ->
     (exists members, d = VObj members) /\
     forall k, In k [lit "keywordAnalysis"; lit "summary"] ->
       has_field d k = true /\ truthy (get d k) = true) /\
  (forall a, generateSocialMediaPosts generateContent a = Returns d ->
     (exists members, d = VObj members) /\
     forall k, In k [lit "x"; lit "facebook"; lit "linkedin"; lit "hashtags"] ->
       has_field d k = true /\ truthy (get d k) = true) /\
  (forall a b, analyzePerformanceData generateContent a b = Returns d ->
     (exists members, d = VObj members) /\
     forall k, In k [lit "summary"; lit "actionPlan"] ->
       has_field d k = true /\ truthy (get d k) = true) /\
  (forall a, findTopCompetitorArticles generateContent a = Returns d ->
     exists items, d = VArr items) /\
  (forall a, generateFullArticle generateContent a = Returns d ->
     exists c text, d = VStr (c :: text)) /\
  (forall a b, reviseFullArticle generateContent a b = Returns d ->
     exists c text, d = VStr (c :: text)).
Proof.
  intros Hd.
  assert (object : forall v k, truthy (get v k) = true -> exists members, v = VObj members).
  { intros v k H. destruct v; try discriminate. now eexists. }
  repeat apply conj.
  - intros a b. unfold analyzeKeywords.
    destruct (generateContent _) as [response|e]; [|discriminate]. cbn [bind].
    fold (parsed response).
    destruct (truthy (parsed response)
              && truthy (get (parsed response) (lit "keywordAnalysis"))
              && truthy (get (parsed response) (lit "summary"))) eqn:E;
      intros [= <-]; [|contradiction].
    apply andb_true_iff in E as [E E2]. apply andb_true_iff in E as [_ E1].
    split; [now apply (object _ _ E1)|].
    intros k [<-|[<-|[]]]; (split; [now apply truthy_get_has|assumption]).
  - intros a. unfold generateSocialMediaPosts.
    destruct (generateContent _) as [response|e]; [|discriminate]. cbn [bind].
    fold (parsed response).
    destruct (truthy (parsed response)
              && truthy (get (parsed response) (lit "x"))
              && truthy (get (parsed response) (lit "facebook"))
              && truthy (get (parsed response) (lit "linkedin"))
              && truthy (get (parsed response) (lit "hashtags"))) eqn:E;
      intros [= <-]; [|contradiction].
    apply andb_true_iff in E as [E E4]. apply andb_true_iff in E as [E E3].
    apply andb_true_iff in E as [E E2]. apply andb_true_iff in E as [_ E1].
    split; [now apply (object _ _ E1)|].
    intros k [<-|[<-|[<-|[<-|[]]]]]; (split; [now apply truthy_get_has|assumption]).
  - intros a b. unfold analyzePerformanceData.
    destruct (generateContent _) as [response|e]; [|discriminate]. cbn [bind].
    fold (parsed response).
    destruct (truthy (parsed response)
              && truthy (get (parsed response) (lit "summary"))
              && truthy (get (parsed response) (lit "actionPlan"))) eqn:E;
      intros [= <-]; [|contradiction].
    apply andb_true_iff in E as [E E2]. apply andb_true_iff in E as [_ E1].
    split; [now apply (object _ _ E1)|].
    intros k [<-|[<-|[]]]; (split; [now apply truthy_get_has|assumption]).
  - intros a. unfold findTopCompetitorArticles.
    destruct (generateContent _) as [response|e]; [|discriminate]. cbn [bind].
    fold (parsed response).
    destruct (truthy (parsed response) && isArray (parsed response)) eqn:E;
      intros [= <-]; [|contradiction].
    apply andb_true_iff in E as [_ E].
    destruct (parsed response); try discriminate. now eexists.
  - intros a. unfold generateFullArticle.
    destruct (generateContent _) as [[[|c text]|]|e]; try discriminate;
      cbn [bind text_or_null]; intros [= <-]; try contradiction. now eexists _, _.
  - intros a b. unfold reviseFullArticle.
    destruct (generateContent _) as [[[|c text]|]|e]; try discriminate;
      cbn [bind text_or_null]; intros [= <-]; try contradiction. now eexists _, _.
Qed.

End StageFacts.

(** ** Fences, beyond the frozen statement *)

Section LastCharacter.
Import Js.

(** The last character of a value belongs to every class [P] that holds the
    closing brace, bracket and quotation mark, the letters e and l that end
    the three keywords, and the digits. *)
Variable P : N -> Prop.
Hypothesis P_brace : P 125.
Hypothesis P_bracket : P 93.
Hypothesis P_quote : P 34.
Hypothesis P_e : P 101.
Hypothesis P_l : P 108.
Hypothesis P_digit : forall d, is_digit d = true -> P d.

Lemma keyword_last kw v s w r c pre :
  lit kw = pre ++ [c] -> P c ->
  parse_keyword kw v s = Some (w, r) -> exists x, P x /\ suffix_of (x :: r) s.
Proof.
  intros Hk Hc. unfold parse_keyword.
  destruct (strip_prefix (lit kw) s) as [r'|] eqn:E; [|discriminate].
  intros [= <- <-]. apply strip_prefix_split in E.
  exists c. split; [exact Hc|]. exists pre.
  rewrite E, Hk, <- app_assoc. reflexivity.
Qed.

Lemma value_last f s v r :
  parse_value f s = Some (v, r) -> exists x, P x /\ suffix_of (x :: r) s.
Proof.
  destruct f as [|f]; [discriminate|].
  destruct s as [|c s]; [discriminate|]. cbn [parse_value].
  destruct (c =? 123).
  { pose proof (skip_ws_suffix s) as Hs.
    destruct (skip_ws s) as [|c1 r1]; [discriminate|].
    destruct (N.eqb_spec c1 125) as [->|_].
    - intros [= <- <-]. exists 125. split; [exact P_brace|].
      eapply suffix_of_trans; [exact Hs | apply suffix_of_tail].
    - destruct (parse_members f (c1 :: r1)) as [[ms rest]|] eqn:E; [|discriminate].
      intros [= <- <-]. exists 125. split; [exact P_brace|].
      eapply suffix_of_trans; [exact (proj2 (proj2 (parse_end_all f)) _ _ _ E)|].
      eapply suffix_of_trans; [exact Hs | apply suffix_of_tail]. }
  destruct (c =? 91).
  { pose proof (skip_ws_suffix s) as Hs.
    destruct (skip_ws s) as [|c1 r1]; [discriminate|].
    destruct (N.eqb_spec c1 93) as [->|_].
    - intros [= <- <-]. exists 93. split; [exact P_bracket|].
      eapply suffix_of_trans; [exact Hs | apply suffix_of_tail].
    - destruct (parse_elements f (c1 :: r1)) as [[vs rest]|] eqn:E; [|discriminate].
      intros [= <- <-]. exists 93. split; [exact P_bracket|].
      eapply suffix_of_trans; [exact (proj1 (proj2 (parse_end_all f)) _ _ _ E)|].
      eapply suffix_of_trans; [exact Hs | apply suffix_of_tail]. }
  destruct (c =? 34).
  { destruct (parse_chars s) as [[cs rest]|] eqn:E; [|discriminate].
    intros [= <- <-]. exists 34. split; [exact P_quote|].
    eapply suffix_of_trans; [exact (parse_chars_end _ _ _ E) | apply suffix_of_tail]. }
  destruct (c =? 116).
  { apply (keyword_last _ _ _ _ _ 101 (lit "tru")); [reflexivity|exact P_e]. }
  destruct (c =? 102).
  { apply (keyword_last _ _ _ _ _ 101 (lit "fals")); [reflexivity|exact P_e]. }
  destruct (c =? 110).
  { apply (keyword_last _ _ _ _ _ 108 (lit "nul")); [reflexivity|exact P_l]. }
  destruct (parse_number (c :: s)) as [[n rest]|] eqn:E; [|discriminate].
  intros [= <- <-]. cbn [parse_number] in E.
  assert (H : after_digit rest (c :: s)).
  { destruct (c =? 45).
    - eapply after_digit_trans; [exact (parse_unsigned_end _ _ _ _ E) | apply suffix_of_tail].
    - exact (parse_unsigned_end _ _ _ _ E). }
  destruct H as (d & Hd & Hs). exists d. split; [now apply P_digit|exact Hs].
Qed.

End LastCharacter.

Section FenceEdges.
Import Js Api.

Lemma valid_head s v :
  JSON_parse s = Some v -> exists a s', s = a :: s' /\ a <> 96.
Proof.
  intros H. apply JSON_parse_inv in H as (c & body & rest & Hs & _ & Hb & _).
  destruct s as [|a s]; [discriminate|]. exists a, s. split; [reflexivity|].
  intros ->. rewrite skip_ws_fixed in Hs by reflexivity.
  injection Hs as <- _. contradiction.
Qed.

Lemma no_open_fence a s : a <> 96 -> strip_prefix fence_open (a :: s) = None.
Proof.
  intros Ha. unfold fence_open. change (lit "```json") with (96 :: lit "``json").
  cbn [strip_prefix]. destruct (N.eqb_spec 96 a) as [<-|]; [contradiction|reflexivity].
Qed.

Lemma valid_no_open_fence s v : JSON_parse s = Some v -> strip_prefix fence_open s = None.
Proof.
  intros H. destruct (valid_head _ _ H) as (a & s' & -> & Ha). now apply no_open_fence.
Qed.

Lemma valid_no_close_fence s v : JSON_parse s = Some v -> strip_closing_fence s = s.
Proof.
  intros H. pose proof (strip_fences_valid _ _ H) as E.
  unfold strip_fences in E. now rewrite (valid_no_open_fence _ _ H) in E.
Qed.

Lemma skip_ws_idem s : skip_ws (skip_ws s) = skip_ws s.
Proof.
  induction s as [|a s IH]; simpl; [reflexivity|].
  destruct (is_json_ws a) eqn:E; [exact IH|]. simpl. now rewrite E.
Qed.

Lemma JSON_parse_skip s : JSON_parse (skip_ws s) = JSON_parse s.
Proof. unfold JSON_parse, parse_text. now rewrite skip_ws_idem. Qed.

Lemma JSON_parse_padded s lead trail v :
  forallb is_json_ws lead = true -> forallb is_json_ws trail = true ->
  JSON_parse s = Some v -> JSON_parse (lead ++ s ++ trail) = Some v.
Proof.
  intros Hl Ht H.
  destruct (JSON_parse_inv _ _ H) as (c & body & rest & Hs & _).
  rewrite <- JSON_parse_skip.
  rewrite (skip_ws_app_nil _ _ (skip_ws_gap _ Hl)), (skip_ws_app _ trail _ _ Hs).
  change (c :: body ++ trail) with ((c :: body) ++ trail).
  apply JSON_parse_trailing; [exact Ht | exact (skip_ws_head _ _ _ Hs)|].
  rewrite <- Hs. now rewrite JSON_parse_skip.
Qed.

(** X3: half a fence is removed as well: a text that JSON.parse accepts gives
    its value when only the opening marker (with any white space after it)
    precedes it, and when only the closing marker (with any JSON whitespace
    before it) follows it. *)
Theorem half_fence_round_trip (s gap : jstring) (v : value) :
  JSON_parse s = Some v ->
  (forallb is_js_space gap = true ->
   safeJsonParse (fence_open ++ gap ++ s) = v) /\
  (forallb is_json_ws gap = true ->
   safeJsonParse (s ++ gap ++ fence_close) = v).
Proof.
  intros H.
  destruct (JSON_parse_inv _ _ H) as (c & body & rest & Hs & Hc & _).
  split; intros Hg; unfold safeJsonParse, strip_fences.
  - rewrite strip_prefix_self, (drop_spaces_gap _ _ Hg).
    rewrite (drop_spaces_skip_ws _ _ _ Hs Hc), <- Hs.
    assert (Hv : JSON_parse (skip_ws s) = Some v) by now rewrite JSON_parse_skip.
    now rewrite (valid_no_close_fence _ _ Hv), Hv.
  - assert (Hp : JSON_parse (s ++ gap) = Some v).
    { apply (JSON_parse_padded s [] gap v); auto. }
    assert (strip_prefix fence_open (s ++ gap ++ fence_close) = None) as ->.
    { destruct (valid_head _ _ H) as (a & s' & -> & Ha). now apply no_open_fence. }
    rewrite app_assoc, strip_closing_fence_app. now rewrite Hp.
Qed.

Lemma half_fence_round_trip_witness :
  JSON_parse (lit "[1]") = Some (VArr [VNum {| neg := false; mant := 1; exp10 := 0 |}]) /\
  safeJsonParse (fence_open ++ [10] ++ lit "[1]")
  = VArr [VNum {| neg := false; mant := 1; exp10 := 0 |}].
Proof.
  split; [reflexivity|].
  apply (proj1 (half_fence_round_trip (lit "[1]") [10]
                  (VArr [VNum {| neg := false; mant := 1; exp10 := 0 |}]) eq_refl)).
  reflexivity.
Defined.

Lemma digit_not_ws d : is_digit d = true -> is_json_ws d = false.
Proof.
  intros Hd. destruct (is_json_ws d) eqn:Ew; [|reflexivity].
  apply json_ws_is_space in Ew. now rewrite (proj1 (digit_not_space d Hd)) in Ew.
Qed.

(** Read from their ends, two texts that agree cannot have whitespace and
    then a backtick in one, and whitespace and then a character that is
    neither in the other. *)
Lemma ends_differ x (t r q q' : jstring) :
  is_json_ws x = false -> x <> 96 ->
  forallb is_json_ws t = true -> forallb is_json_ws r = true ->
  t ++ 96 :: q <> r ++ x :: q'.
Proof.
  intros Hx1 Hx2. revert r. induction t as [|a t IH]; intros r Ht Hr Hw.
  - destruct r as [|b r]; cbn in Hw.
    + injection Hw as Hw _. now subst x.
    + injection Hw as Hw _. subst b. cbn in Hr. discriminate.
  - destruct r as [|b r]; cbn in Hw.
    + injection Hw as Hw _. subst a. cbn in Ht. rewrite Hx1 in Ht. discriminate.
    + injection Hw as _ Hw. cbn in Ht, Hr.
      apply andb_true_iff in Ht as [_ Ht]. apply andb_true_iff in Hr as [_ Hr].
      exact (IH _ Ht Hr Hw).
Qed.

Lemma forallb_rev (f : N -> bool) l : forallb f l = true -> forallb f (rev l) = true.
Proof.
  rewrite !forallb_forall. intros H y Hy. apply H. now apply in_rev.
Qed.

(** No text that ends in a backtick followed by JSON whitespace parses. *)
Lemma backtick_then_space_rejected p trail :
  forallb is_json_ws trail = true -> JSON_parse (p ++ 96 :: trail) = None.
Proof.
  intros Ht. destruct (JSON_parse (p ++ 96 :: trail)) as [v|] eqn:E; [|reflexivity].
  exfalso.
  apply JSON_parse_inv in E as (c & body & rest & Hs & _ & _ & Hp & Hr).
  destruct (value_last (fun x => is_json_ws x = false /\ x <> 96)
              ltac:(now split) ltac:(now split) ltac:(now split)
              ltac:(now split) ltac:(now split)
              (fun d Hd => conj (digit_not_ws d Hd) (proj2 (digit_not_space d Hd)))
              _ _ _ _ Hp)
    as (x & [Hx1 Hx2] & [pre Hpre]).
  destruct (skip_ws_suffix (p ++ 96 :: trail)) as [w Hw]. rewrite Hs, Hpre in Hw.
  apply skip_ws_all in Hr.
  apply (f_equal (@rev N)) in Hw. rewrite !rev_app_distr in Hw. cbn [rev] in Hw.
  rewrite <- !app_assoc in Hw. cbn [app] in Hw.
  exact (ends_differ x _ _ _ _ Hx1 Hx2 (forallb_rev _ _ Ht) (forallb_rev _ _ Hr) Hw).
Qed.

Lemma ends_in_space_kept u trail :
  trail <> [] -> forallb is_json_ws trail = true ->
  strip_closing_fence (u ++ trail) = u ++ trail.
Proof.
  intros Hn Ht. apply strip_closing_fence_id. intros pre E.
  apply (f_equal (@rev N)) in E. rewrite !rev_app_distr in E.
  destruct (rev trail) as [|z zs] eqn:Er.
  - apply (f_equal (@rev N)) in Er. rewrite rev_involutive in Er. contradiction.
  - cbn in E. injection E as E _.
    assert (Hz : In z trail) by (apply in_rev; rewrite Er; now left).
    rewrite forallb_forall in Ht. specialize (Ht _ Hz). now subst z.
Qed.

Lemma drop_spaces_before c u t :
  is_js_space c = false -> exists u', drop_spaces (u ++ c :: t) = u' ++ c :: t.
Proof.
  intros Hc. induction u as [|a u IH]; cbn.
  - rewrite Hc. now exists [].
  - destruct (is_js_space a); [exact IH|]. now exists (a :: u).
Qed.

(** What follows an opening fence still holds the last backtick of a text
    that ends in a backtick and whitespace. *)
Lemma after_open_fence m trail r :
  trail <> [] -> forallb is_json_ws trail = true ->
  fence_open ++ r = m ++ 96 :: trail -> exists r0, r = r0 ++ 96 :: trail.
Proof.
  intros Hn Ht E. apply app_eq_app in E as [l [[E1 E2]|[E1 E2]]].
  - destruct l as [|a l]; [exists []; now rewrite E2|].
    cbn in E2. injection E2 as <- E2. exfalso.
    apply (f_equal (@rev N)) in E1. rewrite rev_app_distr in E1. cbn [rev] in E1.
    destruct (rev l) as [|z zs] eqn:El; cbn in E1; [discriminate|].
    injection E1 as E1 _. subst z.
    assert (Hz : In 110 trail).
    { rewrite E2. apply in_or_app. left. apply in_rev. rewrite El. now left. }
    rewrite forallb_forall in Ht. specialize (Ht _ Hz). discriminate.
  - now exists l.
Qed.

(** X4: a closing fence that is followed by whitespace, a final line break
    for one, is not removed, and no such text parses, with or without an
    opening fence: [safeJsonParse] gives null and so does every structured
    stage. *)
Theorem fence_then_whitespace_is_null (text trail : jstring) :
  trail <> [] -> forallb is_json_ws trail = true ->
  safeJsonParse (text ++ fence_close ++ trail) = VNull /\
  unusable (Some (text ++ fence_close ++ trail)).
Proof.
  intros Hn Ht.
  assert (E : exists p, strip_fences (text ++ fence_close ++ trail) = p ++ 96 :: trail).
  { assert (Ec : text ++ fence_close ++ trail = (text ++ [96; 96]) ++ 96 :: trail)
      by now rewrite <- app_assoc.
    unfold strip_fences.
    destruct (strip_prefix fence_open (text ++ fence_close ++ trail)) as [r|] eqn:Ep.
    - apply strip_prefix_split in Ep. rewrite Ec in Ep. symmetry in Ep.
      destruct (after_open_fence _ _ _ Hn Ht Ep) as [r0 ->].
      destruct (drop_spaces_before 96 r0 trail eq_refl) as [u' ->].
      change (u' ++ 96 :: trail) with (u' ++ [96] ++ trail).
      rewrite app_assoc, (ends_in_space_kept _ _ Hn Ht), <- app_assoc.
      now exists u'.
    - rewrite Ec. change ((text ++ [96; 96]) ++ 96 :: trail)
        with ((text ++ [96; 96]) ++ [96] ++ trail).
      rewrite app_assoc, (ends_in_space_kept _ _ Hn Ht), <- app_assoc.
      now eexists. }
  destruct E as [p E].
  pose proof (backtick_then_space_rejected p _ Ht) as Hr. rewrite <- E in Hr.
  split.
  - unfold safeJsonParse. now rewrite Hr.
  - right; right. now eexists.
Qed.

Lemma fence_then_whitespace_is_null_witness :
  [10] <> [] /\
  safeJsonParse (fence_open ++ [10] ++ lit "[1]" ++ [10] ++ fence_close ++ [10]) = VNull.
Proof.
  split; [discriminate|].
  apply (proj1 (fence_then_whitespace_is_null (fence_open ++ [10] ++ lit "[1]" ++ [10])
                  [10] ltac:(discriminate) eq_refl)).
Defined.

(** X5: a fence without the json tag is not removed: a text that starts
    with a backtick and not with the opening marker gives null, whatever
    follows. *)
Theorem untagged_fence_is_null (text : jstring) :
  strip_prefix fence_open (96 :: text) = None ->
  safeJsonParse (96 :: text) = VNull /\ unusable (Some (96 :: text)).
Proof.
  intros H.
  assert (E : JSON_parse (strip_fences (96 :: text)) = None).
  { unfold strip_fences. rewrite H. cbn [strip_closing_fence].
    destruct (jstring_eqb (96 :: text) fence_close); reflexivity. }
  split.
  - unfold safeJsonParse. now rewrite E.
  - right; right. now eexists.
Qed.

Lemma untagged_fence_is_null_witness :
  strip_prefix fence_open (fence_close ++ [10] ++ lit "[1]" ++ [10] ++ fence_close) = None /\
  safeJsonParse (fence_close ++ [10] ++ lit "[1]" ++ [10] ++ fence_close) = VNull.
Proof.
  split; [reflexivity|].
  apply (proj1 (untagged_fence_is_null (lit "``" ++ [10] ++ lit "[1]" ++ [10] ++ fence_close)
                  eq_refl)).
Defined.

End FenceEdges.

(** ** The handler, beyond the frozen statements *)

Section HandlerMoreFacts.
Import Js Api.

Variable cannot_read : value -> jstring -> jstring.

Lemma member_defined params k :
  nullish params = false -> member cannot_read params k = Returns (get params k).
Proof. destruct params; try discriminate; reflexivity. Qed.

Lemma member_nullish params k :
  nullish params = true ->
  member cannot_read params k = Throws (JsError (cannot_read params k)).
Proof. destruct params; try discriminate; reflexivity. Qed.

(** The switch, with [params] that can be read: the stage of the request. *)
Lemma dispatch_request g operation params r :
  nullish params = false ->
  request_for operation params = Some r ->
  dispatch g cannot_read operation params = Some (stage_of g r).
Proof.
  intros Hn. unfold request_for, dispatch.
  repeat match goal with
         | |- context [op_is operation ?n] => destruct (op_is operation n)
         end;
    intros [= <-]; rewrite ?(member_defined _ _ Hn); reflexivity.
Qed.

(** The switch, with [params] that cannot be read: a TypeError, before the
    generation service is asked. *)
Lemma dispatch_nullish g operation params r :
  nullish params = true ->
  request_for operation params = Some r ->
  exists k, dispatch g cannot_read operation params
            = Some (Throws (JsError (cannot_read params k))).
Proof.
  intros Hn. unfold request_for, dispatch.
  repeat match goal with
         | |- context [op_is operation ?n] => destruct (op_is operation n)
         end;
    intros [= <-]; rewrite ?(member_nullish _ _ Hn); eexists; reflexivity.
Qed.

Lemma dispatch_none g operation params :
  request_for operation params = None ->
  dispatch g cannot_read operation params = None.
Proof.
  unfold request_for, dispatch.
  repeat match goal with
         | |- context [op_is operation ?n] => destruct (op_is operation n)
         end; try discriminate. reflexivity.
Qed.

Lemma op_is_name operation name :
  op_is operation name = true -> operation = VStr (lit name).
Proof.
  unfold op_is, strict_eq_string. destruct operation; try discriminate.
  intros H. now apply jstring_eqb_eq in H as ->.
Qed.

Lemma request_not_verify operation params r :
  request_for operation params = Some r -> op_is operation "verifyPassword" = false.
Proof.
  intros H. destruct (op_is operation "verifyPassword") eqn:E; [|reflexivity].
  apply op_is_name in E. subst operation. vm_compute in H. discriminate.
Qed.

Lemma stage_throws g r e : g r = Throws e -> stage_of g r = Throws e.
Proof.
  destruct r; cbn [stage_of];
    unfold analyzeKeywords, findTopCompetitorArticles, createCompositeArticle,
      generateFullArticle, generateSocialMediaPosts, reviseFullArticle,
      analyzePerformanceData; now intros ->.
Qed.

Lemma stage_returns g r response :
  g r = Returns response ->
  exists data, stage_of g r = Returns data /\
               (data = VNull \/ data = parsed response \/ data = text_or_null response).
Proof.
  destruct r; cbn [stage_of];
    unfold analyzeKeywords, findTopCompetitorArticles, createCompositeArticle,
      generateFullArticle, generateSocialMediaPosts, reviseFullArticle,
      analyzePerformanceData; intros ->; cbn [bind]; fold (parsed response);
    eexists; (split; [reflexivity|]);
    try (now right; right);
    match goal with
    | |- (if ?b then _ else _) = _ \/ _ => destruct b; [right; left|left]; reflexivity
    end.
Qed.

Lemma handler_post g environment req :
  method req = lit "POST" -> nullish (body req) = false ->
  handler g cannot_read environment req
  = if op_is (get (body req) (lit "operation")) "verifyPassword"
    then verifyPassword environment (get (body req) (lit "params"))
    else if unset (API_KEY environment) then
      Response 500
        (ErrorBody (lit "API_KEY environment variable not set on the server"))
    else
      match dispatch g cannot_read (get (body req) (lit "operation"))
              (get (body req) (lit "params")) with
      | None => Response 400 (ErrorBody (lit "Invalid operation specified."))
      | Some (Returns data) => Response 200 (DataBody data)
      | Some (Throws e) =>
          Response 500
            (ErrorBody (lit "An internal server error occurred: " ++ message_of e))
      end.
Proof.
  intros Hm Hb. unfold handler. rewrite Hm, jstring_eqb_refl. cbn [negb].
  destruct (body req); try reflexivity; discriminate.
Qed.

(** X6: for a POST of a generation operation with the credential set and
    params that can be read, the generation service decides the status: when
    it throws, 500 with the fixed prefix and the message of the exception
    (Unknown error for a thrown value that is no Error); when it answers,
    200 whatever the text is, with null as data when there is no text or the
    text is empty.  Malformed output of the service is no HTTP error. *)
Theorem oracle_decides_status
  (g : gen_request -> completion (option jstring))
  (environment : env) (req : request) (r : gen_request) :
  method req = lit "POST" ->
  unset (API_KEY environment) = false ->
  nullish (get (body req) (lit "params")) = false ->
  request_for (get (body req) (lit "operation")) (get (body req) (lit "params"))
  = Some r ->
  (forall e, g r = Throws e ->
     handler g cannot_read environment req
     = Response 500
         (ErrorBody (lit "An internal server error occurred: " ++ message_of e))) /\
  (forall response, g r = Returns response ->
     exists data,
       handler g cannot_read environment req = Response 200 (DataBody data) /\
       (data = VNull \/ data = parsed response \/ data = text_or_null response) /\
       (response = None \/ response = Some [] -> data = VNull)).
Proof.
  intros Hm Hk Hp Hr.
  assert (Hb : nullish (body req) = false).
  { destruct (body req); try reflexivity; discriminate. }
  rewrite (handler_post g _ _ Hm Hb), (request_not_verify _ _ _ Hr), Hk,
    (dispatch_request g _ _ _ Hp Hr).
  split.
  - intros e He. now rewrite (stage_throws _ _ _ He).
  - intros response He.
    destruct (stage_returns _ _ _ He) as (data & -> & Hd).
    exists data. split; [reflexivity|]. split; [exact Hd|].
    intros [->| ->]; destruct Hd as [->|[->| ->]]; reflexivity.
Qed.

Lemma request_has_body (b : value) params r :
  request_for (get b (lit "operation")) params = Some r -> nullish b = false.
Proof. destruct b; try reflexivity; intros H; vm_compute in H; discriminate. Qed.

(** X7: a generation operation whose params are undefined or null gets 500
    with the prefix and the engine's message of the TypeError for a property
    of params. *)
Theorem missing_params_is_500
  (g : gen_request -> completion (option jstring))
  (environment : env) (req : request) (r : gen_request) :
  method req = lit "POST" ->
  unset (API_KEY environment) = false ->
  nullish (get (body req) (lit "params")) = true ->
  request_for (get (body req) (lit "operation")) (get (body req) (lit "params"))
  = Some r ->
  exists k,
    handler g cannot_read environment req
    = Response 500
        (ErrorBody (lit "An internal server error occurred: "
                    ++ cannot_read (get (body req) (lit "params")) k)).
Proof.
  intros Hm Hk Hp Hr.
  rewrite (handler_post g _ _ Hm (request_has_body _ _ _ Hr)),
    (request_not_verify _ _ _ Hr), Hk.
  destruct (dispatch_nullish g _ _ _ Hp Hr) as [k ->]. now exists k.
Qed.

Lemma dispatch_without_params g g' operation params :
  nullish params = true ->
  dispatch g cannot_read operation params = dispatch g' cannot_read operation params.
Proof.
  intros Hn. unfold dispatch.
  repeat match goal with
         | |- context [op_is operation ?n] => destruct (op_is operation n)
         end; rewrite ?(member_nullish _ _ Hn); reflexivity.
Qed.

(** X8: the generation service is asked only for a POST of a recognized
    generation operation with the credential set and params that can be
    read; in every other case (another method, no body, verifyPassword, no
    credential, an operation that is not recognized, params undefined or
    null) the handler answers the same whatever the service is. *)
Theorem handler_without_oracle
  (g g' : gen_request -> completion (option jstring))
  (environment : env) (req : request) :
  method req <> lit "POST" \/
  nullish (body req) = true \/
  op_is (get (body req) (lit "operation")) "verifyPassword" = true \/
  unset (API_KEY environment) = true \/
  request_for (get (body req) (lit "operation")) (get (body req) (lit "params")) = None \/
  nullish (get (body req) (lit "params")) = true ->
  handler g cannot_read environment req = handler g' cannot_read environment req.
Proof.
  intros H.
  destruct (list_eq_dec N.eq_dec (method req) (lit "POST")) as [Hm|Hm].
  2:{ unfold handler. now rewrite !(jstring_eqb_neq _ _ Hm). }
  destruct (nullish (body req)) eqn:Hb.
  { unfold handler. rewrite Hm, jstring_eqb_refl. cbn [negb].
    destruct (body req); try discriminate; reflexivity. }
  rewrite !(handler_post _ _ _ Hm Hb).
  destruct H as [H|[H|[H|[H|[H|H]]]]]; try contradiction; try discriminate.
  - now rewrite H.
  - rewrite H. now destruct (op_is _ "verifyPassword").
  - now rewrite !(dispatch_none _ _ _ H).
  - now rewrite (dispatch_without_params g g' _ _ H).
Qed.

Lemma handler_shapes
  (g : gen_request -> completion (option jstring))
  (environment : env) (req : request) :
  (handler g cannot_read environment req = Unhandled /\
   method req = lit "POST" /\ nullish (body req) = true) \/
  (exists status p,
     handler g cannot_read environment req = Response status p /\
     In status handler_statuses /\
     (status = 200 <-> exists data, p = DataBody data)).
Proof.
  assert (err : forall status e, In status [400; 405; 500] ->
            exists st p, Response status (ErrorBody e) = Response st p /\
                         In st handler_statuses /\
                         (st = 200 <-> exists data, p = DataBody data)).
  { intros status e Hs. exists status, (ErrorBody e). split; [reflexivity|].
    split; [simpl in *; tauto|]. split.
    - intros ->. simpl in Hs. repeat destruct Hs as [Hs|Hs]; discriminate || contradiction.
    - intros [data H]. discriminate. }
  assert (dat : forall d,
            exists st p, Response 200 (DataBody d) = Response st p /\
                         In st handler_statuses /\
                         (st = 200 <-> exists data, p = DataBody data)).
  { intros d. exists 200, (DataBody d). repeat split; [now left|]. now exists d. }
  destruct (list_eq_dec N.eq_dec (method req) (lit "POST")) as [Hm|Hm].
  2:{ right. unfold handler. rewrite (jstring_eqb_neq _ _ Hm). cbn [negb].
      apply err. simpl; tauto. }
  destruct (nullish (body req)) eqn:Hb.
  { left. repeat split; try assumption. unfold handler.
    rewrite Hm, jstring_eqb_refl. cbn [negb].
    destruct (body req); try discriminate; reflexivity. }
  right. rewrite (handler_post _ _ _ Hm Hb).
  destruct (op_is _ "verifyPassword").
  { unfold verifyPassword. destruct (APP_PASSWORD environment) as [[|c pw]|];
      [apply dat| |apply dat].
    destruct (get (body req) (lit "params")); first [apply dat | apply err; simpl; tauto]. }
  destruct (unset (API_KEY environment)); [apply err; simpl; tauto|].
  destruct (dispatch _ _ _ _) as [[data|e]|];
    [apply dat | apply err; simpl; tauto | apply err; simpl; tauto].
Qed.

(** X9: the handler leaves a request unanswered only when it is a POST whose
    body is undefined or null; it answers every other request with one of
    the statuses 200, 400, 405 and 500, with {data} exactly when the status
    is 200 and with {error} otherwise. *)
Theorem handler_status_codes
  (g : gen_request -> completion (option jstring))
  (environment : env) (req : request) :
  (handler g cannot_read environment req = Unhandled /\
   method req = lit "POST" /\ nullish (body req) = true) \/
  (exists status p,
     handler g cannot_read environment req = Response status p /\
     In status handler_statuses /\
     (status = 200 <-> exists data, p = DataBody data)).
Proof. apply handler_shapes. Qed.

(** X10: with a secret configured, verifyPassword answers 200 with success
    true exactly when the password supplied is the string equal to the
    secret (a number, an object or a missing password never is), and 500
    when params are undefined or null; the generation credential and the
    generation service play no part. *)
Theorem verifyPassword_verdict
  (g : gen_request -> completion (option jstring))
  (environment : env) (req : request) (c : N) (secret : jstring) :
  method req = lit "POST" ->
  op_is (get (body req) (lit "operation")) "verifyPassword" = true ->
  APP_PASSWORD environment = Some (c :: secret) ->
  (nullish (get (body req) (lit "params")) = true ->
   handler g cannot_read environment req
   = Response 500 (ErrorBody (lit "Internal server error during authentication."))) /\
  (nullish (get (body req) (lit "params")) = false ->
   exists verdict,
     handler g cannot_read environment req = Response 200 (DataBody (success verdict)) /\
     (verdict = true <->
      get (get (body req) (lit "params")) (lit "password") = VStr (c :: secret))).
Proof.
  intros Hm Ho Hs.
  assert (Hb : nullish (body req) = false).
  { destruct (body req); try reflexivity; discriminate. }
  rewrite (handler_post _ _ _ Hm Hb), Ho. unfold verifyPassword. rewrite Hs.
  split; intros Hp.
  - destruct (get (body req) (lit "params")); try discriminate; reflexivity.
  - exists (strict_eq_string (get (get (body req) (lit "params")) (lit "password"))
              (c :: secret)).
    split; [destruct (get (body req) (lit "params")); try discriminate; reflexivity|].
    unfold strict_eq_string.
    destruct (get (get (body req) (lit "params")) (lit "password"));
      try (split; discriminate).
    rewrite jstring_eqb_eq. split; congruence.
Qed.

End HandlerMoreFacts.

Section HandlerMoreExamples.
Import Js Api.

Lemma oracle_decides_status_witness :
  handler silent terse
    {| APP_PASSWORD := None; API_KEY := Some (lit "key") |}
    {| method := lit "POST";
       body := VObj [(lit "operation", VStr (lit "findTopCompetitorArticles"));
                     (lit "params", VObj [(lit "topic", VStr (lit "shoes"))])] |}
  = Response 200 (DataBody VNull).
Proof.
  destruct (proj2 (oracle_decides_status terse silent
             {| APP_PASSWORD := None; API_KEY := Some (lit "key") |}
             {| method := lit "POST";
                body := VObj [(lit "operation", VStr (lit "findTopCompetitorArticles"));
                              (lit "params", VObj [(lit "topic", VStr (lit "shoes"))])] |}
             (ReqFindTopCompetitorArticles (VStr (lit "shoes")))
             eq_refl eq_refl eq_refl eq_refl) (Some []) eq_refl)
    as (data & E & _ & Hd).
  rewrite E. now rewrite (Hd (or_intror eq_refl)).
Defined.

Lemma missing_params_is_500_witness :
  exists k,
    handler silent terse {| APP_PASSWORD := None; API_KEY := Some (lit "key") |}
      {| method := lit "POST";
         body := VObj [(lit "operation", VStr (lit "generateFullArticle"))] |}
    = Response 500
        (ErrorBody (lit "An internal server error occurred: " ++ terse VUndefined k)).
Proof.
  apply (missing_params_is_500 terse silent
           {| APP_PASSWORD := None; API_KEY := Some (lit "key") |}
           {| method := lit "POST";
              body := VObj [(lit "operation", VStr (lit "generateFullArticle"))] |}
           (ReqGenerateFullArticle VUndefined)); reflexivity.
Defined.

Lemma handler_without_oracle_witness :
  handler silent terse {| APP_PASSWORD := None; API_KEY := None |}
    {| method := lit "POST";
       body := VObj [(lit "operation", VStr (lit "generateFullArticle"))] |}
  = handler (respond (lit "text")) terse {| APP_PASSWORD := None; API_KEY := None |}
      {| method := lit "POST";
         body := VObj [(lit "operation", VStr (lit "generateFullArticle"))] |}.
Proof.
  apply handler_without_oracle. right; right; right; left. reflexivity.
Defined.

Lemma verifyPassword_verdict_witness :
  exists verdict,
    handler silent terse {| APP_PASSWORD := Some (lit "secret"); API_KEY := None |}
      (login (lit "secret"))
    = Response 200 (DataBody (success verdict)) /\
    (verdict = true <->
     get (get (body (login (lit "secret"))) (lit "params")) (lit "password")
     = VStr (lit "secret")).
Proof.
  apply (proj2 (verifyPassword_verdict terse silent
                  {| APP_PASSWORD := Some (lit "secret"); API_KEY := None |}
                  (login (lit "secret")) 115 (lit "ecret") eq_refl eq_refl eq_refl)).
  reflexivity.
Defined.

End HandlerMoreExamples.

(** ** From the components to the handler and back *)

Section WireFacts.
Import Js Api Service.

Variable g : gen_request -> completion (option jstring).
Variable cannot_read : value -> jstring -> jstring.
Variable environment : env.

Lemma lookup_kept (q : jstring -> bool) k ms :
  lookup k (filter (fun kv => q (fst kv)) ms) = if q k then lookup k ms else None.
Proof.
  induction ms as [|[k' v] ms IH]; [now destruct (q k)|].
  cbn [filter fst lookup].
  assert (same : jstring_eqb k k' = true -> q k = q k').
  { intros E. apply jstring_eqb_eq in E. now subst. }
  destruct (q k') eqn:Q'; cbn [lookup]; rewrite IH; destruct (q k) eqn:Q.
  - reflexivity.
  - destruct (jstring_eqb k k'); [|reflexivity].
    specialize (same eq_refl). congruence.
  - destruct (lookup k ms); [reflexivity|].
    destruct (jstring_eqb k k'); [|reflexivity].
    specialize (same eq_refl). congruence.
  - reflexivity.
Qed.

Lemma lookup_reread k ms :
  lookup k (map (fun kv => let '(k, x) := kv in (k, Wire.reread x)) ms)
  = option_map Wire.reread (lookup k ms).
Proof.
  induction ms as [|[k' v] ms IH]; [reflexivity|].
  cbn [map lookup]. rewrite IH.
  destruct (lookup k ms); [reflexivity|].
  now destruct (jstring_eqb k k').
Qed.

(** Reading a member of what arrived gives what arrives for the member. *)
Lemma get_reread v k : get (Wire.reread v) k = Wire.reread (get v k).
Proof.
  destruct v as [| |b|n|t|items|ms]; try reflexivity.
  - cbn [Wire.reread]. unfold Wire.reread_number.
    destruct (Wire.overflows n); [reflexivity|].
    now destruct (rounds_to_zero n).
  - cbn [Wire.reread get]. unfold Wire.present.
    rewrite (lookup_kept
               (fun k => match lookup k (map (fun kv => let '(k, x) := kv in
                                                        (k, Wire.reread x)) ms) with
                         | Some VUndefined => false
                         | _ => true
                         end)).
    rewrite lookup_reread.
    destruct (lookup k ms) as [w|]; [|reflexivity].
    cbn [option_map]. now destruct (Wire.reread w).
Qed.

Lemma reread_texts l : Wire.reread (VArr (map VStr l)) = VArr (map VStr l).
Proof.
  cbn [Wire.reread]. f_equal. rewrite map_map.
  induction l as [|t l IH]; [reflexivity|]. cbn [map]. now rewrite IH.
Qed.

Lemma reread_object ms : exists ms', Wire.reread (VObj ms) = VObj ms'.
Proof. now eexists. Qed.

Lemma wire_operation call :
  get (body (Wire.request_of call)) (lit "operation")
  = VStr (lit (Wire.operation_of call)).
Proof. unfold Wire.request_of. cbn [body]. rewrite get_reread. reflexivity. Qed.

Lemma wire_params call :
  get (body (Wire.request_of call)) (lit "params")
  = Wire.reread (Wire.params_of call).
Proof. unfold Wire.request_of. cbn [body]. rewrite get_reread. reflexivity. Qed.

Lemma wire_params_defined call : nullish (Wire.reread (Wire.params_of call)) = false.
Proof. destruct call; reflexivity. Qed.

Lemma wire_request_for call :
  request_for (VStr (lit (Wire.operation_of call))) (Wire.reread (Wire.params_of call))
  = gen_request_of call.
Proof.
  unfold request_for. rewrite !get_reread.
  destruct call as [pw|u urls|t|t a|d|a|a r|u v]; cbn [gen_request_of];
    try rewrite <- (reread_texts urls); reflexivity.
Qed.

Lemma wire_verify call :
  op_is (VStr (lit (Wire.operation_of call))) "verifyPassword"
  = match call with CallVerifyPassword _ => true | _ => false end.
Proof. destruct call; reflexivity. Qed.

(** What the handler answers to a request of [callApi]. *)
Lemma handler_on_wire call :
  handler g cannot_read environment (Wire.request_of call)
  = match call with
    | CallVerifyPassword password =>
        Response 200 (DataBody (success (opens environment password)))
    | _ =>
        if unset (API_KEY environment) then
          Response 500
            (ErrorBody (lit "API_KEY environment variable not set on the server"))
        else
          match gen_request_of call with
          | Some r =>
              match stage_of g r with
              | Returns data => Response 200 (DataBody data)
              | Throws e =>
                  Response 500
                    (ErrorBody (lit "An internal server error occurred: "
                                ++ message_of e))
              end
          | None => Response 400 (ErrorBody (lit "Invalid operation specified."))
          end
    end.
Proof.
  rewrite (handler_post cannot_read g environment (Wire.request_of call) eq_refl eq_refl).
  rewrite wire_operation, wire_params, wire_verify.
  destruct call;
    try (destruct (unset (API_KEY environment)); [reflexivity|];
         erewrite dispatch_request;
           [reflexivity | apply wire_params_defined | apply wire_request_for]).
  unfold verifyPassword, opens.
  destruct (APP_PASSWORD environment) as [[|c secret]|]; reflexivity.
Qed.

Lemma data_read d :
  get (Wire.reread (Wire.body_of (DataBody d))) (lit "data") = Wire.reread d.
Proof. rewrite get_reread. reflexivity. Qed.

Lemma received (call : api_call) :
  deployed g cannot_read environment call
  = Returns
      match call, gen_request_of call with
      | CallVerifyPassword password, _ => success (opens environment password)
      | _, Some r =>
          if unset (API_KEY environment) then VNull
          else Wire.reread (or_null (stage_of g r))
      | _, None => VNull
      end.
Proof.
  unfold deployed, service, callApi, Wire.transport. rewrite handler_on_wire.
  destruct call; try reflexivity;
    cbn [gen_request_of]; destruct (unset (API_KEY environment)); try reflexivity;
    match goal with
    | |- context [stage_of g ?r] => destruct (stage_of g r) as [data|e]
    end; try reflexivity;
    cbn [or_null]; rewrite <- (data_read data); reflexivity.
Qed.

(** X11: what a component receives from a call of the service, with the
    handler at the other end: for verifyPassword the verdict; for a
    generation call what the JSON text of the answer carries of the result
    of its stage function, run on what the JSON text of the request carries
    of the arguments sent (a number that is not finite arrives as null, a
    member that is undefined does not arrive), and null in place of every
    error answer, whether the credential is not set (500) or the stage threw
    (500).  Reading a member of what arrived gives what arrives for that
    member of the result. *)
Theorem component_receives (call : api_call) :
  deployed g cannot_read environment call
  = Returns
      match call, gen_request_of call with
      | CallVerifyPassword password, _ => success (opens environment password)
      | _, Some r =>
          if unset (API_KEY environment) then VNull
          else Wire.reread (or_null (stage_of g r))
      | _, None => VNull
      end /\
  (forall v k, get (Wire.reread v) k = Wire.reread (get v k)) /\
  (forall n, truthy (Wire.reread (VNum n)) = true ->
     Wire.overflows n = false /\ Wire.reread (VNum n) = VNum n).
Proof.
  split; [apply received|]. split; [apply get_reread|].
  intros n. cbn [Wire.reread]. unfold Wire.reread_number.
  destruct (Wire.overflows n); [discriminate|].
  destruct (rounds_to_zero n) eqn:Z; [|now split].
  cbn. discriminate.
Qed.

(** X12: submitting the modal, handler at the other end: one verifyPassword
    request is sent; the login succeeds (onSuccess: the App is authenticated
    and the session item is written) exactly when a secret is configured and
    the password typed equals it; otherwise nothing of the App changes and
    the wrong-password message is set; loading is off afterwards. *)
Theorem modal_login (s : PasswordModal.state) :
  PasswordModal.isLoading s = false ->
  Ui.exec (PasswordModal.handleSubmit (deployed g cannot_read environment) s) s
  = ({| PasswordModal.password := PasswordModal.password s;
        PasswordModal.error :=
          if opens environment (PasswordModal.password s) then None
          else Some PasswordModal.WrongPassword;
        PasswordModal.isLoading := false;
        PasswordModal.parent :=
          if opens environment (PasswordModal.password s)
          then Session.handleLoginSuccess (PasswordModal.parent s)
          else PasswordModal.parent s |},
     [CallVerifyPassword (PasswordModal.password s)]).
Proof.
  intros Hl. unfold PasswordModal.handleSubmit. rewrite Hl. run_action.
  rewrite received. cbn [gen_request_of].
  destruct (opens environment (PasswordModal.password s)); reflexivity.
Qed.

End WireFacts.

Section WireExamples.
Import Js Api Service.

Lemma modal_login_witness :
  let s := {| PasswordModal.password := lit "secret";
              PasswordModal.error := None;
              PasswordModal.isLoading := false;
              PasswordModal.parent := Session.load None |} in
  Session.render
    (PasswordModal.parent
       (fst (Ui.exec
               (PasswordModal.handleSubmit
                  (deployed silent terse
                     {| APP_PASSWORD := Some (lit "secret"); API_KEY := None |}) s) s)))
  = Session.ShowPreparationStep.
Proof.
  intros s.
  rewrite (modal_login silent terse
             {| APP_PASSWORD := Some (lit "secret"); API_KEY := None |} s eq_refl).
  reflexivity.
Defined.

Lemma component_receives_witness :
  exists data,
    deployed (respond (jlit "{'keywordAnalysis': 1e999, 'summary': 's'}")) terse
      {| APP_PASSWORD := None; API_KEY := Some (lit "key") |}
      (CallAnalyzeKeywords (lit "https://a.example") [])
    = Returns data /\
    get data (lit "keywordAnalysis") = VNull /\
    get data (lit "summary") = VStr (lit "s").
Proof.
  eexists. split.
  - apply (proj1 (component_receives
                    (respond (jlit "{'keywordAnalysis': 1e999, 'summary': 's'}")) terse
                    {| APP_PASSWORD := None; API_KEY := Some (lit "key") |}
                    (CallAnalyzeKeywords (lit "https://a.example") []))).
  - split; vm_compute; reflexivity.
Defined.

End WireExamples.

(** ** The session *)

Section SessionFacts.
Import Js Session.

Lemma run_app evs1 evs2 s : run (evs1 ++ evs2) s = run evs2 (run evs1 s).
Proof. unfold run. apply fold_left_app. Qed.

Lemma locked_step ev s :
  ev <> LoginSucceeded ->
  App.isAuthenticated (app s) = false -> remembered (stored s) = false ->
  App.isAuthenticated (app (step ev s)) = false /\
  remembered (stored (step ev s)) = false.
Proof.
  intros Hev Ha Hr. destruct ev; cbn [step]; try contradiction.
  - unfold load, onMount. cbn [stored]. rewrite Hr. now split.
  - now split.
  - now split.
Qed.

(** X13: in a session whose storage does not hold the item, the App shows
    the password modal after loading and after any events, reloads included,
    among which the modal has not reported success: no step is reachable by
    navigation or by a draft alone. *)
Theorem gate_until_login (item : option jstring) (evs : list event) :
  remembered item = false ->
  ~ In LoginSucceeded evs ->
  render (run evs (load item)) = ShowPasswordModal.
Proof.
  intros Hr Hn.
  assert (H : App.isAuthenticated (app (run evs (load item))) = false /\
              remembered (stored (run evs (load item))) = false).
  { assert (H0 : App.isAuthenticated (app (load item)) = false /\
                 remembered (stored (load item)) = false).
    { unfold load, onMount. cbn [stored]. rewrite Hr. now split. }
    revert H0 Hn. generalize (load item). unfold run.
    induction evs as [|ev evs IH]; intros s H0 Hn; [exact H0|].
    cbn [fold_left]. apply IH.
    - destruct H0 as [Ha Hs]. apply locked_step; try assumption.
      intros ->. apply Hn. now left.
    - intros Hi. apply Hn. now right. }
  unfold render. now rewrite (proj1 H).
Qed.

Lemma gate_until_login_witness :
  remembered (Some (lit "yes")) = false /\
  render (run [StepClicked App.Analysis; Reloaded; DraftCreated VNull]
            (load (Some (lit "yes"))))
  = ShowPasswordModal.
Proof.
  split; [reflexivity|].
  apply gate_until_login; [reflexivity|].
  intros [H|[H|[H|[]]]]; discriminate.
Defined.

Lemma open_step ev s :
  App.isAuthenticated (app s) = true -> remembered (stored s) = true ->
  App.isAuthenticated (app (step ev s)) = true /\
  remembered (stored (step ev s)) = true.
Proof.
  intros Ha Hr. destruct ev; cbn [step].
  - unfold load, onMount. cbn [stored]. rewrite Hr. now split.
  - now split.
  - now split.
  - now split.
Qed.

(** X14: once the modal has reported success the App stays authenticated for
    the session: after any further events, reloads of the page included, the
    session item is still there and the modal is not shown again. *)
Theorem login_lasts_the_session (s : state) (evs : list event) :
  App.isAuthenticated (app (run evs (handleLoginSuccess s))) = true /\
  remembered (stored (run evs (handleLoginSuccess s))) = true /\
  render (run evs (handleLoginSuccess s)) <> ShowPasswordModal.
Proof.
  assert (H : App.isAuthenticated (app (run evs (handleLoginSuccess s))) = true /\
              remembered (stored (run evs (handleLoginSuccess s))) = true).
  { assert (H0 : App.isAuthenticated (app (handleLoginSuccess s)) = true /\
                 remembered (stored (handleLoginSuccess s)) = true) by now split.
    revert H0. generalize (handleLoginSuccess s). unfold run.
    induction evs as [|ev evs IH]; intros t H0; [exact H0|].
    cbn [fold_left]. apply IH. now apply open_step. }
  destruct H as [Ha Hr]. repeat split; try assumption.
  unfold render. rewrite Ha. cbn [negb].
  destruct (App.currentStep _); discriminate.
Qed.

End SessionFacts.

(** ** The creation step, beyond the frozen statements *)

Section CreationMoreFacts.
Import Js Api Service Ui Creation.

Variable api : backend.

Lemma revise_done s result :
  truthy (fullArticle s) = true ->
  truthy (VStr (trim (revisionPrompt s))) = true ->
  api (CallReviseFullArticle (fullArticle s) (revisionPrompt s)) = Returns result ->
  truthy result = true ->
  exec (handleReviseArticle api s) s
  = ({| draft := draft s; fullArticle := result; socialPosts := VNull;
        isGenerating := isGenerating s; isRevising := false;
        revisionPrompt := []; error := None |},
     [CallReviseFullArticle (fullArticle s) (revisionPrompt s)]).
Proof.
  intros Ha Hp Hr Ht. unfold handleReviseArticle. rewrite Ha, Hp. run_action.
  rewrite Hr, Ht. reflexivity.
Qed.

Lemma revise_cases s :
  (truthy (fullArticle s) && truthy (VStr (trim (revisionPrompt s))) = false) \/
  (truthy (fullArticle s) = true /\ truthy (VStr (trim (revisionPrompt s))) = true /\
   failed (api (CallReviseFullArticle (fullArticle s) (revisionPrompt s)))) \/
  (truthy (fullArticle s) = true /\ truthy (VStr (trim (revisionPrompt s))) = true /\
   exists result,
     api (CallReviseFullArticle (fullArticle s) (revisionPrompt s)) = Returns result /\
     truthy result = true).
Proof.
  destruct (truthy (fullArticle s)); [|now left].
  destruct (truthy (VStr (trim (revisionPrompt s)))); [|now left]. right.
  destruct (api (CallReviseFullArticle (fullArticle s) (revisionPrompt s)))
    as [result|e] eqn:E.
  - destruct (truthy result) eqn:Et.
    + right. repeat split. now exists result.
    + left. now repeat split.
  - left. now repeat split.
Qed.

Lemma drop_spaces_nil s : drop_spaces s = [] <-> blank s = true.
Proof.
  unfold blank. induction s as [|c s IH]; cbn; [tauto|].
  destruct (is_js_space c); cbn; [exact IH|]. split; discriminate.
Qed.

Lemma drop_spaces_suffix s : suffix_of (drop_spaces s) s.
Proof.
  induction s as [|c s IH]; cbn; [apply suffix_of_refl|].
  destruct (is_js_space c); [|apply suffix_of_refl].
  eapply suffix_of_trans; [exact IH|apply suffix_of_tail].
Qed.

Lemma drop_spaces_first s c r : drop_spaces s = c :: r -> is_js_space c = false.
Proof.
  induction s as [|a s IH]; cbn; [discriminate|].
  destruct (is_js_space a) eqn:E; [exact IH|]. now intros [= <- _].
Qed.

(** [trim] leaves nothing exactly of a text of white space. *)
Lemma trim_nil s : trim s = [] <-> blank s = true.
Proof.
  unfold trim. split.
  - intros H. apply drop_spaces_nil.
    destruct (drop_spaces s) as [|c r] eqn:E; [reflexivity|]. exfalso.
    apply (f_equal (@rev N)) in H. rewrite rev_involutive in H. cbn [rev] in H.
    apply drop_spaces_nil in H. unfold blank in H. rewrite forallb_forall in H.
    assert (Hc : In c (rev r ++ [c])) by (apply in_or_app; right; now left).
    apply H in Hc. now rewrite (drop_spaces_first _ _ _ E) in Hc.
  - intros H. apply drop_spaces_nil in H. now rewrite H.
Qed.

(** X15: handleReviseArticle sends its request exactly when an article is
    held and the revision prompt is more than white space; with no article,
    or with a prompt that is empty or blank, nothing is sent and the state
    is left as it is. *)
Theorem blank_revision_is_ignored (s : state) :
  (truthy (fullArticle s) = false \/ blank (revisionPrompt s) = true ->
   exec (handleReviseArticle api s) s = (s, [])) /\
  (truthy (fullArticle s) = true -> blank (revisionPrompt s) = false ->
   snd (exec (handleReviseArticle api s) s)
   = [CallReviseFullArticle (fullArticle s) (revisionPrompt s)]).
Proof.
  assert (E : truthy (VStr (trim (revisionPrompt s))) = negb (blank (revisionPrompt s))).
  { cbn [truthy]. destruct (trim (revisionPrompt s)) eqn:Et.
    - apply trim_nil in Et. now rewrite Et.
    - destruct (blank (revisionPrompt s)) eqn:Eb; [|reflexivity].
      apply trim_nil in Eb. congruence. }
  split.
  - intros H. apply revise_blocked. rewrite E.
    destruct H as [-> | ->]; [reflexivity|apply andb_false_r].
  - intros Ha Hb. apply revise_issued. now rewrite E, Ha, Hb.
Qed.

(** X16: a revision that sends its request never loses the article or
    touches the draft: afterwards the article is the truthy text the request
    returned, with the prompt cleared and no error, or it is the article held
    before, with the prompt kept and an error set. *)
Theorem revision_keeps_an_article (s : state) :
  snd (exec (handleReviseArticle api s) s) <> [] ->
  let s' := fst (exec (handleReviseArticle api s) s) in
  truthy (fullArticle s') = true /\
  draft s' = draft s /\
  ((api (CallReviseFullArticle (fullArticle s) (revisionPrompt s))
    = Returns (fullArticle s') /\ revisionPrompt s' = [] /\ error s' = None) \/
   (fullArticle s' = fullArticle s /\ revisionPrompt s' = revisionPrompt s /\
    error s' <> None)).
Proof.
  destruct (revise_cases s) as [H|[(Ha & Hp & Hf)|(Ha & Hp & result & Hr & Ht)]].
  - rewrite (revise_blocked api s H). intros Hn. now contradiction Hn.
  - rewrite (revise_failed api s Ha Hp Hf). intros _. cbn.
    repeat split; try assumption. right. repeat split. discriminate.
  - rewrite (revise_done s result Ha Hp Hr Ht). intros _. cbn.
    repeat split; try assumption. left. now repeat split.
Qed.

End CreationMoreFacts.

Section CreationMoreExamples.
Import Js Api Service Ui Creation.

Lemma blank_revision_is_ignored_witness :
  blank (lit "   ") = true /\
  exec (handleReviseArticle nothing (setRevisionPrompt (lit "   ") holding))
    (setRevisionPrompt (lit "   ") holding)
  = (setRevisionPrompt (lit "   ") holding, []).
Proof.
  split; [reflexivity|].
  apply (proj1 (blank_revision_is_ignored nothing (setRevisionPrompt (lit "   ") holding))).
  right. reflexivity.
Defined.

Lemma revision_keeps_an_article_witness :
  snd (exec (handleReviseArticle nothing holding) holding) <> [] /\
  truthy (fullArticle (fst (exec (handleReviseArticle nothing holding) holding))) = true.
Proof.
  split; [discriminate|].
  apply (revision_keeps_an_article nothing holding). discriminate.
Defined.

End CreationMoreExamples.

Section CreationInvariant.
Import Js Api Service Ui Creation Pending.

Variable api : backend.

Lemma steady_layered c : steady c -> layered (now c).
Proof.
  unfold steady, layered. cbn zeta.
  destruct (awaiting c) as [|[d|a|a r] [|q l]]; try contradiction.
  - now intros (_ & _ & H).
  - intros (_ & _ & _ & -> & ->). split; discriminate.
  - intros (_ & _ & Hd & Ha & ->). split; [discriminate|auto].
  - intros (_ & _ & Hd & Ha & ->). split; [discriminate|auto].
Qed.

Lemma steady_step h c :
  match h, awaiting c with Draft _, _ :: _ => False | _, _ => True end ->
  steady c -> steady (step api h c).
Proof.
  intros Hcalm H. unfold steady in H. cbn zeta in H. destruct c as [s l].
  cbn [now awaiting] in *.
  destruct l as [|[d|a|a r] [|q l]]; try contradiction.
  - destruct H as (Hg & Hr & Hp & Ha).
    destruct h as [| |text|d|n]; cbn [step now awaiting].
    + destruct (canGenerate s) eqn:E; [|unfold steady, layered; cbn; auto].
      unfold canGenerate in E.
      apply andb_true_iff in E as [E _]. apply andb_true_iff in E as [Ed _].
      unfold startGenerate. rewrite Ed. cbn [negb].
      unfold steady, layered. cbn. rewrite Hr. auto.
    + destruct (canRevise s) eqn:E; [|unfold steady, layered; cbn; auto].
      unfold canRevise in E.
      apply andb_true_iff in E as [E Ep]. apply andb_true_iff in E as [Ed Ea].
      apply negb_true_iff in Ep. apply orb_false_iff in Ep as [_ Ep].
      apply negb_false_iff in Ep.
      unfold startRevise. rewrite Ea, Ep. cbn [negb orb].
      unfold steady, layered. cbn. auto.
    + destruct (canEdit s); unfold steady, layered; cbn; auto.
    + unfold steady, layered. cbn. repeat split; discriminate.
    + destruct n; unfold steady, layered; cbn; auto.
  - destruct H as (Hg & Hr & Hd & Ha & Hp).
    destruct h as [| |text|d'|n]; cbn [step now awaiting].
    + unfold canGenerate. rewrite Hg, andb_false_r.
      unfold steady, layered. cbn. auto.
    + unfold canRevise. rewrite Hg, orb_true_r. cbn [orb negb].
      rewrite andb_false_r. unfold steady, layered. cbn. auto.
    + unfold canEdit. rewrite Hg, orb_true_r. cbn [negb].
      rewrite andb_false_r. unfold steady, layered. cbn. auto.
    + contradiction.
    + destruct n as [|n]; cbn [nth_error];
        [|destruct n; unfold steady, layered; cbn; auto].
      cbn [resume call_of].
      destruct (api (CallGenerateFullArticle d)) as [result|e];
        [destruct (truthy result) eqn:Et|];
        unfold steady, layered; cbn; rewrite ?Ha, ?Hp; repeat split; auto; discriminate.
  - destruct H as (Hg & Hr & Hd & Ha & Hp).
    destruct h as [| |text|d'|n]; cbn [step now awaiting].
    + unfold canGenerate. rewrite Hg, andb_false_r.
      unfold steady, layered. cbn. auto.
    + unfold canRevise. rewrite Hg, orb_true_r. cbn [orb negb].
      rewrite andb_false_r. unfold steady, layered. cbn. auto.
    + unfold canEdit. rewrite Hg, orb_true_r. cbn [negb].
      rewrite andb_false_r. unfold steady, layered. cbn. auto.
    + contradiction.
    + destruct n as [|n]; cbn [nth_error];
        [|destruct n; unfold steady, layered; cbn; auto].
      cbn [resume call_of].
      destruct (api (CallGenerateSocialMediaPosts a)) as [result|e];
        [destruct (truthy result) eqn:Et|];
        unfold steady, layered; cbn; rewrite ?Hp; repeat split; auto; discriminate.
  - destruct H as (Hr & Hg & Hd & Ha & Hp).
    destruct h as [| |text|d'|n]; cbn [step now awaiting].
    + unfold canGenerate. rewrite Ha. cbn [negb]. rewrite andb_false_r.
      unfold steady, layered. cbn. auto.
    + unfold canRevise. rewrite Hr. cbn [orb negb].
      rewrite andb_false_r. unfold steady, layered. cbn. auto.
    + unfold canEdit. rewrite Hr. cbn [orb negb].
      rewrite andb_false_r. unfold steady, layered. cbn. auto.
    + contradiction.
    + destruct n as [|n]; cbn [nth_error];
        [|destruct n; unfold steady, layered; cbn; auto].
      cbn [resume call_of].
      destruct (api (CallReviseFullArticle a r)) as [result|e];
        [destruct (truthy result) eqn:Et|];
        unfold steady, layered; cbn; rewrite ?Hp; repeat split; auto; try discriminate.
Qed.

Lemma steady_run hs c : calm api hs c = true -> steady c -> steady (run api hs c).
Proof.
  revert c. induction hs as [|h hs IH]; intros c Hc H; [exact H|].
  cbn [run fold_left]. apply IH.
  - cbn [calm] in Hc. destruct h; try exact Hc.
    destruct (awaiting c); [exact Hc|discriminate].
  - apply steady_step; [|exact H].
    cbn [calm] in Hc. destruct h; try exact I.
    destruct (awaiting c); [exact I|discriminate].
Qed.

(** X17: the creation step with its handlers taken apart at their awaits,
    so that other things can happen while a call is on its way.  Run with
    nothing in between, the parts of a handler do what the handler does as a
    whole.  Whatever the backend answers and whatever is clicked or typed,
    in whatever order the calls settle: as long as no new draft arrives
    while a handler is waiting, social posts are held only together with an
    article, and an article only together with a draft.  A new draft that
    arrives between the two awaits of handleGenerateArticle breaks this: the
    posts made for the article of the old draft are then held with the new
    draft and without an article. *)
Theorem posts_need_an_article (initialDraft : value) :
  (forall s,
     through api 2 (startGenerate s s) = fst (exec (handleGenerateArticle api s) s) /\
     through api 1 (startRevise s s) = fst (exec (handleReviseArticle api s) s)) /\
  (forall hs,
     calm api hs (mounted initialDraft) = true ->
     let s := now (run api hs (mounted initialDraft)) in
     (truthy (socialPosts s) = true -> truthy (fullArticle s) = true) /\
     (truthy (fullArticle s) = true -> truthy (draft s) = true)) /\
  (forall article posts newDraft,
     truthy initialDraft = true ->
     api (CallGenerateFullArticle initialDraft) = Returns article ->
     truthy article = true ->
     api (CallGenerateSocialMediaPosts article) = Returns posts ->
     truthy posts = true ->
     let s := now (run api [Generate; Settle 0; Draft newDraft; Settle 0]
                     (mounted initialDraft)) in
     socialPosts s = posts /\ fullArticle s = VNull /\ draft s = newDraft).
Proof.
  split; [|split].
  - intros s. split.
    + unfold startGenerate, handleGenerateArticle.
      destruct (truthy (draft s)); [|reflexivity]. cbn [negb through snd fst].
      run_action. cbn [resume call_of].
      destruct (api (CallGenerateFullArticle (draft s))) as [a|e]; [|reflexivity].
      destruct (truthy a); [|reflexivity]. cbn [through snd fst resume call_of].
      destruct (api (CallGenerateSocialMediaPosts a)) as [p|e]; [|reflexivity].
      now destruct (truthy p).
    + unfold startRevise, handleReviseArticle.
      destruct (negb (truthy (fullArticle s))
                || negb (truthy (VStr (trim (revisionPrompt s)))));
        [reflexivity|].
      cbn [through snd fst]. run_action. cbn [resume call_of].
      destruct (api (CallReviseFullArticle (fullArticle s) (revisionPrompt s)))
        as [r|e]; [|reflexivity].
      now destruct (truthy r).
  - intros hs Hc. cbn zeta.
    apply (steady_layered (run api hs (mounted initialDraft))).
    apply steady_run; [exact Hc|].
    unfold steady, layered. cbn. repeat split; discriminate.
  - intros article posts newDraft Hd Ha Hta Hp Htp. cbn zeta.
    cbn [run fold_left step mounted now awaiting].
    unfold canGenerate, startGenerate. cbn [initial draft fullArticle isGenerating].
    rewrite Hd. cbn [truthy negb andb app waiting now awaiting nth_error].
    cbn [resume call_of]. rewrite Ha, Hta.
    cbn [now awaiting without app waiting nth_error resume call_of].
    rewrite Hp, Htp. cbn. auto.
Qed.

End CreationInvariant.

(** ** The components with the handler at the other end *)

Section DeployedFacts.
Import Js Api Service Ui.

Variable g : gen_request -> completion (option jstring).
Variable cannot_read : value -> jstring -> jstring.
Variable environment : env.

#[local] Abbreviation api := (deployed g cannot_read environment).

Lemma posts_null_or_object article :
  or_null (generateSocialMediaPosts g article) = VNull \/
  exists members, or_null (generateSocialMediaPosts g article) = VObj members.
Proof.
  unfold generateSocialMediaPosts.
  destruct (g (ReqGenerateSocialMediaPosts article)) as [response|e]; [|now left].
  cbn [Api.bind or_null]. fold (parsed response).
  destruct (truthy (parsed response)) eqn:E; [|now left].
  cbn [andb].
  destruct (truthy (get (parsed response) (lit "x"))) eqn:Ex; [|now left].
  cbn [andb].
  destruct (truthy (get (parsed response) (lit "facebook"))
            && truthy (get (parsed response) (lit "linkedin"))
            && truthy (get (parsed response) (lit "hashtags"))); [|now left].
  right. cbn [andb or_null].
  destruct (parsed response); try discriminate. now eexists.
Qed.

(** X18: from the generation service to the state of the creation step, all
    layers between: when the credential is set and the service answers the
    article request of the draft (as the JSON text of the request carries
    it) with a text that is not empty, that text is the article held
    afterwards, no error is set, the posts are what the JSON text of the
    answer carries of the result of the social-post stage for that article
    (null when the stage rejects the service's answer or throws), and
    exactly these two requests were sent. *)
Theorem article_end_to_end (s : Creation.state) (c : N) (text : jstring) :
  truthy (Creation.draft s) = true ->
  unset (API_KEY environment) = false ->
  g (ReqGenerateFullArticle (Wire.reread (Creation.draft s)))
  = Returns (Some (c :: text)) ->
  exec (Creation.handleGenerateArticle api s) s
  = ({| Creation.draft := Creation.draft s;
        Creation.fullArticle := VStr (c :: text);
        Creation.socialPosts :=
          Wire.reread (or_null (generateSocialMediaPosts g (VStr (c :: text))));
        Creation.isGenerating := false;
        Creation.isRevising := Creation.isRevising s;
        Creation.revisionPrompt := [];
        Creation.error := None |},
     [CallGenerateFullArticle (Creation.draft s);
      CallGenerateSocialMediaPosts (VStr (c :: text))]).
Proof.
  intros Hd Hk Hg.
  assert (Ha : api (CallGenerateFullArticle (Creation.draft s))
               = Returns (VStr (c :: text))).
  { rewrite received. cbn [gen_request_of stage_of]. rewrite Hk.
    unfold generateFullArticle. now rewrite Hg. }
  rewrite (generate_article_done api s _ Hd Ha eq_refl).
  rewrite received. cbn [gen_request_of stage_of Wire.reread]. rewrite Hk.
  destruct (posts_null_or_object (VStr (c :: text))) as [E|[members E]]; rewrite E.
  - reflexivity.
  - reflexivity.
Qed.

(** X19: without the generation credential every generation call of the
    service gives null, and so the handlers of the components end in their
    returned-nothing message with nothing stored: no article, no keyword
    analysis, no competitor articles, no report, and no draft handed over. *)
Theorem no_credential_every_stage_fails :
  unset (API_KEY environment) = true ->
  (forall call r, gen_request_of call = Some r -> api call = Returns VNull) /\
  (forall s : Creation.state,
     truthy (Creation.draft s) = true ->
     Creation.error (fst (exec (Creation.handleGenerateArticle api s) s))
     = Some Creation.GenerationReturnedNothing /\
     Creation.fullArticle (fst (exec (Creation.handleGenerateArticle api s) s)) = VNull) /\
  (forall s : Creation.state,
     truthy (Creation.fullArticle s) = true ->
     truthy (VStr (trim (Creation.revisionPrompt s))) = true ->
     Creation.error (fst (exec (Creation.handleReviseArticle api s) s))
     = Some Creation.RevisionReturnedNothing /\
     Creation.fullArticle (fst (exec (Creation.handleReviseArticle api s) s))
     = Creation.fullArticle s) /\
  (forall s : Preparation.state,
     Preparation.nonblank (Preparation.userUrl s) = true ->
     Preparation.error (fst (exec (Preparation.handleAnalyzeKeywords api s) s))
     = Some Preparation.KeywordsReturnedNothing /\
     Preparation.keywordAnalysis (fst (exec (Preparation.handleAnalyzeKeywords api s) s))
     = VNull) /\
  (forall s : Preparation.state,
     Preparation.nonblank (Preparation.topic s) = true ->
     Preparation.error (fst (exec (Preparation.handleFindArticles api s) s))
     = Some Preparation.ArticlesReturnedNothing /\
     Preparation.competitorArticles (fst (exec (Preparation.handleFindArticles api s) s))
     = VNull) /\
  (forall s : Preparation.state,
     truthy (Preparation.competitorArticles s) = true ->
     truthy (VStr (Preparation.topic s)) = true ->
     Preparation.error (fst (exec (Preparation.handleCreateCompositeArticle api s) s))
     = Some Preparation.DraftReturnedNothing /\
     Preparation.parent (fst (exec (Preparation.handleCreateCompositeArticle api s) s))
     = Preparation.parent s) /\
  (forall s : Analysis.state,
     truthy (VStr (trim (Analysis.articleUrl s))) = true ->
     Analysis.startsWith_http (Analysis.articleUrl s) = true ->
     Analysis.error (fst (exec (Analysis.handleGenerateReport api s) s))
     = Some Analysis.ReportReturnedNothing /\
     Analysis.analysis (fst (exec (Analysis.handleGenerateReport api s) s)) = VNull).
Proof.
  intros Hk.
  assert (null : forall call r, gen_request_of call = Some r -> api call = Returns VNull).
  { intros call r Hr. rewrite received.
    destruct call; cbn [gen_request_of] in *; [discriminate|..]; now rewrite Hk. }
  split; [exact null|]. repeat apply conj.
  - intros s Hd.
    assert (E : api (CallGenerateFullArticle (Creation.draft s)) = Returns VNull)
      by now eapply null.
    rewrite (generate_article_failed api s Hd); [|now rewrite E].
    rewrite E. now split.
  - intros s Ha Hp.
    assert (E : api (CallReviseFullArticle (Creation.fullArticle s)
                       (Creation.revisionPrompt s)) = Returns VNull)
      by now eapply null.
    rewrite (revise_failed api s Ha Hp); [|now rewrite E].
    rewrite E. now split.
  - intros s Hu.
    assert (E : api (CallAnalyzeKeywords (Preparation.userUrl s)
                       (filter Preparation.nonblank
                          [Preparation.competitorUrl1 s; Preparation.competitorUrl2 s]))
                = Returns VNull) by now eapply null.
    rewrite (keywords_failed api s Hu); [|now rewrite E].
    rewrite E. now split.
  - intros s Hu.
    assert (E : api (CallFindTopCompetitorArticles (Preparation.topic s))
                = Returns VNull) by now eapply null.
    rewrite (articles_failed api s Hu); [|now rewrite E].
    rewrite E. now split.
  - intros s Ha Ht.
    assert (E : api (CallCreateCompositeArticle (Preparation.topic s)
                       (Preparation.competitorArticles s)) = Returns VNull)
      by now eapply null.
    rewrite (composite_failed api s Ha Ht); [|now rewrite E].
    rewrite E. now split.
  - intros s Ha Ht.
    assert (E : api (CallAnalyzePerformanceData (Analysis.articleUrl s)
                       (Analysis.socialUrl s)) = Returns VNull)
      by now eapply null.
    rewrite (report_failed api s Ha Ht); [|now rewrite E].
    rewrite E. now split.
Qed.

End DeployedFacts.

Section DeployedExamples.
Import Js Api Service Ui.

Lemma article_end_to_end_witness :
  exec (Creation.handleGenerateArticle
          (deployed (respond (lit "text")) terse
             {| APP_PASSWORD := None; API_KEY := Some (lit "key") |}) holding) holding
  = ({| Creation.draft := Creation.draft holding;
        Creation.fullArticle := VStr (lit "text");
        Creation.socialPosts := VNull;
        Creation.isGenerating := false;
        Creation.isRevising := false;
        Creation.revisionPrompt := [];
        Creation.error := None |},
     [CallGenerateFullArticle (Creation.draft holding);
      CallGenerateSocialMediaPosts (VStr (lit "text"))]).
Proof.
  apply (article_end_to_end (respond (lit "text")) terse
           {| APP_PASSWORD := None; API_KEY := Some (lit "key") |}
           holding 116 (lit "ext")); reflexivity.
Defined.

Lemma no_credential_every_stage_fails_witness :
  Creation.error
    (fst (exec (Creation.handleGenerateArticle
                  (deployed (respond (lit "text")) terse
                     {| APP_PASSWORD := Some (lit "secret"); API_KEY := None |})
                  holding) holding))
  = Some Creation.GenerationReturnedNothing.
Proof.
  apply (proj1 (proj2 (no_credential_every_stage_fails (respond (lit "text")) terse
                         {| APP_PASSWORD := Some (lit "secret"); API_KEY := None |}
                         eq_refl))).
  reflexivity.
Defined.

End DeployedExamples.

(** ** The catch branches of the components *)

Section ServiceNeverThrows.
Import Js Api Service Ui.

Variable fetch : api_call -> fetched.

#[local] Abbreviation api := (service fetch).

(** X20: the functions of the service module catch whatever goes wrong and
    return null, so no handler of a component ever reaches its catch branch:
    after a handler has run behind the service, whatever [fetch] does, the
    message shown is none, the one of its guard, or the one for a call that
    returned nothing, unless the handler returned at once and left the state
    as it was; the messages of the catch branches are never set. *)
Theorem catch_messages_never_set :
  (forall s : Creation.state,
     let s' := fst (exec (Creation.handleGenerateArticle api s) s) in
     s' = s \/ Creation.error s' = None \/
     Creation.error s' = Some Creation.GenerationReturnedNothing) /\
  (forall s : Creation.state,
     let s' := fst (exec (Creation.handleReviseArticle api s) s) in
     s' = s \/ Creation.error s' = None \/
     Creation.error s' = Some Creation.RevisionReturnedNothing) /\
  (forall s : Preparation.state,
     let s' := fst (exec (Preparation.handleAnalyzeKeywords api s) s) in
     Preparation.error s' = Some Preparation.UserUrlMissing \/
     Preparation.error s' = None \/
     Preparation.error s' = Some Preparation.KeywordsReturnedNothing) /\
  (forall s : Preparation.state,
     let s' := fst (exec (Preparation.handleFindArticles api s) s) in
     Preparation.error s' = Some Preparation.TopicMissing \/
     Preparation.error s' = None \/
     Preparation.error s' = Some Preparation.ArticlesReturnedNothing) /\
  (forall s : Preparation.state,
     let s' := fst (exec (Preparation.handleCreateCompositeArticle api s) s) in
     s' = s \/ Preparation.error s' = None \/
     Preparation.error s' = Some Preparation.DraftReturnedNothing) /\
  (forall s : Analysis.state,
     let s' := fst (exec (Analysis.handleGenerateReport api s) s) in
     Analysis.error s' = Some Analysis.ArticleUrlInvalid \/
     Analysis.error s' = None \/
     Analysis.error s' = Some Analysis.ReportReturnedNothing) /\
  (forall s : PasswordModal.state,
     let s' := fst (exec (PasswordModal.handleSubmit api s) s) in
     s' = s \/ PasswordModal.error s' = None \/
     PasswordModal.error s' = Some PasswordModal.WrongPassword).
Proof.
  repeat apply conj; intros s; cbn zeta.
  - unfold Creation.handleGenerateArticle. settle_handler.
  - unfold Creation.handleReviseArticle. settle_handler.
  - unfold Preparation.handleAnalyzeKeywords. settle_handler.
  - unfold Preparation.handleFindArticles. settle_handler.
  - unfold Preparation.handleCreateCompositeArticle. settle_handler.
  - unfold Analysis.handleGenerateReport. settle_handler.
  - unfold PasswordModal.handleSubmit. settle_handler.
Qed.

End ServiceNeverThrows.

(** ** The preparation step and the analysis step *)

Section StepFacts.
Import Js Api Service Ui.

Variable api : backend.

Lemma nonblank_blank s : Preparation.nonblank s = negb (blank s).
Proof.
  unfold Preparation.nonblank. destruct (trim s) as [|c r] eqn:E.
  - apply trim_nil in E. now rewrite E.
  - destruct (blank s) eqn:B; [|reflexivity].
    apply trim_nil in B. congruence.
Qed.

Lemma truthy_trim s : truthy (VStr (trim s)) = negb (blank s).
Proof.
  destruct (trim s) as [|c r] eqn:E.
  - apply trim_nil in E. now rewrite E.
  - destruct (blank s) eqn:B; [|reflexivity].
    apply trim_nil in B. congruence.
Qed.

Lemma truthy_text s : truthy (VStr s) = true <-> s <> [].
Proof. destruct s; cbn; split; congruence. Qed.

(** X21: the hand-over of a draft.  When the preparation step holds
    competitor articles and a topic and the composite-article call returns a
    truthy draft, the step calls [onDraftCreated] with it: the App of a
    logged-in user then renders the creation step with exactly this draft,
    and the creation step that receives it holds the draft and nothing else,
    whatever it held.  The preparation step is unmounted by this: nothing of
    what it held is kept (URLs, keyword analysis, topic and competitor
    articles are those of a fresh step when it is shown again), and exactly
    the one request was sent. *)
Theorem draft_reaches_creation (s : Preparation.state) (result : value) :
  truthy (Preparation.competitorArticles s) = true ->
  Preparation.topic s <> [] ->
  api (CallCreateCompositeArticle (Preparation.topic s)
         (Preparation.competitorArticles s)) = Returns result ->
  truthy result = true ->
  App.isAuthenticated (Preparation.parent s) = true ->
  let s' := fst (exec (Preparation.handleCreateCompositeArticle api s) s) in
  (forall item,
     Session.render {| Session.app := Preparation.parent s'; Session.stored := item |}
     = Session.ShowCreationStep result) /\
  (forall c : Creation.state,
     fst (exec (Creation.onInitialDraft result) c) = Creation.initial result) /\
  s' = Preparation.initial (App.handleDraftCreated result (Preparation.parent s)) /\
  snd (exec (Preparation.handleCreateCompositeArticle api s) s)
  = [CallCreateCompositeArticle (Preparation.topic s)
       (Preparation.competitorArticles s)].
Proof.
  intros Ha Ht Hr Hres Hauth. apply truthy_text in Ht.
  assert (E : exec (Preparation.handleCreateCompositeArticle api s) s
              = (Preparation.initial
                   (App.handleDraftCreated result (Preparation.parent s)),
                 [CallCreateCompositeArticle (Preparation.topic s)
                    (Preparation.competitorArticles s)])).
  { unfold Preparation.handleCreateCompositeArticle. rewrite Ha, Ht. cbn [negb orb].
    run_action. rewrite Hr, Hres. reflexivity. }
  cbn zeta. rewrite E. repeat apply conj.
  - intros item. unfold Session.render. cbn. now rewrite Hauth.
  - intros c. reflexivity.
  - reflexivity.
  - reflexivity.
Qed.

(** X22: the guards and the requests of the preparation step.  A handler
    sends at most one request, none when its guard stops it.  Keyword
    analysis and article search are stopped by an input of white space only
    and set their own message; the draft handler is stopped without a
    message by missing articles or an empty topic, but not by a topic of
    white space only.  The request carries the texts as typed, and of the
    two competitor URLs only those that are not blank. *)
Theorem preparation_guards (s : Preparation.state) :
  (snd (exec (Preparation.handleAnalyzeKeywords api s) s)
   = if blank (Preparation.userUrl s) then []
     else [CallAnalyzeKeywords (Preparation.userUrl s)
             (filter (fun u => negb (blank u))
                [Preparation.competitorUrl1 s; Preparation.competitorUrl2 s])]) /\
  (blank (Preparation.userUrl s) = true ->
   fst (exec (Preparation.handleAnalyzeKeywords api s) s)
   = Preparation.setError (Some Preparation.UserUrlMissing) s) /\
  (snd (exec (Preparation.handleFindArticles api s) s)
   = if blank (Preparation.topic s) then []
     else [CallFindTopCompetitorArticles (Preparation.topic s)]) /\
  (blank (Preparation.topic s) = true ->
   fst (exec (Preparation.handleFindArticles api s) s)
   = Preparation.setError (Some Preparation.TopicMissing) s) /\
  (snd (exec (Preparation.handleCreateCompositeArticle api s) s)
   = match Preparation.topic s with
     | [] => []
     | _ :: _ =>
         if truthy (Preparation.competitorArticles s)
         then [CallCreateCompositeArticle (Preparation.topic s)
                 (Preparation.competitorArticles s)]
         else []
     end) /\
  (truthy (Preparation.competitorArticles s) = false \/ Preparation.topic s = [] ->
   fst (exec (Preparation.handleCreateCompositeArticle api s) s) = s).
Proof.
  repeat apply conj.
  - unfold Preparation.handleAnalyzeKeywords. rewrite nonblank_blank, negb_involutive.
    destruct (blank (Preparation.userUrl s)); [reflexivity|].
    rewrite (filter_ext Preparation.nonblank (fun u => negb (blank u)) nonblank_blank).
    run_action.
    destruct (api _) as [r|e]; [destruct (truthy r && _)|]; reflexivity.
  - intros H. unfold Preparation.handleAnalyzeKeywords.
    rewrite nonblank_blank, H. reflexivity.
  - unfold Preparation.handleFindArticles. rewrite nonblank_blank, negb_involutive.
    destruct (blank (Preparation.topic s)); [reflexivity|].
    run_action. destruct (api _) as [r|e]; [destruct (truthy r)|]; reflexivity.
  - intros H. unfold Preparation.handleFindArticles.
    rewrite nonblank_blank, H. reflexivity.
  - unfold Preparation.handleCreateCompositeArticle.
    destruct (Preparation.topic s) as [|c r] eqn:Et.
    + rewrite orb_true_r. reflexivity.
    + cbn [truthy negb]. rewrite orb_false_r.
      destruct (truthy (Preparation.competitorArticles s)); [|reflexivity].
      run_action. destruct (api _) as [d|e]; [destruct (truthy d)|]; reflexivity.
  - intros H. unfold Preparation.handleCreateCompositeArticle.
    destruct H as [H|H]; rewrite H; [reflexivity|].
    rewrite orb_true_r. reflexivity.
Qed.

Variable hostname : jstring -> option jstring.

(** X23: the guard of the analysis step.  A URL of white space only, or one
    that does not begin with the four letters http (a leading space is
    enough), sets the message for an invalid URL, sends no request, and
    leaves the report held, which can still be downloaded under the same
    name.  Any other URL sends exactly one request, with both URLs as typed;
    if that call fails, no report is held afterwards and there is nothing to
    download. *)
Theorem report_guard (s : Analysis.state) :
  let s' := fst (exec (Analysis.handleGenerateReport api s) s) in
  let call := CallAnalyzePerformanceData (Analysis.articleUrl s) (Analysis.socialUrl s) in
  (blank (Analysis.articleUrl s) = true \/
   Analysis.startsWith_http (Analysis.articleUrl s) = false ->
   exec (Analysis.handleGenerateReport api s) s
   = (Analysis.setError (Some Analysis.ArticleUrlInvalid) s, []) /\
   Download.handleDownload hostname s' = Download.handleDownload hostname s) /\
  (blank (Analysis.articleUrl s) = false ->
   Analysis.startsWith_http (Analysis.articleUrl s) = true ->
   snd (exec (Analysis.handleGenerateReport api s) s) = [call] /\
   Analysis.isLoading s' = false /\
   (failed (api call) -> Download.handleDownload hostname s' = None)).
Proof.
  cbn zeta. split.
  - intros H.
    assert (E : exec (Analysis.handleGenerateReport api s) s
                = (Analysis.setError (Some Analysis.ArticleUrlInvalid) s, [])).
    { unfold Analysis.handleGenerateReport. rewrite truthy_trim, negb_involutive.
      destruct H as [H|H]; rewrite H; [reflexivity|].
      rewrite orb_true_r. reflexivity. }
    rewrite E. now split.
  - intros Hb Hh.
    assert (Ht : truthy (VStr (trim (Analysis.articleUrl s))) = true)
      by now rewrite truthy_trim, Hb.
    unfold Analysis.handleGenerateReport. rewrite Ht, Hh. cbn [negb orb].
    run_action.
    destruct (api _) as [r|e]; [destruct (truthy r) eqn:Er|]; cbn.
    + repeat split. intros F. cbn in F. congruence.
    + now repeat split.
    + now repeat split.
Qed.

End StepFacts.

Section DownloadFacts.
Import Js Api Service Ui.

Lemma sanitize_safe d : forallb name_character (Download.sanitize d) = true.
Proof.
  unfold Download.sanitize, name_character.
  induction d as [|c d IH]; cbn [map forallb]; [reflexivity|].
  rewrite IH, andb_true_r.
  destruct (Download.is_safe c) eqn:E; [now rewrite E|reflexivity].
Qed.

Lemma filename_shape hostname url :
  exists stem,
    Download.filename hostname url = lit "performance_report" ++ stem /\
    forallb name_character stem = true.
Proof.
  unfold Download.filename. destruct url as [|c r].
  - exists []. now rewrite app_nil_r.
  - destruct (hostname (c :: r)) as [host|].
    + exists (95 :: Download.sanitize (Download.strip_www host)). split.
      * reflexivity.
      * cbn [forallb]. now rewrite sanitize_safe.
    + exists []. now rewrite app_nil_r.
Qed.

(** X24: the name under which a report is downloaded.  Whatever the URL
    field holds and whatever host name the URL parser reads out of it, when
    there is a report and the link is made, its download attribute is
    performance_report, a stem, and the extension .csv, and all of it
    consists of ASCII letters, digits, dots, hyphens and underscores: no
    character of the host name outside this set reaches the file name. *)
Theorem download_name_is_safe (hostname : jstring -> option jstring)
  (toString : number -> jstring) (encodeURI : jstring -> completion jstring)
  (s : Analysis.state) (data : Analysis.PerformanceAnalysis)
  (name : jstring) (l : Analysis.link) :
  Download.handleDownload hostname s = Some name ->
  Analysis.downloadCSV toString encodeURI data name = Returns l ->
  forallb name_character (Analysis.download l) = true /\
  exists stem,
    Analysis.download l = lit "performance_report" ++ stem ++ lit ".csv".
Proof.
  unfold Download.handleDownload, Analysis.downloadCSV. intros Hn Hl.
  destruct (truthy (Analysis.analysis s)); [|discriminate].
  injection Hn as <-.
  destruct (encodeURI _) as [uri|e]; [|discriminate].
  injection Hl as <-. cbn [Analysis.download].
  destruct (filename_shape hostname (Analysis.articleUrl s)) as (stem & E & Hs).
  rewrite E. split.
  - rewrite !forallb_app, Hs. reflexivity.
  - exists stem. now rewrite app_assoc.
Qed.

End DownloadFacts.

(** ** Instances *)

Section FurtherExamples.
Import Js Api Service Ui.

Lemma unusable_response_is_null_witness :
  createCompositeArticle (respond (lit "oops")) (VStr (lit "shoes")) (VArr [])
  = Returns VNull.
Proof.
  assert (H : unusable (Some (lit "oops"))).
  { right; right. exists (lit "oops"). split; reflexivity. }
  apply (proj1 (proj2 (proj2
           (unusable_response_is_null (respond (lit "oops")) (Some (lit "oops")) H)))).
  reflexivity.
Defined.

Lemma accepted_results_shape_witness :
  let d := parsed (Some (jlit "{'keywordAnalysis': [1], 'summary': 's'}")) in
  d <> VNull /\
  has_field d (lit "summary") = true /\ truthy (get d (lit "summary")) = true.
Proof.
  intros d.
  assert (Hd : d <> VNull) by (vm_compute; discriminate).
  split; [exact Hd|].
  apply (proj2 (proj1 (accepted_results_shape
                         (respond (jlit "{'keywordAnalysis': [1], 'summary': 's'}"))
                         d Hd) VNull VNull eq_refl)).
  right; left. reflexivity.
Defined.

Lemma posts_need_an_article_witness :
  calm obliging
    [Pending.Generate; Pending.Settle 0; Pending.Settle 0;
     Pending.Draft (VObj []); Pending.Generate; Pending.Settle 0]
    (Pending.mounted (VObj [])) = true /\
  truthy (Creation.draft
            (Pending.now
               (Pending.run obliging
                  [Pending.Generate; Pending.Settle 0; Pending.Settle 0;
                   Pending.Draft (VObj []); Pending.Generate; Pending.Settle 0]
                  (Pending.mounted (VObj []))))) = true.
Proof.
  split; [reflexivity|].
  apply (proj2 (proj1 (proj2 (posts_need_an_article obliging (VObj [])))
                  [Pending.Generate; Pending.Settle 0; Pending.Settle 0;
                   Pending.Draft (VObj []); Pending.Generate; Pending.Settle 0]
                  eq_refl)).
  reflexivity.
Defined.

Lemma draft_reaches_creation_witness :
  Session.render
    {| Session.app :=
         Preparation.parent
           (fst (exec (Preparation.handleCreateCompositeArticle obliging prepared)
                   prepared));
       Session.stored := None |}
  = Session.ShowCreationStep (VObj []).
Proof.
  apply (proj1 (draft_reaches_creation obliging prepared (VObj [])
                  eq_refl ltac:(discriminate) eq_refl eq_refl eq_refl)).
Defined.

Lemma preparation_guards_witness :
  blank (Preparation.userUrl prepared) = true /\
  fst (exec (Preparation.handleAnalyzeKeywords obliging prepared) prepared)
  = Preparation.setError (Some Preparation.UserUrlMissing) prepared.
Proof.
  split; [reflexivity|].
  apply (proj1 (proj2 (preparation_guards obliging prepared))). reflexivity.
Defined.

Lemma report_guard_witness :
  exec (Analysis.handleGenerateReport obliging reported) reported
  = (Analysis.setError (Some Analysis.ArticleUrlInvalid) reported, []).
Proof.
  apply (proj1 (report_guard obliging (fun _ => None) reported)).
  right. reflexivity.
Defined.

Lemma download_name_is_safe_witness :
  forallb name_character (lit "performance_report_a_b.example.csv") = true /\
  exists stem,
    lit "performance_report_a_b.example.csv"
    = lit "performance_report" ++ stem ++ lit ".csv".
Proof.
  apply (download_name_is_safe (fun _ => Some (lit "www.a b.example"))
           (fun _ => []) (fun uri => Returns uri) reported brief
           (lit "performance_report_a_b.example")
           {| Analysis.href := Analysis.csvContent (fun _ => []) brief;
              Analysis.download := lit "performance_report_a_b.example.csv" |});
    reflexivity.
Defined.

End FurtherExamples.
